(** * AQI forecast service: the feature builder and the recursive rollout

    A shallow embedding of [main.py] (the [/predict] endpoint, [build_feats],
    [get_data_cached], the model-loading loop) and of [train_baseline.py]
    ([add_features], the table of complete rows, the training set and the
    schema stored with every model).

    Modelling conventions.
    - A float64 is an exact rational or the missing-value marker [NaN];
      rounding and infinities are abstracted away.
    - A timestamp is a day number (days since 1970-01-01) in [Z]; every row
      has a date (no [NaT]).
    - pandas objects live in a heap and are handled through references, so
      that in-place column assignment and aliasing are visible.
    - [sort_values] is modelled as a stable insertion sort.
    - A character is a code point below 256. *)

From Stdlib Require Import ZArith QArith Qcanon Ascii String DecimalString.
From stdpp Require Import base option list strings sorting gmap.

Local Open Scope Z_scope.

(** ** Floats with a missing-value marker *)

Inductive float :=
| Fin (q : Qc)
| NaN.

Global Instance float_inhabited : Inhabited float := populate NaN.

Definition float_eqb (x y : float) : bool :=
  match x, y with
  | Fin p, Fin q => Qeq_bool p q
  | NaN, NaN => true
  | _, _ => false
  end.

Definition Qc_of_Z (z : Z) : Qc := Q2Qc (inject_Z z).
Definition Qc_of_nat (n : nat) : Qc := Qc_of_Z (Z.of_nat n).

Definition Qc_sum (qs : list Qc) : Qc := foldr Qcplus (Qc_of_Z 0) qs.

(** The finite entries of a column, in order. *)
Fixpoint finite (xs : list float) : list Qc :=
  match xs with
  | [] => []
  | Fin q :: xs => q :: finite xs
  | NaN :: xs => finite xs
  end.

(** [Series.mean()]: missing values are skipped; the mean of nothing is [NaN]. *)
Definition mean (xs : list float) : float :=
  match finite xs with
  | [] => NaN
  | qs => Fin (Qc_sum qs / Qc_of_nat (length qs))%Qc
  end.

(** [Series.tail(n)]. *)
Definition tail {A} (n : nat) (xs : list A) : list A :=
  drop (length xs - n) xs.

(** [Series.shift(L)]: every value moves [L] rows down, the first [L] rows
    become missing, the length is kept. *)
Definition shift (L : nat) (xs : list float) : list float :=
  take (length xs) (replicate L NaN ++ xs).

(** One window of [rolling(w).mean()]: with the default minimum period the
    window must hold [w] non-missing values. *)
Definition window_mean (w : nat) (win : list float) : float :=
  if (length (finite win) <? w)%nat then NaN else mean win.

(** [Series.rolling(w).mean()]: row [i] looks at the rows [i-w+1 .. i]. *)
Definition rolling_mean (w : nat) (xs : list float) : list float :=
  map (fun i => window_mean w (tail w (take (S i) xs))) (seq 0 (length xs)).

(** ** Calendar fields of a day number *)

Definition days_from_civil (y m d : Z) : Z :=
  let y := if m <=? 2 then y - 1 else y in
  let era := y / 400 in
  let yoe := y - era * 400 in
  let doy := (153 * (if 2 <? m then m - 3 else m + 9) + 2) / 5 + d - 1 in
  let doe := yoe * 365 + yoe / 4 - yoe / 100 + doy in
  era * 146097 + doe - 719468.

Definition civil_from_days (z : Z) : Z * Z * Z :=
  let z := z + 719468 in
  let era := z / 146097 in
  let doe := z - era * 146097 in
  let yoe := (doe - doe / 1460 + doe / 36524 - doe / 146096) / 365 in
  let y := yoe + era * 400 in
  let doy := doe - (365 * yoe + yoe / 4 - yoe / 100) in
  let mp := (5 * doy + 2) / 153 in
  let d := doy - (153 * mp + 2) / 5 + 1 in
  let m := if mp <? 10 then mp + 3 else mp - 9 in
  (if m <=? 2 then y + 1 else y, m, d).

(** [dt.dayofweek]: Monday is 0; 1970-01-01 was a Thursday. *)
Definition dayofweek (t : Z) : Z := (t + 3) mod 7.

(** [dt.month]. *)
Definition month (t : Z) : Z := snd (fst (civil_from_days t)).

(** [dt.dayofyear]: 1 January is day 1. *)
Definition dayofyear (t : Z) : Z :=
  t - days_from_civil (fst (fst (civil_from_days t))) 1 1 + 1.

Definition digit (n : Z) : string :=
  String (ascii_of_nat (48 + Z.to_nat (n mod 10))) EmptyString.

Definition digits2 (n : Z) : string := digit (n / 10) +:+ digit n.
Definition digits4 (n : Z) : string := digits2 (n / 100) +:+ digits2 n.

(** [date.isoformat()]: [YYYY-MM-DD]. *)
Definition isoformat (t : Z) : string :=
  let '(y, m, d) := civil_from_days t in
  digits4 y +:+ "-" +:+ digits2 m +:+ "-" +:+ digits2 d.

(** ** Data frames

    Every frame of this program descends from the cleaned sheet, so it has a
    datetime column [Date] and a float column [AQI]; the other columns
    ([City], the derived features) are kept by name. *)

Inductive cell :=
| Float (x : float)
| Int (n : Z)
| Timestamp (t : Z)
| Str (s : string).

Global Instance cell_inhabited : Inhabited cell := populate (Float NaN).

Definition cell_isna (c : cell) : bool :=
  match c with Float NaN => true | _ => false end.

Definition cell_eqb (c d : cell) : bool :=
  match c, d with
  | Float x, Float y => float_eqb x y
  | Int m, Int n => m =? n
  | Timestamp t, Timestamp u => t =? u
  | Str s, Str t => String.eqb s t
  | _, _ => false
  end.

Record obs := mkObs { Date : Z; AQI : float }.

Record DataFrame := mkDF {
  rows : list obs;
  cols : list (string * list cell) }.

Global Instance DataFrame_inhabited : Inhabited DataFrame := populate (mkDF [] []).

Fixpoint assoc {A} (k : string) (l : list (string * A)) : option A :=
  match l with
  | [] => None
  | (k', v) :: l => if String.eqb k k' then Some v else assoc k l
  end.

(** Assignment to a key: an existing entry is replaced in place, a new one
    goes to the end. *)
Fixpoint set_assoc {A} (k : string) (v : A) (l : list (string * A)) : list (string * A) :=
  match l with
  | [] => [(k, v)]
  | (k', v') :: l => if String.eqb k k' then (k, v) :: l else (k', v') :: set_assoc k v l
  end.

(** [df[name]] as a value; [None] stands for pandas' [KeyError]. *)
Definition get_col (df : DataFrame) (name : string) : option (list cell) :=
  if String.eqb name "Date" then Some (map (fun r => Timestamp (Date r)) (rows df))
  else if String.eqb name "AQI" then Some (map (fun r => Float (AQI r)) (rows df))
  else assoc name (cols df).

(** The names of derived columns: any but the two base columns. *)
Definition derived (k : string) : bool :=
  negb (String.eqb k "Date") && negb (String.eqb k "AQI").

(** [df[name] = column] for a derived column ([build_feats] assigns no other). *)
Definition set_col (name : string) (c : list cell) (df : DataFrame) : DataFrame :=
  mkDF (rows df) (set_assoc name c (cols df)).

(** Rows picked by position, as boolean indexing and sorting do. *)
Definition pick {A} (idx : list nat) (xs : list A) : list A :=
  omap (fun i => xs !! i) idx.

Definition take_rows (idx : list nat) (df : DataFrame) : DataFrame :=
  mkDF (pick idx (rows df)) (map (fun nc => (fst nc, pick idx (snd nc))) (cols df)).

(** [df[mask]]. *)
Definition mask_index (mask : list bool) : list nat :=
  map snd (filter (fun bi => fst bi = true) (zip mask (seq 0 (length mask)))).

Fixpoint insert_by {A} (le : A -> A -> bool) (x : A) (l : list A) : list A :=
  match l with
  | [] => [x]
  | y :: l' => if le x y then x :: l else y :: insert_by le x l'
  end.

Fixpoint isort {A} (le : A -> A -> bool) (l : list A) : list A :=
  match l with
  | [] => []
  | x :: l => insert_by le x (isort le l)
  end.

Definition key_le (a b : Z * nat) : bool := fst a <=? fst b.

Definition argsort (keys : list Z) : list nat :=
  map snd (isort key_le (zip keys (seq 0 (length keys)))).

(** [df.sort_values('Date')] as a value. *)
Definition sort_by_Date (df : DataFrame) : DataFrame :=
  take_rows (argsort (map Date (rows df))) df.

(** [df[['Date','AQI']]]. *)
Definition Date_AQI (df : DataFrame) : DataFrame := mkDF (rows df) [].

(** [df.iloc[-1:]]. *)
Definition iloc_last (df : DataFrame) : DataFrame :=
  mkDF (tail 1 (rows df)) (map (fun nc => (fst nc, tail 1 (snd nc))) (cols df)).

(** [pd.concat([df, pd.DataFrame([{'Date': t, 'AQI': v}])], ignore_index=True)]:
    the new row has no derived columns, they are filled with the marker. *)
Definition concat_row (df : DataFrame) (t : Z) (v : float) : DataFrame :=
  mkDF (rows df ++ [mkObs t v])
       (map (fun nc => (fst nc, snd nc ++ [Float NaN])) (cols df)).

(** [hist['Date'].max()]; on an empty column pandas answers [NaT], which the
    caller never sees because it has left on [hist.empty]. *)
Definition Date_max (df : DataFrame) : Z :=
  match map Date (rows df) with
  | [] => 0
  | t :: ts => foldr Z.max t ts
  end.

Definition lag_name (L : nat) : string :=
  "lag_" +:+ NilEmpty.string_of_uint (Nat.to_uint L).

(** ** Exceptions, the store and the monad of the service *)

Inductive exn :=
| HTTPException (status : Z) (detail : string)
| KeyError (keys : list string)
| IndexError
| RuntimeError (msg : string).

Inductive result (A : Type) :=
| Ok (a : A)
| Raise (e : exn).
Arguments Ok {A} a.
Arguments Raise {A} e.

(** A reference is the position of its object in the store. *)
Abbreviation loc := nat.

(** The objects allocated so far and the module-level cache [_DATA]. *)
Record state := mkState {
  heap : list DataFrame;
  DATA_df : option loc;
  DATA_ts : Z }.

Definition M (A : Type) : Type := state -> result A * state.

Definition ret {A} (a : A) : M A := fun s => (Ok a, s).
Definition raise {A} (e : exn) : M A := fun s => (Raise e, s).
Definition bind {A B} (c : M A) (k : A -> M B) : M B :=
  fun s => match c s with
           | (Ok a, s') => k a s'
           | (Raise e, s') => (Raise e, s')
           end.

Declare Scope py_scope.
Delimit Scope py_scope with py.
Notation "x <- c ;; k" := (bind c (fun x => k))
  (at level 90, c at next level, right associativity) : py_scope.
Notation "c ;;; k" := (bind c (fun _ => k))
  (at level 90, right associativity) : py_scope.
Local Open Scope py_scope.

(** A fresh object. *)
Definition alloc (df : DataFrame) : M loc :=
  fun s => (Ok (length (heap s)), mkState (heap s ++ [df]) (DATA_df s) (DATA_ts s)).

(** The object behind a reference (references never dangle in Python). *)
Definition load (l : loc) : M DataFrame :=
  fun s => (Ok (heap s !!! l), s).

(** In-place update of the object behind a reference. *)
Definition store (l : loc) (df : DataFrame) : M unit :=
  fun s => (Ok tt, mkState (<[l := df]> (heap s)) (DATA_df s) (DATA_ts s)).

Fixpoint for_ {A S} (xs : list A) (body : A -> S -> M S) (acc : S) : M S :=
  match xs with
  | [] => ret acc
  | x :: xs => acc <- body x acc ;; for_ xs body acc
  end.

(** [df.copy()]. *)
Definition copy (l : loc) : M loc :=
  df <- load l ;; alloc df.

(** [df.sort_values('Date')]: a new object. *)
Definition sort_values_Date (l : loc) : M loc :=
  df <- load l ;; alloc (sort_by_Date df).

(** [df['AQI']], [df['Date']]. *)
Definition getitem_AQI (l : loc) : M (list float) :=
  df <- load l ;; ret (map AQI (rows df)).
Definition getitem_Date (l : loc) : M (list Z) :=
  df <- load l ;; ret (map Date (rows df)).

(** [df[name]]. *)
Definition getitem (l : loc) (name : string) : M (list cell) :=
  df <- load l ;;
  match get_col df name with
  | Some c => ret c
  | None => raise (KeyError [name])
  end.

(** [df[name] = column]: mutates the object. *)
Definition setitem (l : loc) (name : string) (c : list cell) : M unit :=
  df <- load l ;; store l (set_col name c df).

(** ** The service *)

Definition DIVS : list string :=
  ["Dhaka"; "Chattogram"; "Sylhet"; "Khulna"; "Rajshahi"; "Barishal";
   "Mymensingh"; "Rangpur"]%string.

(** A fitted regressor: one prediction for one row of named features. *)
Definition regressor := list (string * cell) -> float.

(** What [joblib.load] finds in a model file. *)
Record pkl := mkPkl { pkl_model : regressor; pkl_features : list string }.

(** The module-level [MODELS, FEATURES]. *)
Record registry := mkRegistry {
  MODELS : gmap string regressor;
  FEATURES : option (list string) }.

Definition model_path (d : string) : string := "models/" +:+ d +:+ ".pkl".

(** The loading loop at import time, over the files that exist; the last
    file read leaves its schema in [FEATURES]. *)
Definition load_one (files : gmap string pkl) (reg : registry) (d : string) : registry :=
  match files !! model_path d with
  | Some obj => mkRegistry (<[d := pkl_model obj]> (MODELS reg)) (Some (pkl_features obj))
  | None => reg
  end.

Definition load_models (files : gmap string pkl) : result registry :=
  let reg := foldl (load_one files) (mkRegistry ∅ None) DIVS in
  if decide (MODELS reg = ∅) then Raise (RuntimeError "No models found in models/")
  else Ok reg.

(** [feature_cols] of the training script: the lag columns in column order,
    then the rolling means and the calendar fields. *)
Definition feature_cols : list string :=
  map lag_name (seq 1 14) ++ ["roll7"; "roll14"; "dow"; "mon"; "doy"]%string.

(** [str.strip()]: white space is removed at both ends. *)
Definition isspace (c : ascii) : bool :=
  let n := nat_of_ascii c in
  ((9 <=? n) && (n <=? 13) || (28 <=? n) && (n <=? 32) || (n =? 133) || (n =? 160))%nat.

Fixpoint lstrip (s : list ascii) : list ascii :=
  match s with
  | [] => []
  | c :: s' => if isspace c then lstrip s' else s
  end.

Definition strip (s : string) : string :=
  string_of_list_ascii
    (reverse (lstrip (reverse (lstrip (list_ascii_of_string s))))).

(** The frame [x] handed to the model: the selected columns of the last row. *)
Record X := mkX { x_len : nat; x_cols : list (string * list cell) }.

Definition x_isna_any (x : X) : bool :=
  existsb (fun nc => existsb cell_isna (snd nc)) (x_cols x).

Definition x_row (x : X) (i : nat) : list (string * cell) :=
  map (fun nc => (fst nc, snd nc !!! i)) (x_cols x).

(** [model.predict(x)]: one prediction per row. *)
Definition model_predict (model : regressor) (x : X) : list float :=
  map (fun i => model (x_row x i)) (seq 0 (x_len x)).

(** [df[names]] for a list of names; pandas reports the names it misses. *)
Definition select (names : option (list string)) (df : DataFrame) : result X :=
  match names with
  | None => Raise (KeyError ["None"%string])
  | Some names =>
      match filter (fun n => get_col df n = None) names with
      | [] => Ok (mkX (length (rows df))
                      (omap (fun n => pair n <$> get_col df n) names))
      | missing => Raise (KeyError missing)
      end
  end.

Definition lift {A} (r : result A) : M A :=
  match r with Ok a => ret a | Raise e => raise e end.

Record point := mkPoint { date : string; predicted_aqi : float }.

Record response := mkResponse {
  division : string;
  forecast_days : Z;
  predictions : list point }.

Definition empty (df : DataFrame) : bool :=
  match rows df with [] => true | _ => false end.

Definition detail_400 : string :=
  "division must be one of ['Dhaka', 'Chattogram', 'Sylhet', 'Khulna', 'Rajshahi', 'Barishal', 'Mymensingh', 'Rangpur']".

Definition build_feats (work : loc) : M loc :=
  work <- copy work ;;
  work <- sort_values_Date work ;;
  for_ (seq 1 14)
       (fun L _ => aqi <- getitem_AQI work ;;
                   setitem work (lag_name L) (map Float (shift L aqi))) tt ;;;
  (aqi <- getitem_AQI work ;;
   setitem work "roll7" (map Float (rolling_mean 7 (shift 1 aqi)))) ;;;
  (aqi <- getitem_AQI work ;;
   setitem work "roll14" (map Float (rolling_mean 14 (shift 1 aqi)))) ;;;
  (d <- getitem_Date work ;; setitem work "dow" (map (fun t => Int (dayofweek t)) d)) ;;;
  (d <- getitem_Date work ;; setitem work "mon" (map (fun t => Int (month t)) d)) ;;;
  (d <- getitem_Date work ;; setitem work "doy" (map (fun t => Int (dayofyear t)) d)) ;;;
  ret work.

Section Service.
(** The registry filled at import time, the cache lifetime, and what the
    outside world answers during one request: the clock and the cleaned
    sheet that [load_sheet_clean] would return. *)
Variable reg : registry.
Variable CACHE_SECS : Z.
Variable now : Z.
Variable sheet : result DataFrame.

Definition load_sheet_clean : M loc :=
  df <- lift sheet ;; alloc df.

Definition get_data_cached : M loc :=
  fun s =>
    match DATA_df s with
    | Some l =>
        if CACHE_SECS <? now - DATA_ts s
        then (l <- load_sheet_clean ;;
              fun s => (Ok l, mkState (heap s) (Some l) now)) s
        else (Ok l, s)
    | None =>
        (l <- load_sheet_clean ;;
         fun s => (Ok l, mkState (heap s) (Some l) now)) s
    end.

(** [tmp = build_feats(work); x = tmp.iloc[-1:][FEATURES]]. *)
Definition features_of (work : loc) : M X :=
  tmp <- build_feats work ;;
  last <- (df <- load tmp ;; alloc (iloc_last df)) ;;
  df <- load last ;;
  lift (select (FEATURES reg) df).

(** One turn of the rollout loop. *)
Definition rollout_step (model : regressor) (last_date : Z)
    (step : Z) (acc : loc * list point) : M (loc * list point) :=
  let '(work, out) := acc in
  let target_date := last_date + step in
  x <- features_of work ;;
  pred <- (if x_isna_any x
           then aqi <- getitem_AQI work ;; ret (mean (tail 7 aqi))
           else match model_predict model x with
                | p :: _ => ret p
                | [] => raise IndexError
                end) ;;
  let out := out ++ [mkPoint (isoformat target_date) pred] in
  work <- (df <- load work ;; alloc (concat_row df target_date pred)) ;;
  ret (work, out).

(** [df_all[df_all['City']==division].sort_values('Date')[['Date','AQI']].copy()]. *)
Definition extract_hist (df_all : loc) (division : string) : M loc :=
  city <- getitem df_all "City" ;;
  sel <- (df <- load df_all ;;
          alloc (take_rows (mask_index (map (cell_eqb (Str division)) city)) df)) ;;
  srt <- sort_values_Date sel ;;
  prj <- (df <- load srt ;; alloc (Date_AQI df)) ;;
  copy prj.

(** The rollout from [hist] on: lines 73 to 91. *)
Definition forecast (model : regressor) (division : string) (hist : loc) : M response :=
  h <- load hist ;;
  if empty h then raise (HTTPException 404 ("No data for " +:+ division))
  else
    let last_date := Date_max h in
    work <- copy hist ;;
    acc <- for_ (map Z.of_nat (seq 1 7)) (rollout_step model last_date) (work, []) ;;
    ret (mkResponse division 7 (snd acc)).

Definition predict (division : string) : M response :=
  let division := strip division in
  if negb (bool_decide (division ∈ DIVS))
  then raise (HTTPException 400 detail_400)
  else match MODELS reg !! division with
       | None => raise (HTTPException 500 ("No model for " +:+ division))
       | Some model =>
           df_all <- get_data_cached ;;
           hist <- extract_hist df_all division ;;
           forecast model division hist
       end.
End Service.

(** ** What the stateful code computes, as values

    The frames and numbers that the code above leaves in the store; the
    lemmas [build_feats_run], [rollout_step_run] and [rollout_run] below
    connect them to the code. *)

(** [df[name] = f(df)]: a column computed from the frame it goes into. *)
Definition with_col (name : string) (f : DataFrame -> list cell) (df : DataFrame) : DataFrame :=
  set_col name (f df) df.
Arguments with_col : simpl never.

Definition lag_values (L : nat) (df : DataFrame) : list cell :=
  map Float (shift L (map AQI (rows df))).
Definition roll_values (w : nat) (df : DataFrame) : list cell :=
  map Float (rolling_mean w (shift 1 (map AQI (rows df)))).
Definition calendar_values (g : Z -> Z) (df : DataFrame) : list cell :=
  map (fun t => Int (g t)) (map Date (rows df)).

Definition add_lag (df : DataFrame) (L : nat) : DataFrame :=
  with_col (lag_name L) (lag_values L) df.

Definition build_feats_value (work : DataFrame) : DataFrame :=
  with_col "doy" (calendar_values dayofyear)
    (with_col "mon" (calendar_values month)
       (with_col "dow" (calendar_values dayofweek)
          (with_col "roll14" (roll_values 14)
             (with_col "roll7" (roll_values 7)
                (foldl add_lag (sort_by_Date work) (seq 1 14)))))).

(** The frame [x] of a turn whose working series is [work]. *)
Definition features_value (reg : registry) (work : DataFrame) : result X :=
  select (FEATURES reg) (iloc_last (build_feats_value work)).

(** The prediction of a turn whose working series is [work]. *)
Definition prediction (reg : registry) (model : regressor) (work : DataFrame) : result float :=
  match features_value reg work with
  | Raise e => Raise e
  | Ok x =>
      if x_isna_any x then Ok (mean (tail 7 (map AQI (rows work))))
      else match model_predict model x with
           | p :: _ => Ok p
           | [] => Raise IndexError
           end
  end.

(** The working series and the points after the turns [steps]. *)
Fixpoint rollout_value (reg : registry) (model : regressor) (last_date : Z)
    (steps : list Z) (work : DataFrame) (out : list point)
    : result (DataFrame * list point) :=
  match steps with
  | [] => Ok (work, out)
  | step :: steps =>
      match prediction reg model work with
      | Raise e => Raise e
      | Ok pred =>
          rollout_value reg model last_date steps
            (concat_row work (last_date + step) pred)
            (out ++ [mkPoint (isoformat (last_date + step)) pred])
      end
  end.

(** The extracted history of a division. *)
Definition hist_value (division : string) (df_all : DataFrame) : result DataFrame :=
  match get_col df_all "City" with
  | None => Raise (KeyError ["City"%string])
  | Some city =>
      Ok (Date_AQI (sort_by_Date
            (take_rows (mask_index (map (cell_eqb (Str division)) city)) df_all)))
  end.

(** The answer of the rollout for the history [hist]. *)
Definition forecast_value (reg : registry) (model : regressor) (division : string)
    (hist : DataFrame) : result response :=
  if empty hist then Raise (HTTPException 404 ("No data for " +:+ division))
  else match rollout_value reg model (Date_max hist) (map Z.of_nat (seq 1 7)) hist [] with
       | Ok acc => Ok (mkResponse division 7 (snd acc))
       | Raise e => Raise e
       end.

(** The columns of the table that [build_feats] returns for a series. *)
Definition feats_columns : list string := "Date"%string :: "AQI"%string :: feature_cols.

(** Every object of the store [s] is found unchanged in [s']. *)
Definition untouched (s s' : state) : Prop :=
  forall l df, heap s !! l = Some df -> heap s' !! l = Some df.

(** A sheet as [load_sheet_clean] returns it: the rows of one city. *)
Definition sheet_of (city : string) (rs : list obs) : DataFrame :=
  mkDF rs [("City"%string, replicate (length rs) (Str city))].

(** The columns that [df[names]] keeps. *)
Definition picked (df : DataFrame) (names : list string) : list (string * list cell) :=
  omap (fun n => pair n <$> get_col df n) names.

(** The value that a series has on day [t], if it has one. *)
Definition value_on (rs : list obs) (t : Z) : option float :=
  AQI <$> head (filter (fun r => Date r = t) rs).

(** The field [name] of the single row of [x]. *)
Definition x_field (x : X) (name : string) : option cell :=
  match assoc name (x_cols x) with
  | Some c => c !! 0%nat
  | None => None
  end.

(** A store that holds one frame and an empty cache. *)
Definition store_of (df : DataFrame) : state := mkState [df] None 0.

(** ** The training script

    [add_features] of [train_baseline.py] is [build_feats] with the number
    of lags as a parameter.  The script builds the feature table of every
    division, drops the rows with a missing value, skips a division with
    fewer than 120 complete rows and fits each model on
    [(cdf[feature_cols], cdf['AQI'])]: the label of a feature row is the AQI
    of that same row. *)

Definition add_features (g : DataFrame) (max_lag : nat) : DataFrame :=
  with_col "doy" (calendar_values dayofyear)
    (with_col "mon" (calendar_values month)
       (with_col "dow" (calendar_values dayofweek)
          (with_col "roll14" (roll_values 14)
             (with_col "roll7" (roll_values 7)
                (foldl add_lag (sort_by_Date g) (seq 1 max_lag)))))).

(** A column by name, empty when the frame has no such column. *)
Definition column (df : DataFrame) (name : string) : list cell :=
  default [] (get_col df name).

(** A derived column as [pd.concat] sees it: a frame without that column
    contributes the marker for each of its rows. *)
Definition col_or_nan (df : DataFrame) (name : string) : list cell :=
  default (replicate (length (rows df)) (Float NaN)) (assoc name (cols df)).

(** The derived columns of a concatenation, in the order of first appearance. *)
Definition union_keys (dfs : list DataFrame) : list string :=
  foldl (fun acc df => acc ++ filter (fun k => k ∉ acc) (map fst (cols df))) [] dfs.

(** [pd.concat(dfs, ignore_index=True)]. *)
Definition concat_frames (dfs : list DataFrame) : DataFrame :=
  mkDF (concat (map rows dfs))
       (map (fun k => (k, concat (map (fun df => col_or_nan df k) dfs))) (union_keys dfs)).

(** Row [i] has a value in every column of [subset]. *)
Definition row_notna (subset : list string) (df : DataFrame) (i : nat) : bool :=
  forallb (fun n => negb (cell_isna (column df n !!! i))) subset.

(** [df.dropna(subset=subset)]. *)
Definition dropna (subset : list string) (df : DataFrame) : result DataFrame :=
  match filter (fun n => get_col df n = None) subset with
  | [] => Ok (take_rows (mask_index (map (row_notna subset df) (seq 0 (length (rows df))))) df)
  | missing => Raise (KeyError missing)
  end.

(** [feat.columns], up to the place of [City], which the model keeps among
    the derived columns. *)
Definition columns (df : DataFrame) : list string :=
  "Date"%string :: "AQI"%string :: map fst (cols df).

(** Line 41: the feature names, read off the columns of the table. *)
Definition train_feature_cols (feat : DataFrame) : list string :=
  filter (fun c => String.prefix "lag_" c = true) (columns feat)
  ++ ["roll7"; "roll14"; "dow"; "mon"; "doy"]%string.

(** [df[df['City'] == d]], given the column [df['City']]. *)
Definition city_part (city : list cell) (d : string) (df : DataFrame) : DataFrame :=
  take_rows (mask_index (map (cell_eqb (Str d)) city)) df.

(** Lines 39 to 42, for the cleaned sheet [df]: the feature names and the
    table [feat] after [dropna]. *)
Definition training_table (df : DataFrame) : result (list string * DataFrame) :=
  match get_col df "City" with
  | None => Raise (KeyError ["City"%string])
  | Some city =>
      let parts := map (fun d => add_features (city_part city d df) 14) DIVS in
      let feat := concat_frames parts in
      let fc := train_feature_cols feat in
      match dropna (fc ++ ["AQI"%string]) feat with
      | Ok feat => Ok (fc, feat)
      | Raise e => Raise e
      end
  end.

(** One turn of the loop of lines 46 to 58, for the division [d]: [None]
    when the division is skipped, else the pair [(X, y)] that the model of
    [d] is fitted on. *)
Definition training_set (df : DataFrame) (d : string) : result (option (X * list float)) :=
  match training_table df with
  | Raise e => Raise e
  | Ok (fc, feat) =>
      match get_col feat "City" with
      | None => Raise (KeyError ["City"%string])
      | Some city =>
          let cdf := sort_by_Date (city_part city d feat) in
          if (length (rows cdf) <? 120)%nat then Ok None
          else match select (Some fc) cdf with
               | Ok x => Ok (Some (x, map AQI (rows cdf)))
               | Raise e => Raise e
               end
      end
  end.

(** The [i]-th training example of a set: a feature row and its label. *)
Definition training_pair (set : X * list float) (i : nat)
    : option (list (string * cell) * float) :=
  (fun y => (x_row (fst set) i, y)) <$> (snd set !! i).

(** The row that the first turn of the rollout on [hist] hands to the model:
    none when the row has a missing value and the turn takes the fallback. *)
Definition first_turn_row (reg : registry) (hist : DataFrame) : option (list (string * cell)) :=
  match features_of reg 0 (store_of hist) with
  | (Ok x, _) => if x_isna_any x then None else Some (x_row x 0)
  | (Raise _, _) => None
  end.

(** What a boolean mask keeps of a list. *)
Definition keep {A} (mask : list bool) (xs : list A) : list A :=
  map snd (filter (fun bx => fst bx = true) (zip mask xs)).

(** ** Worked inputs *)


Definition fin (z : Z) : float := Fin (Qc_of_Z z).

(** Twenty consecutive days from 2024-03-01 with the values 1 to 20. *)
Definition ramp : DataFrame :=
  mkDF (map (fun i => mkObs (19783 + Z.of_nat i) (fin (Z.of_nat (S i)))) (seq 0 20)) [].

(** A sheet with 140 consecutive days of Dhaka from 2024-03-01, with the
    values 1 to 140. *)
Definition long_ramp : DataFrame :=
  sheet_of "Dhaka"
    (map (fun i => mkObs (19783 + Z.of_nat i) (fin (Z.of_nat (S i)))) (seq 0 140)).

(** Three observations with a missing day between the last two. *)
Definition gap_series : DataFrame :=
  mkDF [mkObs 19783 (fin 10); mkObs 19784 (fin 20); mkObs 19786 (fin 30)] [].

(** A stub regressor: the sum of the fields [lag_1] and [roll7] of its row. *)
Definition float_add (x y : float) : float :=
  match x, y with
  | Fin p, Fin q => Fin (p + q)%Qc
  | _, _ => NaN
  end.

Definition float_of_cell (c : option cell) : float :=
  match c with
  | Some (Float x) => x
  | Some (Int n) => fin n
  | _ => NaN
  end.

Definition lag1_plus_roll7 : regressor :=
  fun row => float_add (float_of_cell (assoc "lag_1" row)) (float_of_cell (assoc "roll7" row)).

(** A registry with that stub for Dhaka and the schema of the training script. *)
Definition stub_registry : registry :=
  mkRegistry {[ "Dhaka"%string := lag1_plus_roll7 ]} (Some feature_cols).

(** Two model files whose stored schemas differ. *)
Definition two_files : gmap string pkl :=
  {[ model_path "Dhaka" := mkPkl lag1_plus_roll7 ["lag_1"; "roll7"]%string;
     model_path "Rangpur" := mkPkl (fun _ => fin 0) feature_cols ]}.

Definition two_registry : registry :=
  match load_models two_files with
  | Ok reg => reg
  | Raise _ => mkRegistry ∅ None
  end.

(** The value predicted by the first turn of the rollout on [hist], and the
    [lag_1] field of the row that the second turn hands to the model. *)
Definition first_turn_prediction (reg : registry) (model : regressor) (hist : DataFrame)
    : option float :=
  match rollout_step reg model (Date_max hist) 1 (0%nat, []) (store_of hist) with
  | (Ok (_, out), _) => predicted_aqi <$> head out
  | (Raise _, _) => None
  end.

Definition second_turn_lag_1 (reg : registry) (model : regressor) (hist : DataFrame)
    : option cell :=
  match rollout_step reg model (Date_max hist) 1 (0%nat, []) (store_of hist) with
  | (Ok (work, _), s) =>
      match features_of reg work s with
      | (Ok x, _) => x_field x "lag_1"
      | (Raise _, _) => None
      end
  | (Raise _, _) => None
  end.

(** The first prediction of a whole request. *)
Definition first_prediction (r : result response) : option float :=
  match r with
  | Ok resp => predicted_aqi <$> head (predictions resp)
  | Raise _ => None
  end.

(** Five observations. *)
Definition five : DataFrame :=
  mkDF [mkObs 19783 (fin 50); mkObs 19784 (fin 60); mkObs 19785 (fin 40);
        mkObs 19786 (fin 80); mkObs 19787 (fin 70)] [].

(** The reading of "the value observed [L] days before the reference date"
    for the last row of the table built from the series at [work]. *)
Definition lag_days_before (s : state) (work : loc) (L : nat) : Prop :=
  forall tmp s' v,
    build_feats work s = (Ok tmp, s') ->
    value_on (rows (heap s !!! work)) (Date_max (heap s !!! work) - Z.of_nat L) = Some v ->
    get_col (iloc_last (heap s' !!! tmp)) (lag_name L) = Some [Float v].


(** The rows of a sheet whose city is [d], in the order of the sheet. *)
Definition rows_of_city (d : string) (city : list cell) (rs : list obs) : list obs :=
  map snd (filter (fun cr => cell_eqb (Str d) (fst cr) = true) (zip city rs)).

(** The column names after an assignment to [k]. *)
Definition add_key (k : string) (keys : list string) : list string :=
  if existsb (String.eqb k) keys then keys else keys ++ [k].

(** Every derived column is as long as the frame has rows. *)
Definition rectangular (df : DataFrame) : Prop :=
  Forall (fun nc => length (snd nc) = length (rows df)) (cols df).

(** * Lemmas *)

Lemma float_eqb_eq x y : float_eqb x y = true <-> x = y.
Proof.
  destruct x as [p|], y as [q|]; simpl; split; try done.
  - intros H. f_equal. apply Qc_is_canon. by apply Qeq_bool_iff.
  - intros [= ->]. by apply Qeq_bool_iff.
Qed.

(** Closed equations between floats are settled by evaluation. *)
Ltac float_eval := apply float_eqb_eq; vm_compute; reflexivity.

Example calendar_2024_03_01 :
  civil_from_days 19783 = (2024, 3, 1) /\ dayofweek 19783 = 4 /\
  month 19783 = 3 /\ dayofyear 19783 = 61 /\ isoformat 19783 = "2024-03-01"%string.
Proof. vm_compute. done. Qed.

Example shift_rolling_small :
  shift 1 [Fin (Qc_of_Z 1); Fin (Qc_of_Z 2); Fin (Qc_of_Z 3)]
    = [NaN; Fin (Qc_of_Z 1); Fin (Qc_of_Z 2)] /\
  rolling_mean 2 [NaN; Fin (Qc_of_Z 1); Fin (Qc_of_Z 3)]
    = [NaN; NaN; Fin (Qc_of_Z 2)].
Proof.
  split; [reflexivity|].
  unfold rolling_mean; simpl. repeat f_equal. float_eval.
Qed.

(** ** The store: the last object, and objects below it *)

Section Store.
Implicit Types (h : list DataFrame) (df : DataFrame).

Lemma lookup_total_last h df : (h ++ [df]) !!! length h = df.
Proof. by apply list_lookup_total_middle. Qed.

Lemma insert_last h df df' : <[length h := df']> (h ++ [df]) = h ++ [df'].
Proof.
  rewrite <- (Nat.add_0_r (length h)). by rewrite insert_app_r.
Qed.

Lemma setitem_last h df d t name c :
  setitem (length h) name c (mkState (h ++ [df]) d t)
  = (Ok tt, mkState (h ++ [set_col name c df]) d t).
Proof.
  unfold setitem, bind, load, store; simpl.
  by rewrite lookup_total_last, insert_last.
Qed.

Lemma getitem_AQI_last h df d t :
  getitem_AQI (length h) (mkState (h ++ [df]) d t)
  = (Ok (map AQI (rows df)), mkState (h ++ [df]) d t).
Proof. unfold getitem_AQI, bind, load, ret; simpl. by rewrite lookup_total_last. Qed.

Lemma getitem_Date_last h df d t :
  getitem_Date (length h) (mkState (h ++ [df]) d t)
  = (Ok (map Date (rows df)), mkState (h ++ [df]) d t).
Proof. unfold getitem_Date, bind, load, ret; simpl. by rewrite lookup_total_last. Qed.

Lemma bind_ok {A B} (c : M A) (k : A -> M B) s a s' :
  c s = (Ok a, s') -> bind c k s = k a s'.
Proof. unfold bind. by intros ->. Qed.

Lemma bind_raise {A B} (c : M A) (k : A -> M B) s e s' :
  c s = (Raise e, s') -> bind c k s = (Raise e, s').
Proof. unfold bind. by intros ->. Qed.

Lemma copy_run l h d t :
  copy l (mkState h d t) = (Ok (length h), mkState (h ++ [h !!! l]) d t).
Proof. done. Qed.

Lemma sort_values_Date_run l h d t :
  sort_values_Date l (mkState h d t)
  = (Ok (length h), mkState (h ++ [sort_by_Date (h !!! l)]) d t).
Proof. done. Qed.

Lemma set_lag_last h df d t (L : nat) :
  (aqi <- getitem_AQI (length h) ;;
   setitem (length h) (lag_name L) (map Float (shift L aqi)))
    (mkState (h ++ [df]) d t)
  = (Ok tt, mkState (h ++ [add_lag df L]) d t).
Proof. erewrite bind_ok; [apply setitem_last|apply getitem_AQI_last]. Qed.

Lemma set_roll_last h df d t name (w : nat) :
  (aqi <- getitem_AQI (length h) ;;
   setitem (length h) name (map Float (rolling_mean w (shift 1 aqi))))
    (mkState (h ++ [df]) d t)
  = (Ok tt, mkState (h ++ [with_col name (roll_values w) df]) d t).
Proof. erewrite bind_ok; [apply setitem_last|apply getitem_AQI_last]. Qed.

Lemma set_calendar_last h df d t name (g : Z -> Z) :
  (ds <- getitem_Date (length h) ;;
   setitem (length h) name (map (fun t => Int (g t)) ds))
    (mkState (h ++ [df]) d t)
  = (Ok tt, mkState (h ++ [with_col name (calendar_values g) df]) d t).
Proof. erewrite bind_ok; [apply setitem_last|apply getitem_Date_last]. Qed.

Lemma lag_loop_last Ls h df d t :
  for_ Ls (fun L _ => aqi <- getitem_AQI (length h) ;;
                      setitem (length h) (lag_name L) (map Float (shift L aqi))) tt
       (mkState (h ++ [df]) d t)
  = (Ok tt, mkState (h ++ [foldl add_lag df Ls]) d t).
Proof.
  revert df. induction Ls as [|L Ls IH]; intros df; [done|].
  cbn [for_ foldl].
  erewrite bind_ok; [apply IH|]. apply set_lag_last.
Qed.

(** [build_feats] allocates a copy and a sorted copy, writes the derived
    columns into the latter and touches nothing else. *)
Lemma build_feats_run work s :
  build_feats work s
  = (Ok (S (length (heap s))),
     mkState (heap s ++ [heap s !!! work; build_feats_value (heap s !!! work)])
             (DATA_df s) (DATA_ts s)).
Proof.
  destruct s as [h d t]; cbn [heap DATA_df DATA_ts].
  set (w := h !!! work).
  unfold build_feats.
  erewrite bind_ok by apply copy_run.
  erewrite bind_ok by apply sort_values_Date_run.
  rewrite lookup_total_last. fold w.
  set (h1 := h ++ [w]).
  erewrite bind_ok by apply lag_loop_last.
  erewrite bind_ok by apply set_roll_last.
  erewrite bind_ok by apply set_roll_last.
  erewrite bind_ok by apply set_calendar_last.
  erewrite bind_ok by apply set_calendar_last.
  erewrite bind_ok by apply set_calendar_last.
  unfold ret, h1, build_feats_value.
  rewrite length_app, <- app_assoc. cbn [length app].
  rewrite Nat.add_1_r. reflexivity.
Qed.

Lemma lookup_total_below h ext (l : loc) :
  (l < length h)%nat -> (h ++ ext) !!! l = h !!! l.
Proof. intros. by apply lookup_total_app_l. Qed.

Lemma lookup_total_at h ext (i : nat) :
  (h ++ ext) !!! (length h + i)%nat = ext !!! i.
Proof. rewrite lookup_total_app_r by lia. f_equal. lia. Qed.

Section Turn.
Variable reg : registry.

(** One turn reads the working series, allocates the three frames of
    [build_feats] and [iloc], and on success the extended series. *)
Lemma features_of_run work s :
  features_of reg work s
  = (features_value reg (heap s !!! work),
     mkState (heap s ++ [heap s !!! work;
                         build_feats_value (heap s !!! work);
                         iloc_last (build_feats_value (heap s !!! work))])
             (DATA_df s) (DATA_ts s)).
Proof.
  unfold features_of.
  erewrite bind_ok by apply build_feats_run.
  destruct s as [h d t]; cbn [heap DATA_df DATA_ts].
  set (w := h !!! work). set (f := build_feats_value w).
  assert (Hf : (h ++ [w; f]) !!! S (length h) = f).
  { replace (S (length h)) with (length h + 1)%nat by lia.
    by rewrite lookup_total_at. }
  unfold bind at 1. unfold bind at 1. unfold load, alloc; cbn [heap DATA_df DATA_ts].
  rewrite Hf. unfold bind at 1; cbn [heap DATA_df DATA_ts].
  rewrite lookup_total_last.
  rewrite <- app_assoc; cbn [app].
  unfold features_value. fold w f.
  by destruct (select (FEATURES reg) (iloc_last f)).
Qed.

Lemma rollout_step_run model last_date step work out s :
  (work < length (heap s))%nat ->
  let w := heap s !!! work in
  let f := build_feats_value w in
  rollout_step reg model last_date step (work, out) s
  = match prediction reg model w with
    | Ok pred =>
        (Ok ((length (heap s) + 3)%nat,
             out ++ [mkPoint (isoformat (last_date + step)) pred]),
         mkState (heap s ++ [w; f; iloc_last f;
                             concat_row w (last_date + step) pred])
                 (DATA_df s) (DATA_ts s))
    | Raise e =>
        (Raise e, mkState (heap s ++ [w; f; iloc_last f]) (DATA_df s) (DATA_ts s))
    end.
Proof.
  intros Hwork w f. unfold rollout_step, prediction.
  unfold bind at 1. rewrite features_of_run. fold w f.
  destruct (features_value reg w) as [x|e]; [|done].
  destruct s as [h d t]; cbn [heap DATA_df DATA_ts] in *.
  assert (Hw : (h ++ [w; f; iloc_last f]) !!! work = w)
    by (by apply lookup_total_below).
  destruct (x_isna_any x).
  - unfold bind, getitem_AQI, bind, load, alloc, ret; cbn [heap DATA_df DATA_ts].
    rewrite Hw, length_app, <- app_assoc. done.
  - destruct (model_predict model x) as [|p ps]; [done|].
    unfold bind, load, alloc, ret; cbn [heap DATA_df DATA_ts].
    rewrite Hw, length_app, <- app_assoc. done.
Qed.

(** The loop: the store only grows, and the points are those of
    [rollout_value]. *)
Lemma rollout_run model last_date steps work out s :
  (work < length (heap s))%nat ->
  exists ext,
    snd (for_ steps (rollout_step reg model last_date) (work, out) s)
    = mkState (heap s ++ ext) (DATA_df s) (DATA_ts s) /\
    match fst (for_ steps (rollout_step reg model last_date) (work, out) s) with
    | Ok (work', out') =>
        (work' < length (heap s ++ ext))%nat /\
        rollout_value reg model last_date steps (heap s !!! work) out
        = Ok ((heap s ++ ext) !!! work', out')
    | Raise e =>
        rollout_value reg model last_date steps (heap s !!! work) out = Raise e
    end.
Proof.
  revert work out s.
  induction steps as [|step steps IH]; intros work out s Hwork.
  - exists []. rewrite app_nil_r. by destruct s.
  - cbn [for_ rollout_value]. unfold bind at 1 2.
    rewrite (rollout_step_run _ _ _ _ _ _ Hwork).
    destruct (prediction reg model (heap s !!! work)) as [pred|e] eqn:Hp.
    + set (w := heap s !!! work). set (f := build_feats_value w).
      set (w' := concat_row w (last_date + step) pred).
      set (s1 := mkState (heap s ++ [w; f; iloc_last f; w']) (DATA_df s) (DATA_ts s)).
      set (out1 := out ++ _).
      destruct (IH (length (heap s) + 3)%nat out1 s1) as (ext & Hs & Hr).
      { subst s1; cbn [heap]. rewrite length_app; simpl; lia. }
      exists ([w; f; iloc_last f; w'] ++ ext).
      rewrite Hs. subst s1; cbn [heap DATA_df DATA_ts] in *.
      rewrite <- !app_assoc in *. split; [done|].
      rewrite (lookup_total_at (heap s) _ 3) in Hr. exact Hr.
    + eexists. split; [reflexivity|]. done.
Qed.
End Turn.

Section Request.
Variable reg : registry.

Lemma forecast_run model division hist s :
  exists ext,
    forecast reg model division hist s
    = (forecast_value reg model division (heap s !!! hist),
       mkState (heap s ++ ext) (DATA_df s) (DATA_ts s)).
Proof.
  destruct s as [h0 d t]; cbn [heap DATA_df DATA_ts].
  unfold forecast, forecast_value.
  unfold bind at 1, load at 1; cbn [heap].
  set (h := h0 !!! hist).
  destruct (empty h) eqn:He.
  { exists []. by rewrite app_nil_r. }
  erewrite bind_ok by apply copy_run. fold h.
  set (s1 := mkState (h0 ++ [h]) d t).
  destruct (rollout_run reg model (Date_max h) (map Z.of_nat (seq 1 7))
              (length h0) [] s1) as (ext & Hs & Hr).
  { subst s1; cbn [heap]. rewrite length_app; simpl; lia. }
  exists ([h] ++ ext).
  unfold bind. destruct (for_ _ _ _ s1) as [[[work' out']|e] s2];
    cbn [fst snd] in *; subst s2 s1; cbn [heap DATA_df DATA_ts] in *;
    rewrite lookup_total_last in Hr; rewrite <- !app_assoc.
  - destruct Hr as [_ ->]. done.
  - rewrite Hr. done.
Qed.

Lemma extract_hist_run df_all division s :
  exists ext,
    extract_hist df_all division s
    = (match hist_value division (heap s !!! df_all) with
       | Ok _ => Ok (length (heap s) + 3)%nat
       | Raise e => Raise e
       end,
       mkState (heap s ++ ext) (DATA_df s) (DATA_ts s)) /\
    forall hist, hist_value division (heap s !!! df_all) = Ok hist ->
                 (heap s ++ ext) !!! (length (heap s) + 3)%nat = hist /\
                 length ext = 4%nat.
Proof.
  destruct s as [h d t]; cbn [heap DATA_df DATA_ts].
  unfold extract_hist, hist_value.
  unfold bind at 1, getitem at 1, bind at 1, load at 1; cbn [heap].
  destruct (get_col (h !!! df_all) "City") as [city|].
  2:{ exists []. rewrite app_nil_r. done. }
  unfold ret at 1.
  set (sel := take_rows _ (h !!! df_all)).
  exists [sel; sort_by_Date sel; Date_AQI (sort_by_Date sel);
          Date_AQI (sort_by_Date sel)].
  unfold bind, load, alloc, sort_values_Date, copy, bind, load, alloc;
    cbn [heap DATA_df DATA_ts fst snd].
  rewrite !lookup_total_last, <- !app_assoc. cbn [app].
  rewrite !length_app; cbn [length].
  replace (length h + 1 + 1 + 1)%nat with (length h + 3)%nat by lia.
  split; [done|]. intros hist [= <-].
  by rewrite lookup_total_at.
Qed.
End Request.
End Store.

(** ** Columns of the feature table *)

Section Columns.
Implicit Types (df : DataFrame) (name k : string).

Lemma assoc_set_assoc_eq {A} k (v : A) l : assoc k (set_assoc k v l) = Some v.
Proof.
  induction l as [|[k' v'] l IH]; simpl.
  - by rewrite String.eqb_refl.
  - destruct (String.eqb k k') eqn:E; simpl; rewrite ?String.eqb_refl, ?E; done.
Qed.

Lemma assoc_set_assoc_ne {A} name k (v : A) l :
  String.eqb name k = false -> assoc name (set_assoc k v l) = assoc name l.
Proof.
  intros Hne. induction l as [|[k' v'] l IH]; simpl.
  - by rewrite Hne.
  - destruct (String.eqb k k') eqn:E; simpl.
    + apply String.eqb_eq in E as <-. by rewrite Hne.
    + by rewrite IH.
Qed.

Lemma assoc_map_snd {A B} (g : A -> B) name (l : list (string * A)) :
  assoc name (map (fun nc => (fst nc, g (snd nc))) l) = g <$> assoc name l.
Proof.
  induction l as [|[k v] l IH]; simpl; [done|].
  by destruct (String.eqb name k).
Qed.

Lemma get_col_set_col_eq k c df :
  derived k = true -> get_col (set_col k c df) k = Some c.
Proof.
  unfold derived, get_col. intros [H1 H2]%andb_prop.
  apply negb_true_iff in H1, H2. rewrite H1, H2. apply assoc_set_assoc_eq.
Qed.

Lemma get_col_set_col_ne name k c df :
  String.eqb name k = false -> get_col (set_col k c df) name = get_col df name.
Proof.
  unfold get_col. intros Hne.
  destruct (String.eqb name "Date"); [done|].
  destruct (String.eqb name "AQI"); [done|].
  by apply assoc_set_assoc_ne.
Qed.

Lemma tail_map {A B} (g : A -> B) n (l : list A) : tail n (map g l) = map g (tail n l).
Proof. unfold tail. by rewrite length_map, skipn_map. Qed.

Lemma get_col_iloc_last df name :
  get_col (iloc_last df) name = tail 1 <$> get_col df name.
Proof.
  unfold get_col, iloc_last; cbn [rows cols].
  destruct (String.eqb name "Date"); [by rewrite <- tail_map|].
  destruct (String.eqb name "AQI"); [by rewrite <- tail_map|].
  apply assoc_map_snd.
Qed.

Lemma get_col_with_col_eq k f df :
  derived k = true -> get_col (with_col k f df) k = Some (f df).
Proof. apply get_col_set_col_eq. Qed.

Lemma get_col_with_col_ne name k f df :
  String.eqb name k = false -> get_col (with_col k f df) name = get_col df name.
Proof. apply get_col_set_col_ne. Qed.

Lemma rows_with_col k f df : rows (with_col k f df) = rows df.
Proof. done. Qed.

Lemma rows_add_lags df Ls : rows (foldl add_lag df Ls) = rows df.
Proof.
  revert df. induction Ls as [|L Ls IH]; intros df; [done|].
  cbn [foldl]. rewrite IH. apply rows_with_col.
Qed.

Lemma rows_build_feats_value df :
  rows (build_feats_value df) = rows (sort_by_Date df).
Proof. unfold build_feats_value. by rewrite !rows_with_col, rows_add_lags. Qed.

(** Looking a column up in the table goes through the assignments from
    the last one back. *)
Ltac find_col :=
  repeat first
    [ rewrite get_col_with_col_eq by reflexivity
    | rewrite get_col_with_col_ne by reflexivity ].

Lemma roll_col df (w : nat) name :
  (w = 7%nat /\ name = "roll7"%string) \/ (w = 14%nat /\ name = "roll14"%string) ->
  get_col (build_feats_value df) name
  = Some (map Float (rolling_mean w (shift 1 (map AQI (rows (sort_by_Date df)))))).
Proof.
  intros [[-> ->]|[-> ->]]; unfold build_feats_value; find_col;
    unfold roll_values; by rewrite ?rows_with_col, rows_add_lags.
Qed.

Lemma get_col_add_lags df Ls (L : nat) :
  L ∈ Ls -> derived (lag_name L) = true ->
  forallb (fun L' => implb (String.eqb (lag_name L) (lag_name L')) (L' =? L)%nat) Ls = true ->
  get_col (foldl add_lag df Ls) (lag_name L)
  = Some (map Float (shift L (map AQI (rows df)))).
Proof.
  intros Hin Hd. induction Ls as [|L' Ls IH] using rev_ind; [by apply elem_of_nil in Hin|].
  rewrite forallb_app, foldl_app. cbn [forallb foldl].
  intros [Hall [Himp _]%andb_prop]%andb_prop.
  unfold add_lag at 1. destruct (String.eqb (lag_name L) (lag_name L')) eqn:E.
  - apply Nat.eqb_eq in Himp as ->.
    rewrite get_col_with_col_eq by done. unfold lag_values. by rewrite rows_add_lags.
  - rewrite get_col_with_col_ne by done. apply IH; [|done].
    apply elem_of_app in Hin as [?|Hin]; [done|].
    apply list_elem_of_singleton in Hin as ->. by rewrite String.eqb_refl in E.
Qed.

Lemma lag_col df (L : nat) :
  (1 <= L <= 14)%nat ->
  get_col (build_feats_value df) (lag_name L)
  = Some (map Float (shift L (map AQI (rows (sort_by_Date df))))).
Proof.
  intros HL. unfold build_feats_value.
  assert (HLs : L ∈ seq 1 14) by (apply elem_of_seq; lia).
  assert (Hcase : L ∈ seq 1 14) by done. cbn [seq] in Hcase.
  repeat (apply elem_of_cons in Hcase as [->|Hcase];
          [find_col; by apply get_col_add_lags|]).
  by apply elem_of_nil in Hcase.
Qed.

Lemma calendar_col df name (g : Z -> Z) :
  (name = "dow"%string /\ g = dayofweek) \/ (name = "mon"%string /\ g = month)
  \/ (name = "doy"%string /\ g = dayofyear) ->
  get_col (build_feats_value df) name
  = Some (map (fun t => Int (g t)) (map Date (rows (sort_by_Date df)))).
Proof.
  intros [[-> ->]|[[-> ->]|[-> ->]]]; unfold build_feats_value; find_col;
    unfold calendar_values; by rewrite ?rows_with_col, rows_add_lags.
Qed.
End Columns.

(** ** The last row of a shifted or rolled column *)

Section LastRow.
Implicit Types (xs vs : list float) (qs : list Qc).

Lemma tail_last {A} (l : list A) x : tail 1 (l ++ [x]) = [x].
Proof.
  unfold tail. rewrite length_app; simpl.
  replace (length l + 1 - 1)%nat with (length l) by lia.
  by rewrite drop_app_length.
Qed.

Lemma tail_all {A} n (l : list A) : (length l <= n)%nat -> tail n l = l.
Proof. intros H. unfold tail. by replace (length l - n)%nat with 0%nat by lia. Qed.

Lemma tail_cons {A} n (x : A) (l : list A) :
  (n <= length l)%nat -> tail n (x :: l) = tail n l.
Proof.
  intros H. unfold tail; simpl.
  by replace (S (length l) - n)%nat with (S (length l - n)) by lia.
Qed.

Lemma length_tail {A} n (l : list A) : (n <= length l)%nat -> length (tail n l) = n.
Proof. intros H. unfold tail. rewrite length_drop. lia. Qed.

Lemma finite_Fin qs : finite (map Fin qs) = qs.
Proof. induction qs as [|q qs IH]; simpl; congruence. Qed.

Lemma length_finite xs : (length (finite xs) <= length xs)%nat.
Proof. induction xs as [|[q|] xs IH]; simpl; lia. Qed.

Lemma mean_Fin qs :
  qs <> [] -> mean (map Fin qs) = Fin (Qc_sum qs / Qc_of_nat (length qs))%Qc.
Proof. unfold mean. rewrite finite_Fin. by destruct qs. Qed.

Lemma length_shift L xs : length (shift L xs) = length xs.
Proof. unfold shift. rewrite length_take, length_app, length_replicate. lia. Qed.

Lemma shift_1 vs v : shift 1 (vs ++ [v]) = NaN :: vs.
Proof.
  unfold shift. rewrite length_app; simpl.
  replace (length vs + 1)%nat with (S (length vs)) by lia.
  simpl. by rewrite take_app_length.
Qed.

(** The last row of [shift(L)] is the value [L] rows up, or the marker. *)
Lemma shift_last L vs v :
  (1 <= L)%nat ->
  tail 1 (shift L (vs ++ [v]))
  = [if decide (L <= length vs)%nat then vs !!! (length vs - L)%nat else NaN].
Proof.
  intros HL.
  assert (Hlen : length (shift L (vs ++ [v])) = S (length vs))
    by (rewrite length_shift, length_app; simpl; lia).
  assert (Hx : shift L (vs ++ [v]) !! length vs
               = Some (if decide (L <= length vs)%nat
                       then vs !!! (length vs - L)%nat else NaN)).
  { unfold shift. rewrite lookup_take_lt by (rewrite length_app; simpl; lia).
    case_decide as Hd.
    - rewrite lookup_app_r by (rewrite length_replicate; lia).
      rewrite length_replicate, lookup_app_l by lia.
      apply list_lookup_lookup_total_lt. lia.
    - rewrite lookup_app_l by (rewrite length_replicate; lia).
      apply lookup_replicate_2. lia. }
  unfold tail. rewrite Hlen. replace (S (length vs) - 1)%nat with (length vs) by lia.
  erewrite drop_S by exact Hx. by rewrite drop_ge by lia.
Qed.

Lemma rolling_last w xs x :
  tail 1 (rolling_mean w (xs ++ [x])) = [window_mean w (tail w (xs ++ [x]))].
Proof.
  unfold rolling_mean. rewrite length_app; simpl.
  rewrite seq_app, map_app; simpl. rewrite tail_last.
  by rewrite take_ge by (rewrite length_app; simpl; lia).
Qed.

(** [shift(1).rolling(w).mean()] on the last row: the window is full only
    when [w] values precede the last one. *)
Lemma roll_last_short w vs v :
  (length vs < w)%nat ->
  tail 1 (rolling_mean w (shift 1 (vs ++ [v]))) = [NaN].
Proof.
  intros Hw. rewrite shift_1.
  destruct vs as [|v' vs' _] using rev_ind.
  - change [NaN] with ([] ++ [NaN]) at 1. rewrite rolling_last; simpl.
    unfold window_mean; simpl. by destruct w; [lia|].
  - rewrite app_comm_cons, rolling_last, <- app_comm_cons.
    unfold window_mean.
    assert (length (finite (tail w (NaN :: vs' ++ [v']))) < w)%nat as ->%Nat.ltb_lt; [|done].
    rewrite tail_all by (simpl; lia). simpl.
    eapply Nat.le_lt_trans; [apply length_finite|done].
Qed.

Lemma roll_last_full w qs v :
  (1 <= w <= length qs)%nat ->
  tail 1 (rolling_mean w (shift 1 (map Fin qs ++ [v])))
  = [Fin (Qc_sum (tail w qs) / Qc_of_nat w)%Qc].
Proof.
  intros Hw. rewrite shift_1.
  destruct qs as [|q' qs' _] using rev_ind; [simpl in Hw; lia|].
  rewrite map_app; cbn [map]. rewrite app_comm_cons, rolling_last.
  replace ((NaN :: map Fin qs') ++ [Fin q']) with (NaN :: map Fin (qs' ++ [q']))
    by (by rewrite map_app).
  assert (Hlen : (w <= length (qs' ++ [q']))%nat) by lia.
  rewrite tail_cons by (rewrite length_map; lia).
  rewrite tail_map. unfold window_mean. rewrite finite_Fin.
  rewrite length_tail by lia.
  assert ((w <? w)%nat = false) as -> by (apply Nat.ltb_ge; lia).
  rewrite mean_Fin.
  - by rewrite length_tail by lia.
  - intros E%(f_equal length). rewrite length_tail in E by lia. simpl in E; lia.
Qed.
End LastRow.

(** ** Sorting a series that is already in date order *)

Section Sorting.
Lemma isort_sorted (keys : list Z) (idx : list nat) :
  Sorted Z.le keys -> isort key_le (zip keys idx) = zip keys idx.
Proof.
  intros Hs. revert idx. induction Hs as [|k ks Hs IH Hhd]; intros idx; [done|].
  destruct idx as [|i idx]; [done|]. cbn [zip zip_with isort].
  change (zip_with pair ks idx) with (zip ks idx). rewrite IH.
  destruct Hhd as [|k' ks' Hle]; [done|].
  destruct idx as [|i' idx]; [done|]. cbn [zip zip_with insert_by].
  unfold key_le; cbn [fst]. by apply Z.leb_le in Hle as ->.
Qed.

Lemma argsort_sorted (keys : list Z) :
  Sorted Z.le keys -> argsort keys = seq 0 (length keys).
Proof.
  intros Hs. unfold argsort. rewrite isort_sorted by done.
  change (map snd ?l) with (snd <$> l). apply snd_zip. by rewrite length_seq.
Qed.

Lemma pick_seq {A} (xs : list A) : pick (seq 0 (length xs)) xs = xs.
Proof.
  unfold pick. induction xs as [|x xs IH] using rev_ind; [done|].
  rewrite length_app; simpl. rewrite seq_app; simpl.
  rewrite omap_app; simpl. rewrite list_lookup_middle by done; simpl.
  f_equal. rewrite <- IH at 2. apply list_omap_ext, Forall2_same_length_lookup.
  split; [done|]. intros i j k Hj Hk.
  assert (j = k) as -> by congruence.
  apply lookup_seq in Hk as [-> Hlt]. by rewrite lookup_app_l by lia.
Qed.

Lemma rows_sort_by_Date_sorted (df : DataFrame) :
  Sorted Z.le (map Date (rows df)) -> rows (sort_by_Date df) = rows df.
Proof.
  intros Hs. unfold sort_by_Date, take_rows; cbn [rows].
  rewrite argsort_sorted, length_map by done. apply pick_seq.
Qed.

Lemma Sorted_lt_le (keys : list Z) : Sorted Z.lt keys -> Sorted Z.le keys.
Proof.
  induction 1 as [|k ks Hs IH Hhd]; constructor; [done|].
  destruct Hhd; constructor. lia.
Qed.
Lemma insert_by_Permutation {A} (le : A -> A -> bool) x l : insert_by le x l ≡ₚ x :: l.
Proof.
  induction l as [|y l IH]; [done|]. cbn [insert_by].
  destruct (le x y); [done|]. rewrite IH. apply Permutation_swap.
Qed.

Lemma isort_Permutation {A} (le : A -> A -> bool) l : isort le l ≡ₚ l.
Proof.
  induction l as [|x l IH]; [done|]. cbn [isort].
  by rewrite insert_by_Permutation, IH.
Qed.

Lemma argsort_Permutation (keys : list Z) : argsort keys ≡ₚ seq 0 (length keys).
Proof.
  unfold argsort. change (map snd ?l) with (snd <$> l).
  rewrite isort_Permutation. by rewrite snd_zip by (by rewrite length_seq).
Qed.

Lemma length_pick {A} (idx : list nat) (xs : list A) :
  Forall (fun i => (i < length xs)%nat) idx -> length (pick idx xs) = length idx.
Proof.
  unfold pick. induction 1 as [|i idx Hi _ IH]; [done|].
  cbn [omap list_omap]. destruct (lookup_lt_is_Some_2 xs i Hi) as [x ->].
  cbn [length]. by rewrite IH.
Qed.

Lemma length_rows_sort_by_Date (df : DataFrame) :
  length (rows (sort_by_Date df)) = length (rows df).
Proof.
  unfold sort_by_Date, take_rows; cbn [rows].
  rewrite length_pick.
  - by rewrite argsort_Permutation, length_seq, length_map.
  - rewrite argsort_Permutation, length_map. apply Forall_forall.
    intros i Hi%elem_of_seq. lia.
Qed.
End Sorting.

(** ** Selecting the schema's columns *)

Section Select.
Implicit Types (df : DataFrame) (names : list string).

Lemma select_Some df names :
  select (Some names) df
  = match filter (fun n => get_col df n = None) names with
    | [] => Ok (mkX (length (rows df)) (picked df names))
    | missing => Raise (KeyError missing)
    end.
Proof. done. Qed.

Lemma select_ok df names :
  Forall (fun n => is_Some (get_col df n)) names ->
  select (Some names) df = Ok (mkX (length (rows df)) (picked df names)).
Proof.
  intros Hall. rewrite select_Some.
  assert (filter (fun n => get_col df n = None) names = []) as ->; [|done].
  induction Hall as [|n ns [c Hc] _ IH]; [done|].
  rewrite filter_cons. case_decide; [congruence|done].
Qed.

Lemma select_inv df names x :
  select (Some names) df = Ok x ->
  Forall (fun n => is_Some (get_col df n)) names /\
  x = mkX (length (rows df)) (picked df names).
Proof.
  rewrite select_Some.
  destruct (filter _ names) as [|m ms] eqn:Hf; [|done]. intros [= <-].
  split; [|done]. apply Forall_forall. intros n Hn.
  destruct (get_col df n) eqn:Hc; [done|].
  assert (n ∈ filter (fun n => get_col df n = None) names)
    by (by apply list_elem_of_filter).
  rewrite Hf in *. by apply elem_of_nil in H.
Qed.

Lemma picked_cons df n ns c :
  get_col df n = Some c -> picked df (n :: ns) = (n, c) :: picked df ns.
Proof. intros Hc. unfold picked. cbn [omap list_omap]. by rewrite Hc. Qed.

Lemma picked_names df names :
  Forall (fun n => is_Some (get_col df n)) names ->
  map fst (picked df names) = names.
Proof.
  induction 1 as [|n ns [c Hc] _ IH]; [done|].
  rewrite (picked_cons _ _ _ _ Hc). cbn [map fst]. by rewrite IH.
Qed.

Lemma picked_assoc df names name :
  Forall (fun n => is_Some (get_col df n)) names ->
  name ∈ names -> assoc name (picked df names) = get_col df name.
Proof.
  induction 1 as [|n ns [c Hc] _ IH]; intros Hin; [by apply elem_of_nil in Hin|].
  rewrite (picked_cons _ _ _ _ Hc). cbn [assoc].
  destruct (String.eqb name n) eqn:E.
  - apply String.eqb_eq in E as ->. done.
  - apply IH. apply elem_of_cons in Hin as [->|]; [|done].
    by rewrite String.eqb_refl in E.
Qed.

Lemma picked_elem df names name c :
  name ∈ names -> get_col df name = Some c -> (name, c) ∈ picked df names.
Proof.
  intros Hin Hc. unfold picked. apply list_elem_of_omap.
  exists name. by rewrite Hc.
Qed.

Lemma x_isna_any_true x name c :
  (name, c) ∈ x_cols x -> existsb cell_isna c = true -> x_isna_any x = true.
Proof.
  intros Hin Hc. unfold x_isna_any. apply existsb_exists.
  exists (name, c). split; [by apply list_elem_of_In|done].
Qed.
End Select.

(** * The feature builder *)

(** C5: the [roll7] field of the last row of the feature table is the mean of
    the 7 values that precede the last entry of the series in date order,
    and the missing-value marker when fewer than 7 values precede it; the
    same holds for [roll14] with 14 values. *)
Theorem roll_fields_of_last_row (s : state) (work : loc) (vs : list float) (v : float) :
  map AQI (rows (sort_by_Date (heap s !!! work))) = vs ++ [v] ->
  exists tmp s',
    build_feats work s = (Ok tmp, s') /\
    forall w name,
      (w = 7%nat /\ name = "roll7"%string) \/ (w = 14%nat /\ name = "roll14"%string) ->
      ((length vs < w)%nat ->
       get_col (iloc_last (heap s' !!! tmp)) name = Some [Float NaN]) /\
      (forall qs, vs = map Fin qs -> (w <= length qs)%nat ->
       get_col (iloc_last (heap s' !!! tmp)) name
       = Some [Float (Fin (Qc_sum (tail w qs) / Qc_of_nat w)%Qc)]).
Proof.
  intros Hvs. eexists _, _. split; [apply build_feats_run|].
  cbn [heap]. replace (S (length (heap s))) with (length (heap s) + 1)%nat by lia.
  rewrite lookup_total_at. cbn.
  intros w name Hw. rewrite get_col_iloc_last, (roll_col _ w name Hw), Hvs.
  cbn [fmap option_fmap option_map]. rewrite tail_map.
  split.
  - intros Hlen. by rewrite roll_last_short.
  - intros qs -> Hlen. rewrite roll_last_full; [done|].
    destruct Hw as [[-> _]|[-> _]]; lia.
Qed.

Lemma roll_fields_of_last_row_witness :
  exists tmp s',
    build_feats 0 (store_of ramp) = (Ok tmp, s') /\
    forall w name,
      (w = 7%nat /\ name = "roll7"%string) \/ (w = 14%nat /\ name = "roll14"%string) ->
      ((length (map fin (map Z.of_nat (seq 1 19))) < w)%nat ->
       get_col (iloc_last (heap s' !!! tmp)) name = Some [Float NaN]) /\
      (forall qs, map fin (map Z.of_nat (seq 1 19)) = map Fin qs -> (w <= length qs)%nat ->
       get_col (iloc_last (heap s' !!! tmp)) name
       = Some [Float (Fin (Qc_sum (tail w qs) / Qc_of_nat w)%Qc)]).
Proof.
  apply (roll_fields_of_last_row (store_of ramp) 0
           (map fin (map Z.of_nat (seq 1 19))) (fin 20)).
  reflexivity.
Defined.

Lemma value_on_consecutive (rs : list obs) (d0 : Z) (k : nat) (r : obs) :
  (forall i r, rs !! i = Some r -> Date r = d0 + Z.of_nat i) ->
  rs !! k = Some r -> value_on rs (d0 + Z.of_nat k) = Some (AQI r).
Proof.
  unfold value_on. revert d0 k. induction rs as [|r0 rs IH]; intros d0 k Hcons Hk; [done|].
  pose proof (Hcons 0%nat r0 eq_refl) as H0. rewrite filter_cons.
  destruct k as [|k]; simpl in Hk.
  - injection Hk as ->. rewrite decide_True by lia. done.
  - rewrite decide_False by lia.
    specialize (IH (d0 + 1) k). replace (d0 + Z.of_nat (S k)) with (d0 + 1 + Z.of_nat k) by lia.
    apply IH; [|done]. intros i r' Hi. rewrite (Hcons (S i) r' Hi). lia.
Qed.

(** C6 as stated fails: with a missing day, the value found two rows up is
    not the value observed two days before. *)
Lemma lag_days_before_fails :
  Sorted Z.lt (map Date (rows gap_series)) /\ ~ lag_days_before (store_of gap_series) 0 2.
Proof.
  split; [repeat constructor|].
  intros H. specialize (H _ _ (fin 20) (build_feats_run _ _) eq_refl).
  vm_compute in H. discriminate H.
Qed.

(** C6, amended: for a series in strictly increasing date order, the [lag_L]
    field of the last row is the value [L] rows above the last entry, whatever
    the number of days between them, and the missing-value marker when fewer
    than [L] observations precede it; when the dates are consecutive days,
    that row is the observation made [L] days before. *)
Theorem lag_field_of_last_row (s : state) (work : loc) (L : nat)
    (rs : list obs) (r : obs) :
  rows (heap s !!! work) = rs ++ [r] ->
  Sorted Z.lt (map Date (rs ++ [r])) ->
  (1 <= L <= 14)%nat ->
  exists tmp s',
    build_feats work s = (Ok tmp, s') /\
    get_col (iloc_last (heap s' !!! tmp)) (lag_name L)
    = Some [Float (if decide (L <= length rs)%nat
                   then map AQI rs !!! (length rs - L)%nat else NaN)] /\
    ((L <= length rs)%nat ->
     (forall i r', (rs ++ [r]) !! i = Some r' ->
                   Date r' = Date r - Z.of_nat (length rs) + Z.of_nat i) ->
     value_on (rs ++ [r]) (Date r - Z.of_nat L)
     = Some (map AQI rs !!! (length rs - L)%nat)).
Proof.
  intros Hrows Hsorted HL. eexists _, _. split; [apply build_feats_run|].
  cbn [heap]. replace (S (length (heap s))) with (length (heap s) + 1)%nat by lia.
  rewrite lookup_total_at. cbn [lookup_total list_lookup_total].
  split.
  - rewrite get_col_iloc_last, lag_col by done.
    rewrite rows_sort_by_Date_sorted
      by (rewrite Hrows; by apply Sorted_lt_le).
    rewrite Hrows, map_app. cbn [map fmap option_fmap option_map].
    rewrite tail_map, shift_last, length_map by lia. done.
  - intros Hlen Hcons.
    assert (Hlt : (length rs - L < length rs)%nat) by lia.
    destruct (lookup_lt_is_Some_2 rs _ Hlt) as [r' Hr'].
    replace (Date r - Z.of_nat L)
      with (Date r - Z.of_nat (length rs) + Z.of_nat (length rs - L)) by lia.
    erewrite value_on_consecutive; [|exact Hcons|by apply lookup_app_l_Some].
    f_equal. symmetry. apply list_lookup_total_correct.
    change (map AQI rs) with (AQI <$> rs). by rewrite list_lookup_fmap, Hr'.
Qed.

Lemma lag_field_of_last_row_witness :
  exists tmp s',
    build_feats 0 (store_of gap_series) = (Ok tmp, s') /\
    get_col (iloc_last (heap s' !!! tmp)) (lag_name 2) = Some [Float (fin 10)].
Proof.
  destruct (lag_field_of_last_row (store_of gap_series) 0 2
              [mkObs 19783 (fin 10); mkObs 19784 (fin 20)] (mkObs 19786 (fin 30)))
    as (tmp & s' & Hrun & Hlag & _).
  - reflexivity.
  - repeat constructor.
  - lia.
  - exists tmp, s'. split; [exact Hrun|exact Hlag].
Defined.

(** * The rollout *)

Section RolloutValue.
Variables (reg : registry) (model : regressor) (names : list string).
Hypothesis Hschema : FEATURES reg = Some names.
Hypothesis Hnames : Forall (fun n => n ∈ feats_columns) names.

Lemma feats_has_col df n : n ∈ feats_columns -> is_Some (get_col (build_feats_value df) n).
Proof.
  unfold feats_columns, feature_cols. rewrite !elem_of_cons, elem_of_app.
  intros [->|[->|[H|H]]]; [done|done| |].
  - apply list_elem_of_In, in_map_iff in H as (L & <- & HL%list_elem_of_In%elem_of_seq).
    rewrite lag_col by lia. done.
  - repeat (apply elem_of_cons in H as [->|H]).
    + by erewrite roll_col by (left; done).
    + by erewrite roll_col by (right; done).
    + by erewrite calendar_col by (left; done).
    + by erewrite calendar_col by (right; left; done).
    + by erewrite calendar_col by (right; right; done).
    + by apply elem_of_nil in H.
Qed.

Lemma schema_available df :
  Forall (fun n => is_Some (get_col (iloc_last (build_feats_value df)) n)) names.
Proof.
  eapply Forall_impl; [exact Hnames|]. intros n Hn; cbn beta.
  rewrite get_col_iloc_last. destruct (feats_has_col df n Hn) as [c ->]. done.
Qed.

Lemma features_value_ok w :
  features_value reg w
  = Ok (mkX (length (tail 1 (rows (sort_by_Date w))))
            (picked (iloc_last (build_feats_value w)) names)).
Proof.
  unfold features_value. rewrite Hschema, select_ok by apply schema_available.
  unfold iloc_last at 1; cbn [rows]. by rewrite rows_build_feats_value.
Qed.

Lemma length_tail_1 {A} (l : list A) : l <> [] -> length (tail 1 l) = 1%nat.
Proof.
  intros Hl. apply length_tail. destruct l; [done|simpl; lia].
Qed.

Lemma prediction_ok w : rows w <> [] -> exists p, prediction reg model w = Ok p.
Proof.
  intros Hw. unfold prediction. rewrite features_value_ok.
  destruct (x_isna_any _); [by eexists|].
  unfold model_predict; cbn [x_len]. rewrite length_tail_1.
  - cbn [seq map]. by eexists.
  - intros E%(f_equal length). rewrite length_rows_sort_by_Date in E.
    by destruct (rows w).
Qed.

Lemma rollout_value_ok last_date steps w out :
  rows w <> [] ->
  exists w' out',
    rollout_value reg model last_date steps w out = Ok (w', out') /\
    map date out' = map date out ++ map (fun k => isoformat (last_date + k)) steps.
Proof.
  revert w out. induction steps as [|step steps IH]; intros w out Hw.
  - exists w, out. by rewrite app_nil_r.
  - cbn [rollout_value]. destruct (prediction_ok w Hw) as [p ->].
    destruct (IH (concat_row w (last_date + step) p)
                 (out ++ [mkPoint (isoformat (last_date + step)) p])) as (w' & out' & -> & Hd).
    { unfold concat_row; cbn [rows]. by destruct (rows w). }
    exists w', out'. split; [done|].
    rewrite Hd, map_app. cbn [map date]. by rewrite <- app_assoc.
Qed.
End RolloutValue.



(** ** The fallback *)

Lemma lag_missing (w : DataFrame) (L : nat) :
  (1 <= L <= 14)%nat -> rows w <> [] -> (length (rows w) <= L)%nat ->
  get_col (iloc_last (build_feats_value w)) (lag_name L) = Some [Float NaN].
Proof.
  intros HL Hw Hlen. rewrite get_col_iloc_last, lag_col by done.
  cbn [fmap option_fmap option_map]. rewrite tail_map.
  assert (Hn : length (map AQI (rows (sort_by_Date w))) = length (rows w))
    by (by rewrite length_map, length_rows_sort_by_Date).
  destruct (map AQI (rows (sort_by_Date w))) as [|v vs _] using rev_ind.
  { destruct (rows w); [done|simpl in Hn; lia]. }
  rewrite length_app in Hn; simpl in Hn.
  rewrite shift_last by lia. by rewrite decide_False by lia.
Qed.

Lemma short_series_falls_back (reg : registry) (w : DataFrame) :
  FEATURES reg = Some feature_cols -> rows w <> [] -> (length (rows w) <= 14)%nat ->
  exists x, features_value reg w = Ok x /\ x_isna_any x = true.
Proof.
  intros Hschema Hw Hlen.
  assert (Hnames : Forall (fun n => n ∈ feats_columns) feature_cols).
  { apply Forall_forall. intros n Hn. unfold feats_columns. rewrite !elem_of_cons. auto. }
  eexists. split; [by apply features_value_ok|].
  apply (x_isna_any_true _ (lag_name 14) [Float NaN]); [|reflexivity].
  cbn [x_cols]. apply picked_elem; [|by apply lag_missing; try lia].
  apply (bool_decide_unpack _). vm_compute. reflexivity.
Qed.




(** * The request *)

Section Predict.
Variables (reg : registry) (CACHE_SECS now : Z) (sheet : result DataFrame).

Lemma untouched_app s s' ext : heap s' = heap s ++ ext -> untouched s s'.
Proof. intros E l df Hl. rewrite E. by apply lookup_app_l_Some. Qed.

Lemma untouched_trans s1 s2 s3 : untouched s1 s2 -> untouched s2 s3 -> untouched s1 s3.
Proof. intros H12 H23 l df Hl. by apply H23, H12. Qed.

Lemma load_sheet_clean_run s :
  load_sheet_clean sheet s
  = match sheet with
    | Ok df => (Ok (length (heap s)), mkState (heap s ++ [df]) (DATA_df s) (DATA_ts s))
    | Raise e => (Raise e, s)
    end.
Proof. unfold load_sheet_clean. by destruct sheet. Qed.

Lemma get_data_cached_untouched s :
  untouched s (snd (get_data_cached CACHE_SECS now sheet s)).
Proof.
  unfold get_data_cached.
  destruct (DATA_df s) as [l|]; [destruct (CACHE_SECS <? now - DATA_ts s)|];
    try (intros ?; done);
    unfold bind; rewrite load_sheet_clean_run; destruct sheet;
    cbn [snd heap]; try (intros ?; done); by eapply untouched_app.
Qed.

Lemma extract_hist_untouched df_all division s :
  untouched s (snd (extract_hist df_all division s)) /\
  DATA_df (snd (extract_hist df_all division s)) = DATA_df s /\
  DATA_ts (snd (extract_hist df_all division s)) = DATA_ts s.
Proof.
  destruct (extract_hist_run df_all division s) as (ext & -> & _).
  cbn [snd]. split; [by eapply untouched_app|done].
Qed.

Lemma forecast_untouched model division hist s :
  untouched s (snd (forecast reg model division hist s)) /\
  DATA_df (snd (forecast reg model division hist s)) = DATA_df s /\
  DATA_ts (snd (forecast reg model division hist s)) = DATA_ts s.
Proof.
  destruct (forecast_run reg model division hist s) as (ext & ->).
  cbn [snd]. split; [by eapply untouched_app|done].
Qed.

Lemma predict_reaches division model s :
  strip division ∈ DIVS -> MODELS reg !! strip division = Some model ->
  predict reg CACHE_SECS now sheet division s
  = (df_all <- get_data_cached CACHE_SECS now sheet ;;
     hist <- extract_hist df_all (strip division) ;;
     forecast reg model (strip division) hist) s.
Proof.
  intros Hdiv Hmodel. unfold predict. cbv zeta.
  by rewrite (bool_decide_eq_true_2 _ Hdiv), Hmodel.
Qed.

Lemma predict_after_cache division model s :
  strip division ∈ DIVS -> MODELS reg !! strip division = Some model ->
  let s1 := snd (get_data_cached CACHE_SECS now sheet s) in
  let s' := snd (predict reg CACHE_SECS now sheet division s) in
  untouched s1 s' /\ DATA_df s' = DATA_df s1 /\ DATA_ts s' = DATA_ts s1.
Proof.
  intros Hdiv Hmodel. cbv zeta. rewrite (predict_reaches _ _ _ Hdiv Hmodel).
  unfold bind.
  destruct (get_data_cached CACHE_SECS now sheet s) as [[df_all|e] s1]; cbn [snd];
    [|split; [by intros ? ?|by split]].
  pose proof (extract_hist_untouched df_all (strip division) s1) as (U1 & D1 & T1).
  destruct (extract_hist df_all (strip division) s1) as [[hist|e] s2]; cbn [snd] in *;
    [|done].
  pose proof (forecast_untouched model (strip division) hist s2) as (U2 & D2 & T2).
  split; [by eapply untouched_trans|]. split; congruence.
Qed.
Lemma get_data_cached_ok s df_all s1 :
  get_data_cached CACHE_SECS now sheet s = (Ok df_all, s1) ->
  DATA_df s1 = Some df_all /\
  ((forall l, DATA_df s = Some l -> is_Some (heap s !! l)) -> is_Some (heap s1 !! df_all)).
Proof.
  unfold get_data_cached.
  assert (Hmiss : forall r,
    (l <- load_sheet_clean sheet ;;
     fun s => (Ok l, mkState (heap s) (Some l) now)) s = (Ok df_all, r) ->
    DATA_df r = Some df_all /\ is_Some (heap r !! df_all)).
  { intros r. unfold bind. rewrite load_sheet_clean_run.
    destruct sheet as [df|e]; [|done]. intros [= <- <-]; cbn [DATA_df heap].
    split; [done|]. by rewrite list_lookup_middle. }
  destruct (DATA_df s) as [l|] eqn:Hl; [destruct (CACHE_SECS <? now - DATA_ts s)|].
  - intros [? ?]%Hmiss. done.
  - intros [= <- <-]. split; [done|]. intros Hwf. by apply Hwf.
  - intros [? ?]%Hmiss. done.
Qed.

Lemma extract_hist_ok df_all division s hist s2 :
  extract_hist df_all division s = (Ok hist, s2) -> is_Some (heap s2 !! hist).
Proof.
  destruct (extract_hist_run df_all division s) as (ext & -> & Hext).
  destruct (hist_value division (heap s !!! df_all)) as [h|e]; [|done].
  destruct (Hext h eq_refl) as [_ Hlen]. intros [= <- <-]; cbn [heap].
  apply lookup_lt_is_Some_2. rewrite length_app. lia.
Qed.
End Predict.

(** C8: a request leaves every frame that existed before it as it was; after
    the cache has answered, neither the cached sheet nor the cache entry
    changes any more, and the extracted history is found unchanged when the
    request returns: the rollout only writes to frames it has allocated. *)
Theorem store_not_mutated (reg : registry) (CACHE_SECS now : Z) (sheet : result DataFrame)
    (division : string) (model : regressor) (s s1 s2 : state) (df_all hist : loc) :
  strip division ∈ DIVS ->
  MODELS reg !! strip division = Some model ->
  get_data_cached CACHE_SECS now sheet s = (Ok df_all, s1) ->
  extract_hist df_all (strip division) s1 = (Ok hist, s2) ->
  let s' := snd (predict reg CACHE_SECS now sheet division s) in
  untouched s s' /\ untouched s1 s' /\ untouched s2 s' /\
  heap s' !! hist = heap s2 !! hist /\ is_Some (heap s2 !! hist) /\
  DATA_df s' = Some df_all /\ DATA_ts s' = DATA_ts s1 /\
  ((forall l, DATA_df s = Some l -> is_Some (heap s !! l)) ->
   heap s' !! df_all = heap s1 !! df_all /\ is_Some (heap s1 !! df_all)).
Proof.
  intros Hdiv Hmodel Hcache Hhist s'.
  pose proof (predict_after_cache reg CACHE_SECS now sheet division model s Hdiv Hmodel)
    as (U1 & D1 & T1). cbv zeta in U1, D1, T1. fold s' in U1, D1, T1.
  pose proof (get_data_cached_untouched CACHE_SECS now sheet s) as U0.
  rewrite Hcache in U0, U1, D1, T1; cbn [snd] in U0, U1, D1, T1.
  pose proof (get_data_cached_ok _ _ _ _ _ _ Hcache) as [Hdf Hwf].
  pose proof (extract_hist_ok _ _ _ _ _ Hhist) as [h Hh].
  assert (U2 : untouched s2 s').
  { subst s'. rewrite (predict_reaches _ _ _ _ _ _ _ Hdiv Hmodel).
    unfold bind. rewrite Hcache, Hhist. apply forecast_untouched. }
  split; [by eapply untouched_trans|]. split; [done|]. split; [done|].
  split; [by rewrite Hh; apply U2|]. split; [by eexists|].
  split; [congruence|]. split; [done|].
  intros Hs. destruct (Hwf Hs) as [df Hdf_all].
  split; [|by eexists]. rewrite Hdf_all. by apply U1.
Qed.


Lemma store_not_mutated_witness :
  let sheet := Ok (sheet_of "Dhaka" (rows ramp)) in
  let s := mkState [] None 0 in
  let s1 := snd (get_data_cached 1800 100 sheet s) in
  let s2 := snd (extract_hist 0 "Dhaka" s1) in
  let s' := snd (predict stub_registry 1800 100 sheet " Dhaka " s) in
  untouched s s' /\ untouched s1 s' /\ untouched s2 s' /\
  heap s' !! 4%nat = heap s2 !! 4%nat /\ is_Some (heap s2 !! 4%nat) /\
  DATA_df s' = Some 0%nat /\ DATA_ts s' = DATA_ts s1 /\
  ((forall l, DATA_df s = Some l -> is_Some (heap s !! l)) ->
   heap s' !! 0%nat = heap s1 !! 0%nat /\ is_Some (heap s1 !! 0%nat)).
Proof.
  intros sheet s s1 s2.
  apply (store_not_mutated stub_registry 1800 100 sheet " Dhaka " lag1_plus_roll7
           s s1 s2 0 4).
  - apply (bool_decide_unpack _). vm_compute. reflexivity.
  - vm_compute. reflexivity.
  - reflexivity.
  - reflexivity.
Defined.

(** ** Validation of the division *)

Section Strip.
Implicit Types l k : list ascii.

Lemma length_lstrip l : (length (lstrip l) <= length l)%nat.
Proof. induction l as [|c l IH]; simpl; [lia|]. destruct (isspace c); simpl; lia. Qed.

Lemma lstrip_idemp l : lstrip (lstrip l) = lstrip l.
Proof.
  induction l as [|c l IH]; [done|]. simpl.
  destruct (isspace c) eqn:E; [done|]. simpl. by rewrite E.
Qed.

Lemma lstrip_suffix l : exists k, l = k ++ lstrip l.
Proof.
  induction l as [|c l [k IH]]; [by exists []|]. simpl.
  destruct (isspace c); [|by exists []].
  exists (c :: k). simpl. by f_equal.
Qed.

Lemma lstrip_prefix l k : lstrip (l ++ k) = l ++ k -> lstrip l = l.
Proof.
  destruct l as [|c l]; [done|]. simpl.
  destruct (isspace c); [|done].
  intros E%(f_equal length). pose proof (length_lstrip (l ++ k)). simpl in E. lia.
Qed.

Lemma strip_idemp (d : string) : strip (strip d) = strip d.
Proof.
  unfold strip. rewrite list_ascii_of_string_of_list_ascii.
  set (a := lstrip (list_ascii_of_string d)).
  set (b := reverse (lstrip (reverse a))).
  assert (Hb : lstrip b = b).
  { destruct (lstrip_suffix (reverse a)) as [k Hk].
    apply (lstrip_prefix b (reverse k)).
    assert (Ha : a = b ++ reverse k).
    { subst b. rewrite <- reverse_app, <- Hk. by rewrite reverse_involutive. }
    rewrite <- Ha. apply lstrip_idemp. }
  rewrite Hb. subst b. by rewrite reverse_involutive, lstrip_idemp.
Qed.
Lemma lstrip_spaces l k : Forall (fun c => isspace c = true) l -> lstrip (l ++ k) = lstrip k.
Proof. induction 1 as [|c l Hc _ IH]; [done|]. cbn [app lstrip]. by rewrite Hc. Qed.

Lemma lstrip_fixed_app l k : l <> [] -> lstrip l = l -> lstrip (l ++ k) = l ++ k.
Proof.
  destruct l as [|c l]; [done|]. intros _. cbn [app lstrip].
  destruct (isspace c); [|done].
  intros E%(f_equal length). pose proof (length_lstrip l). simpl in E. lia.
Qed.

Lemma list_ascii_of_string_app (a b : string) :
  list_ascii_of_string (a +:+ b) = list_ascii_of_string a ++ list_ascii_of_string b.
Proof.
  induction a as [|c a IH]; [done|].
  change (String c a +:+ b) with (String c (a +:+ b)).
  cbn [list_ascii_of_string app]. by rewrite IH.
Qed.

(** No division name is empty or has white space at either end. *)
Lemma DIVS_stripped (d : string) :
  d ∈ DIVS ->
  list_ascii_of_string d <> [] /\
  lstrip (list_ascii_of_string d) = list_ascii_of_string d /\
  lstrip (reverse (list_ascii_of_string d)) = reverse (list_ascii_of_string d).
Proof.
  unfold DIVS. intros Hd.
  repeat (apply elem_of_cons in Hd as [->|Hd]; [by vm_compute|]).
  by apply elem_of_nil in Hd.
Qed.

Lemma strip_padded (d : string) l k :
  d ∈ DIVS ->
  Forall (fun c => isspace c = true) l -> Forall (fun c => isspace c = true) k ->
  strip (string_of_list_ascii l +:+ d +:+ string_of_list_ascii k) = d.
Proof.
  intros (Hne & Hl & Hr)%DIVS_stripped Hspl Hspk. unfold strip.
  rewrite !list_ascii_of_string_app, !list_ascii_of_string_of_list_ascii.
  rewrite lstrip_spaces, lstrip_fixed_app by done.
  rewrite reverse_app, lstrip_spaces by by apply Forall_reverse.
  by rewrite Hr, reverse_involutive, string_of_list_ascii_of_string.
Qed.
End Strip.

(** C10: the division is stripped of white space at both ends before it is
    validated.  [" Dhaka "] strips to ["Dhaka"], passes the validation and is
    answered as ["Dhaka"] is: with the error 500 if no model is registered
    for Dhaka, and else with the forecast for Dhaka.  The same holds of every
    division name with any white space around it.  Any request is answered
    as its stripped form; a stripped form outside the 8 divisions is rejected
    with status 400 and nothing done, and one inside them passes on to the
    model lookup. *)
Theorem division_is_stripped (reg : registry) (CACHE_SECS now : Z)
    (sheet : result DataFrame) (s : state) :
  (strip " Dhaka " = "Dhaka"%string /\ "Dhaka"%string ∈ DIVS /\
   predict reg CACHE_SECS now sheet " Dhaka " s
   = match MODELS reg !! "Dhaka"%string with
     | None => (Raise (HTTPException 500 "No model for Dhaka"), s)
     | Some model =>
         (df_all <- get_data_cached CACHE_SECS now sheet ;;
          hist <- extract_hist df_all "Dhaka" ;;
          forecast reg model "Dhaka" hist) s
     end) /\
  (forall d l k,
     d ∈ DIVS ->
     Forall (fun c => isspace c = true) l -> Forall (fun c => isspace c = true) k ->
     strip (string_of_list_ascii l +:+ d +:+ string_of_list_ascii k) = d /\
     predict reg CACHE_SECS now sheet
       (string_of_list_ascii l +:+ d +:+ string_of_list_ascii k) s
     = match MODELS reg !! d with
       | None => (Raise (HTTPException 500 ("No model for " +:+ d)), s)
       | Some model =>
           (df_all <- get_data_cached CACHE_SECS now sheet ;;
            hist <- extract_hist df_all d ;;
            forecast reg model d hist) s
       end) /\
  predict reg CACHE_SECS now sheet " Dhaka " s
  = predict reg CACHE_SECS now sheet "Dhaka" s /\
  (forall division,
     predict reg CACHE_SECS now sheet division s
     = predict reg CACHE_SECS now sheet (strip division) s) /\
  (forall division,
     strip division ∉ DIVS ->
     predict reg CACHE_SECS now sheet division s
     = (Raise (HTTPException 400 detail_400), s)) /\
  (forall division,
     strip division ∈ DIVS ->
     predict reg CACHE_SECS now sheet division s
     = match MODELS reg !! strip division with
       | None => (Raise (HTTPException 500 ("No model for " +:+ strip division)), s)
       | Some model =>
           (df_all <- get_data_cached CACHE_SECS now sheet ;;
            hist <- extract_hist df_all (strip division) ;;
            forecast reg model (strip division) hist) s
       end).
Proof.
  assert (Hstrip : forall division,
    predict reg CACHE_SECS now sheet division s
    = predict reg CACHE_SECS now sheet (strip division) s).
  { intros division. unfold predict. cbv zeta. by rewrite strip_idemp. }
  assert (Hin : forall division,
    strip division ∈ DIVS ->
    predict reg CACHE_SECS now sheet division s
    = match MODELS reg !! strip division with
      | None => (Raise (HTTPException 500 ("No model for " +:+ strip division)), s)
      | Some model =>
          (df_all <- get_data_cached CACHE_SECS now sheet ;;
           hist <- extract_hist df_all (strip division) ;;
           forecast reg model (strip division) hist) s
      end).
  { intros division Hin. unfold predict. cbv zeta.
    rewrite (bool_decide_eq_true_2 _ Hin). by destruct (MODELS reg !! strip division). }
  assert (HD : strip " Dhaka " = "Dhaka"%string) by by vm_compute.
  assert (HDin : "Dhaka"%string ∈ DIVS) by (unfold DIVS; left).
  split; [|split; [|split; [|split; [|split]]]].
  - split; [done|]. split; [done|].
    rewrite (Hin " Dhaka ") by by rewrite HD. by rewrite HD.
  - intros d l k Hd Hl Hk. pose proof (strip_padded d l k Hd Hl Hk) as E.
    split; [done|]. rewrite Hin by by rewrite E. by rewrite E.
  - apply (Hstrip " Dhaka ").
  - exact Hstrip.
  - intros division Hout. unfold predict. cbv zeta.
    by rewrite (bool_decide_eq_false_2 _ Hout).
  - exact Hin.
Qed.

Lemma division_is_stripped_witness :
  let sheet := Ok (sheet_of "Dhaka" (rows ramp)) in
  let s := mkState [] None 0 in
  (strip "  Rangpur " = "Rangpur"%string /\
   predict stub_registry 1800 100 sheet "  Rangpur " s
   = (Raise (HTTPException 500 "No model for Rangpur"), s)) /\
  predict stub_registry 1800 100 sheet " Dhaka " s
  = (df_all <- get_data_cached 1800 100 sheet ;;
     hist <- extract_hist df_all "Dhaka" ;;
     forecast stub_registry lag1_plus_roll7 "Dhaka" hist) s /\
  predict stub_registry 1800 100 sheet " Paris " s
  = (Raise (HTTPException 400 detail_400), s).
Proof.
  intros sheet s.
  destruct (division_is_stripped stub_registry 1800 100 sheet s)
    as ((_ & _ & HDhaka) & Hpad & _ & _ & Hout & _).
  split; [|split].
  - apply (Hpad "Rangpur"%string [" "%char; " "%char] [" "%char]).
    + apply (bool_decide_unpack _). vm_compute. reflexivity.
    + repeat constructor.
    + repeat constructor.
  - assert (Hm : MODELS stub_registry !! "Dhaka"%string = Some lag1_plus_roll7)
      by (vm_compute; reflexivity).
    rewrite Hm in HDhaka. exact HDhaka.
  - apply Hout. apply (bool_decide_unpack _). vm_compute. reflexivity.
Defined.

(** ** The empty series *)

(** C7: for every division, the rollout on a series without observations
    raises the "No data" error and leaves the store as it found it: no frame
    is built and no point produced; a request whose extracted history is
    empty ends with that error. *)
Theorem empty_series_rejected (reg : registry) (model : regressor) (division : string)
    (hist : loc) (s : state) :
  rows (heap s !!! hist) = [] ->
  forecast reg model division hist s
  = (Raise (HTTPException 404 ("No data for " +:+ division)), s) /\
  forall CACHE_SECS now sheet request df_all s0 s1,
    strip request = division -> division ∈ DIVS ->
    MODELS reg !! division = Some model ->
    get_data_cached CACHE_SECS now sheet s0 = (Ok df_all, s1) ->
    extract_hist df_all division s1 = (Ok hist, s) ->
    predict reg CACHE_SECS now sheet request s0
    = (Raise (HTTPException 404 ("No data for " +:+ division)), s).
Proof.
  intros Hrows.
  assert (Hf : forecast reg model division hist s
               = (Raise (HTTPException 404 ("No data for " +:+ division)), s)).
  { unfold forecast, bind, load, empty. by rewrite Hrows. }
  split; [exact Hf|].
  intros CACHE_SECS now sheet request df_all s0 s1 <- Hdiv Hmodel Hcache Hhist.
  rewrite (predict_reaches _ _ _ _ _ _ _ Hdiv Hmodel).
  unfold bind. by rewrite Hcache, Hhist.
Qed.

Lemma empty_series_rejected_witness :
  forecast stub_registry lag1_plus_roll7 "Dhaka" 0 (store_of (mkDF [] []))
  = (Raise (HTTPException 404 "No data for Dhaka"), store_of (mkDF [] [])) /\
  predict stub_registry 1800 100 (Ok (sheet_of "Sylhet" (rows ramp))) "Dhaka"
    (mkState [] None 0)
  = (Raise (HTTPException 404 "No data for Dhaka"),
     snd (extract_hist 0 "Dhaka"
            (snd (get_data_cached 1800 100 (Ok (sheet_of "Sylhet" (rows ramp)))
                    (mkState [] None 0))))).
Proof.
  split.
  - apply (empty_series_rejected stub_registry lag1_plus_roll7 "Dhaka" 0
             (store_of (mkDF [] []))). reflexivity.
  - eapply (empty_series_rejected stub_registry lag1_plus_roll7 "Dhaka" 4).
    + reflexivity.
    + reflexivity.
    + apply (bool_decide_unpack _). vm_compute. reflexivity.
    + vm_compute. reflexivity.
    + reflexivity.
    + reflexivity.
Defined.

(** * The registry *)

Section Registry.
Variable files : gmap string pkl.

Lemma load_one_Some reg d obj :
  files !! model_path d = Some obj ->
  load_one files reg d
  = mkRegistry (<[d := pkl_model obj]> (MODELS reg)) (Some (pkl_features obj)).
Proof. unfold load_one. by intros ->. Qed.

Lemma load_one_None reg d : files !! model_path d = None -> load_one files reg d = reg.
Proof. unfold load_one. by intros ->. Qed.

Lemma load_fold_features (l : list string) (reg0 : registry) :
  ((forall d, d ∈ l -> files !! model_path d = None) /\
   foldl (load_one files) reg0 l = reg0) \/
  (exists before d after obj,
     l = before ++ d :: after /\ files !! model_path d = Some obj /\
     (forall d', d' ∈ after -> files !! model_path d' = None) /\
     FEATURES (foldl (load_one files) reg0 l) = Some (pkl_features obj)).
Proof.
  induction l as [|d l IH] using rev_ind.
  - left. split; [|done]. intros d Hd. by apply elem_of_nil in Hd.
  - rewrite foldl_app. cbn [foldl].
    destruct (files !! model_path d) as [obj|] eqn:Hd;
      [rewrite (load_one_Some _ _ _ Hd)|rewrite (load_one_None _ _ Hd)].
    + right. exists l, d, [], obj. split; [done|]. split; [done|]. split; [|done].
      intros d' Hd'. by apply elem_of_nil in Hd'.
    + destruct IH as [[Hnone ->]|(before & d0 & after & obj & -> & Hobj & Hafter & Hf)].
      * left. split; [|done]. intros d' [?|Hx%list_elem_of_singleton]%elem_of_app; [auto|by subst].
      * right. exists before, d0, (after ++ [d]), obj.
        rewrite <- app_assoc. split; [done|]. split; [done|]. split; [|done].
        intros d' [?|Hx%list_elem_of_singleton]%elem_of_app; [auto|by subst].
Qed.

Lemma load_fold_models (l : list string) (reg0 : registry) (d : string) (model : regressor) :
  MODELS (foldl (load_one files) reg0 l) !! d = Some model ->
  MODELS reg0 !! d = Some model \/
  (d ∈ l /\ exists own, files !! model_path d = Some own /\ model = pkl_model own).
Proof.
  induction l as [|d' l IH] using rev_ind; [by left|].
  rewrite foldl_app. cbn [foldl].
  destruct (files !! model_path d') as [obj|] eqn:Hd';
    [rewrite (load_one_Some _ _ _ Hd')|rewrite (load_one_None _ _ Hd')]; cbn [MODELS].
  - destruct (decide (d' = d)) as [->|Hne].
    + rewrite lookup_insert_eq. intros [= <-]. right.
      split; [apply elem_of_app; right; by apply list_elem_of_singleton|by exists obj].
    + rewrite lookup_insert_ne by done. intros [?|[? ?]]%IH; [by left|right].
      split; [apply elem_of_app; by left|done].
  - intros [?|[? ?]]%IH; [by left|right]. split; [apply elem_of_app; by left|done].
Qed.
End Registry.

(** C9: the schema used to build the model input is the one value
    [FEATURES] of the process, left by the last model file that the loading
    loop found in the order of [DIVS]; every request, whatever its division
    and model, selects exactly the columns of that schema, while the model
    it calls is the one of its own file. *)
Theorem schema_of_last_model (files : gmap string pkl) (reg : registry) :
  load_models files = Ok reg ->
  exists before d after obj,
    DIVS = before ++ d :: after /\
    files !! model_path d = Some obj /\
    (forall d', d' ∈ after -> files !! model_path d' = None) /\
    FEATURES reg = Some (pkl_features obj) /\
    (forall work s x,
       fst (features_of reg work s) = Ok x -> map fst (x_cols x) = pkl_features obj) /\
    (forall division model,
       MODELS reg !! division = Some model ->
       division ∈ DIVS /\
       exists own, files !! model_path division = Some own /\ model = pkl_model own).
Proof.
  unfold load_models. cbv zeta.
  pose proof (load_fold_features files DIVS (mkRegistry ∅ None)) as Hfold.
  pose proof (fun d m => load_fold_models files DIVS (mkRegistry ∅ None) d m) as Hmodels.
  set (r := foldl (load_one files) (mkRegistry ∅ None) DIVS) in *. clearbody r.
  destruct (decide (MODELS r = ∅)) as [|Hne]; [done|]. intros [= ->].
  destruct Hfold as [[_ E]|(before & d & after & obj & HD & Hobj & Hafter & Hf)].
  { rewrite E in Hne. done. }
  exists before, d, after, obj.
  split; [done|]. split; [done|]. split; [done|]. split; [done|]. split.
  - intros work s x. rewrite features_of_run; cbn [fst]. unfold features_value.
    rewrite Hf. intros [Hall ->]%select_inv. cbn [x_cols]. by apply picked_names.
  - intros division model [H|H]%Hmodels; [|done].
    cbn [MODELS] in H. by rewrite lookup_empty in H.
Qed.

Lemma schema_of_last_model_witness :
  exists before d after obj,
    DIVS = before ++ d :: after /\
    two_files !! model_path d = Some obj /\
    (forall d', d' ∈ after -> two_files !! model_path d' = None) /\
    FEATURES two_registry = Some (pkl_features obj) /\
    (forall work s x,
       fst (features_of two_registry work s) = Ok x ->
       map fst (x_cols x) = pkl_features obj) /\
    (forall division model,
       MODELS two_registry !! division = Some model ->
       division ∈ DIVS /\
       exists own, two_files !! model_path division = Some own /\ model = pkl_model own).
Proof.
  apply (schema_of_last_model two_files two_registry).
  vm_compute. reflexivity.
Defined.

(** With the two files above, a request for Dhaka runs Dhaka's model on the
    columns of Rangpur's schema, not on those stored with Dhaka's model. *)
Example dhaka_uses_rangpur_schema :
  (pkl_features <$> two_files !! model_path "Dhaka") = Some ["lag_1"; "roll7"]%string /\
  FEATURES two_registry = Some feature_cols /\
  (x_cols <$> match fst (features_of two_registry 0 (store_of ramp)) with
              | Ok x => Some x
              | Raise _ => None
              end)
  = Some (picked (iloc_last (build_feats_value ramp)) feature_cols).
Proof. split; [|split]; vm_compute; reflexivity. Qed.

(** * The ramp: values 1 to 20 on consecutive days *)

Ltac float_option_eval :=
  vm_compute;
  lazymatch goal with
  | |- Some ?x = Some ?y => apply (f_equal Some), float_eqb_eq; vm_compute; reflexivity
  end.

(** The row served for the first forecast day is the training row of the
    last observed day, whose label is that day's own value: on the 20-day
    ramp its [lag_1] is 19, and on the ramp of 140 days, long enough for
    Dhaka to be trained, it is the last of the 126 training rows, labelled
    140. *)
Example ramp_serving_row_is_training_row :
  add_features ramp 14 = build_feats_value ramp /\
  (assoc "lag_1" <$> first_turn_row stub_registry ramp) = Some (Some (Float (fin 19))) /\
  match training_set long_ramp "Dhaka" with
  | Ok (Some set) =>
      length (snd set) = 126%nat /\
      (fst <$> training_pair set 125) = first_turn_row stub_registry (Date_AQI long_ramp) /\
      (snd <$> training_pair set 125) = Some (fin 140)
  | _ => False
  end.
Proof.
  split; [vm_compute; reflexivity|]. split; [vm_compute; reflexivity|].
  vm_compute. repeat split.
Qed.

(** C1, on the code: with the stub that adds [lag_1] and [roll7], the first
    prediction for the ramp is 35 = 19 + mean(13..19), the fields of the row
    of the last observation, and not 37 = 20 + mean(14..20). *)
Theorem ramp_first_prediction :
  first_prediction
    (fst (predict stub_registry 1800 100 (Ok (sheet_of "Dhaka" (rows ramp))) "Dhaka"
            (mkState [] None 0)))
  = Some (fin 35) /\
  Some (fin 35) = Some (float_add (fin 19) (mean (map fin [13; 14; 15; 16; 17; 18; 19]))) /\
  Some (float_add (fin 20) (mean (map fin [14; 15; 16; 17; 18; 19; 20]))) = Some (fin 37) /\
  fin 35 <> fin 37.
Proof.
  split; [float_option_eval|]. split; [float_option_eval|]. split; [float_option_eval|].
  intros E%float_eqb_eq. vm_compute in E. discriminate E.
Qed.

(** C2, on the code: on the ramp the first turn predicts 35, and the row of
    the second turn has [lag_1] = 20, the last original observation. *)
Theorem ramp_second_turn_lag_1 :
  first_turn_prediction stub_registry lag1_plus_roll7 ramp = Some (fin 35) /\
  second_turn_lag_1 stub_registry lag1_plus_roll7 ramp = Some (Float (fin 20)) /\
  (AQI <$> last (rows ramp)) = Some (fin 20) /\
  fin 20 <> fin 35.
Proof.
  split; [float_option_eval|]. split; [|split; [float_option_eval|]].
  - vm_compute. apply (f_equal (fun x => Some (Float x))), float_eqb_eq.
    vm_compute. reflexivity.
  - intros E%float_eqb_eq. vm_compute in E. discriminate E.
Qed.

(** * Further properties of the service *)

(** ** The loading loop *)

Lemma load_fold_has_model (files : gmap string pkl) (l : list string) (reg0 : registry)
    (d : string) (obj : pkl) :
  d ∈ l -> files !! model_path d = Some obj ->
  MODELS (foldl (load_one files) reg0 l) !! d = Some (pkl_model obj).
Proof.
  intros Hin Hobj. induction l as [|d' l IH] using rev_ind; [by apply elem_of_nil in Hin|].
  rewrite foldl_app. cbn [foldl].
  destruct (decide (d' = d)) as [->|Hne].
  - rewrite (load_one_Some _ _ _ _ Hobj). cbn [MODELS]. by rewrite lookup_insert_eq.
  - apply elem_of_app in Hin as [Hin|Hin%list_elem_of_singleton]; [|congruence].
    destruct (files !! model_path d') as [obj'|] eqn:Hd'.
    + rewrite (load_one_Some _ _ _ _ Hd'). cbn [MODELS].
      rewrite lookup_insert_ne by done. by apply IH.
    + rewrite (load_one_None _ _ _ Hd'). by apply IH.
Qed.

(** Loading succeeds exactly when some division of [DIVS] has a model file,
    and then every division with a file is registered with the model of its
    own file. *)
Theorem models_loaded_iff_file (files : gmap string pkl) :
  (load_models files = Raise (RuntimeError "No models found in models/")
   <-> forall d, d ∈ DIVS -> files !! model_path d = None) /\
  (forall reg d obj,
     load_models files = Ok reg -> d ∈ DIVS -> files !! model_path d = Some obj ->
     MODELS reg !! d = Some (pkl_model obj)).
Proof.
  unfold load_models. cbv zeta.
  pose proof (load_fold_features files DIVS (mkRegistry ∅ None)) as Hfold.
  pose proof (fun d obj => load_fold_has_model files DIVS (mkRegistry ∅ None) d obj) as Hhas.
  set (r := foldl (load_one files) (mkRegistry ∅ None) DIVS) in *. clearbody r.
  split.
  - destruct (decide (MODELS r = ∅)) as [Hempty|Hne]; split; try done.
    + intros _ d Hd. destruct (files !! model_path d) as [obj|] eqn:Hobj; [|done].
      specialize (Hhas d obj Hd Hobj). rewrite Hempty, lookup_empty in Hhas. done.
    + intros Hnone. destruct Hfold as [[_ ->]|(before & d & after & obj & HD & Hobj & _)].
      * done.
      * rewrite Hnone in Hobj; [done|]. rewrite HD. apply elem_of_app. right. left.
  - intros reg d obj. destruct (decide (MODELS r = ∅)); [done|]. intros [= <-]. apply Hhas.
Qed.

Lemma models_loaded_iff_file_witness :
  MODELS two_registry !! "Rangpur"%string
  = Some (pkl_model (mkPkl (fun _ => fin 0) feature_cols)).
Proof.
  destruct (models_loaded_iff_file two_files) as [_ Hhas].
  apply (Hhas two_registry "Rangpur"%string).
  - vm_compute. reflexivity.
  - apply (bool_decide_unpack _). vm_compute. reflexivity.
  - vm_compute. reflexivity.
Defined.

(** ** The cache *)

(** After a successful call the cache holds the returned frame: any later
    call made no more than [CACHE_SECS] after the time stamp of the cache
    returns the same reference and changes nothing, whatever the remote sheet
    would answer then. *)
Theorem cache_reused_within_lifetime (CACHE_SECS now now' : Z)
    (sheet sheet' : result DataFrame) (s s1 : state) (l : loc) :
  get_data_cached CACHE_SECS now sheet s = (Ok l, s1) ->
  now' - DATA_ts s1 <= CACHE_SECS ->
  get_data_cached CACHE_SECS now' sheet' s1 = (Ok l, s1).
Proof.
  intros Hfirst Hage.
  destruct (get_data_cached_ok _ _ _ _ _ _ Hfirst) as [Hdf _].
  unfold get_data_cached. rewrite Hdf.
  by assert ((CACHE_SECS <? now' - DATA_ts s1) = false) as -> by (apply Z.ltb_ge; lia).
Qed.

Lemma cache_reused_within_lifetime_witness :
  let s1 := snd (get_data_cached 1800 100 (Ok (sheet_of "Dhaka" (rows ramp)))
                   (mkState [] None 0)) in
  get_data_cached 1800 1900 (Raise (RuntimeError "SHEET_CSV_URL not set")) s1 = (Ok 0%nat, s1).
Proof.
  intros s1.
  apply (cache_reused_within_lifetime 1800 100 1900 (Ok (sheet_of "Dhaka" (rows ramp)))
           (Raise (RuntimeError "SHEET_CSV_URL not set")) (mkState [] None 0) s1 0).
  - reflexivity.
  - vm_compute. discriminate.
Defined.

(** When the cache is empty or older than [CACHE_SECS] and reading the sheet
    fails, the failure is what the call returns, and neither the store nor
    the cache entry changes; a later call will try again. *)
Theorem cache_miss_failure (CACHE_SECS now : Z) (e : exn) (s : state) :
  (DATA_df s = None \/ CACHE_SECS < now - DATA_ts s) ->
  get_data_cached CACHE_SECS now (Raise e) s = (Raise e, s) /\
  forall reg division model,
    strip division ∈ DIVS -> MODELS reg !! strip division = Some model ->
    predict reg CACHE_SECS now (Raise e) division s = (Raise e, s).
Proof.
  intros Hmiss.
  assert (Hc : get_data_cached CACHE_SECS now (Raise e) s = (Raise e, s)).
  { unfold get_data_cached. destruct (DATA_df s) as [l|]; [|done].
    destruct Hmiss as [|Hold]; [done|]. by apply Z.ltb_lt in Hold as ->. }
  split; [done|]. intros reg division model Hdiv Hmodel.
  rewrite (predict_reaches _ _ _ _ _ _ _ Hdiv Hmodel). unfold bind. by rewrite Hc.
Qed.

Lemma cache_miss_failure_witness :
  get_data_cached 1800 100 (Raise (RuntimeError "SHEET_CSV_URL not set")) (mkState [] None 0)
  = (Raise (RuntimeError "SHEET_CSV_URL not set"), mkState [] None 0).
Proof.
  apply (cache_miss_failure 1800 100 (RuntimeError "SHEET_CSV_URL not set")
           (mkState [] None 0)).
  left. reflexivity.
Defined.

(** ** The extracted history *)

Section History.
Implicit Types (rs : list obs) (keys : list Z).

Lemma insert_by_Sorted (x : Z * nat) (l : list (Z * nat)) :
  Sorted (fun a b => fst a <= fst b) l ->
  Sorted (fun a b => fst a <= fst b) (insert_by key_le x l).
Proof.
  induction 1 as [|y l Hs IH Hhd]; cbn [insert_by]; [by repeat constructor|].
  unfold key_le at 1. destruct (fst x <=? fst y) eqn:E.
  - apply Z.leb_le in E. by repeat constructor.
  - apply Z.leb_gt in E. constructor; [done|].
    destruct Hhd as [|z l' Hyz]; cbn [insert_by]; [constructor; lia|].
    unfold key_le. destruct (fst x <=? fst z); constructor; lia.
Qed.

Lemma isort_Sorted (l : list (Z * nat)) :
  Sorted (fun a b => fst a <= fst b) (isort key_le l).
Proof.
  induction l as [|x l IH]; cbn [isort]; [constructor|by apply insert_by_Sorted].
Qed.

Lemma Sorted_fst (l : list (Z * nat)) :
  Sorted (fun a b => fst a <= fst b) l -> Sorted Z.le (map fst l).
Proof.
  induction 1 as [|x l Hs IH Hhd]; cbn [map]; constructor; [done|].
  destruct Hhd; cbn [map]; by constructor.
Qed.

(** Picking the rows named by sorted (key, position) pairs gives rows whose
    dates are the keys. *)
Lemma pick_keys rs (l : list (Z * nat)) :
  Forall (fun ki => Date <$> rs !! snd ki = Some (fst ki)) l ->
  map Date (pick (map snd l) rs) = map fst l.
Proof.
  unfold pick. induction 1 as [|[k i] l Hki _ IH]; [done|].
  cbn [map snd fst omap list_omap] in *.
  destruct (rs !! i) as [r|]; [|done]. injection Hki as <-.
  cbn [map]. by rewrite IH.
Qed.

Lemma zip_keys rs :
  Forall (fun ki => Date <$> rs !! snd ki = Some (fst ki))
         (zip (map Date rs) (seq 0 (length rs))).
Proof.
  apply Forall_forall. intros [k i] Hin.
  apply list_elem_of_lookup in Hin as [j Hj].
  apply lookup_zip_with_Some in Hj as (k' & i' & [= <- <-] & Hk & Hi).
  apply lookup_seq in Hi as [-> _]. cbn [fst snd].
  change (map Date rs) with (Date <$> rs) in Hk. by rewrite list_lookup_fmap in Hk.
Qed.

Lemma Sorted_rows_sort_by_Date (df : DataFrame) :
  Sorted Z.le (map Date (rows (sort_by_Date df))).
Proof.
  unfold sort_by_Date, take_rows, argsort; cbn [rows].
  rewrite length_map, pick_keys.
  - apply Sorted_fst, isort_Sorted.
  - rewrite isort_Permutation. apply zip_keys.
Qed.

Lemma pick_Permutation {A} (idx : list nat) (xs : list A) :
  idx ≡ₚ seq 0 (length xs) -> pick idx xs ≡ₚ xs.
Proof.
  intros Hp. rewrite <- (pick_seq xs) at 2. unfold pick. by rewrite Hp.
Qed.

Lemma rows_sort_by_Date_Permutation (df : DataFrame) :
  rows (sort_by_Date df) ≡ₚ rows df.
Proof.
  unfold sort_by_Date, take_rows; cbn [rows].
  apply pick_Permutation. by rewrite argsort_Permutation, length_map.
Qed.
End History.

Lemma pick_mask (f : cell -> bool) (city : list cell) (rs pre : list obs) :
  length city = length rs ->
  omap (fun i => (pre ++ rs) !! i)
       (map snd (filter (fun bi => fst bi = true)
                        (zip (map f city) (seq (length pre) (length (map f city))))))
  = map snd (filter (fun cr => f (fst cr) = true) (zip city rs)).
Proof.
  revert rs pre. induction city as [|c city IH]; intros rs pre Hlen; [done|].
  destruct rs as [|r rs]; [done|]. injection Hlen as Hlen.
  cbn [map length seq zip zip_with]. rewrite !filter_cons. cbn [fst].
  specialize (IH rs (pre ++ [r]) Hlen).
  rewrite <- app_assoc, length_app in IH. cbn [app length] in IH.
  rewrite Nat.add_1_r in IH.
  destruct (f c).
  - rewrite !decide_True by done.
    cbn [map snd omap list_omap]. rewrite list_lookup_middle by done.
    cbn [snd map]. by rewrite <- IH.
  - rewrite !decide_False by done. exact IH.
Qed.

Lemma rows_take_rows_mask (f : cell -> bool) (city : list cell) (df : DataFrame) :
  length city = length (rows df) ->
  rows (take_rows (mask_index (map f city)) df)
  = map snd (filter (fun cr => f (fst cr) = true) (zip city (rows df))).
Proof.
  intros Hlen. unfold take_rows, mask_index, pick; cbn [rows].
  exact (pick_mask f city (rows df) [] Hlen).
Qed.

(** The history extracted for a division holds the rows of that city and no
    others, each as often as the sheet has it, in non-decreasing date order
    and without the [City] column; a sheet without a [City] column raises
    [KeyError] and allocates nothing. *)
Theorem extracted_history (df_all : loc) (division : string) (s : state) :
  (forall city,
     get_col (heap s !!! df_all) "City" = Some city ->
     length city = length (rows (heap s !!! df_all)) ->
     exists hist s',
       extract_hist df_all division s = (Ok hist, s') /\
       cols (heap s' !!! hist) = [] /\
       Sorted Z.le (map Date (rows (heap s' !!! hist))) /\
       rows (heap s' !!! hist) ≡ₚ rows_of_city division city (rows (heap s !!! df_all))) /\
  (get_col (heap s !!! df_all) "City" = None ->
   extract_hist df_all division s = (Raise (KeyError ["City"%string]), s)).
Proof.
  destruct (extract_hist_run df_all division s) as (ext & Hrun & Hext).
  unfold hist_value in *. split.
  - intros city Hcity Hlen. rewrite Hcity in *.
    destruct (Hext _ eq_refl) as [Hh _].
    eexists _, _. split; [exact Hrun|]. cbn [heap]. rewrite Hh.
    split; [done|]. split; [apply Sorted_rows_sort_by_Date|].
    cbn [Date_AQI rows]. rewrite rows_sort_by_Date_Permutation.
    by rewrite rows_take_rows_mask.
  - intros Hnone. unfold extract_hist, bind, getitem, bind, load, raise.
    by rewrite Hnone.
Qed.

Lemma extracted_history_witness :
  exists hist s',
    extract_hist 0 "Dhaka" (store_of (sheet_of "Dhaka" (rows gap_series))) = (Ok hist, s') /\
    cols (heap s' !!! hist) = [] /\
    Sorted Z.le (map Date (rows (heap s' !!! hist))) /\
    rows (heap s' !!! hist)
    ≡ₚ rows_of_city "Dhaka" (replicate 3 (Str "Dhaka")) (rows gap_series).
Proof.
  destruct (extracted_history 0 "Dhaka" (store_of (sheet_of "Dhaka" (rows gap_series))))
    as [Hok _].
  apply (Hok (replicate 3 (Str "Dhaka"))); reflexivity.
Defined.

(** ** The working series of the rollout *)

Lemma rollout_value_series (reg : registry) (model : regressor) (last_date : Z)
    (steps : list Z) (w w' : DataFrame) (out out' : list point) :
  rollout_value reg model last_date steps w out = Ok (w', out') ->
  exists ps,
    length ps = length steps /\
    rows w' = rows w ++ zip_with (fun k p => mkObs (last_date + k) p) steps ps /\
    out' = out ++ zip_with (fun k p => mkPoint (isoformat (last_date + k)) p) steps ps.
Proof.
  revert w out. induction steps as [|step steps IH]; intros w out; cbn [rollout_value].
  - intros [= <- <-]. exists []. by rewrite !app_nil_r.
  - destruct (prediction reg model w) as [p|e]; [|done].
    intros (ps & Hlen & Hrows & Hout)%IH. exists (p :: ps).
    cbn [length zip_with]. rewrite Hlen, Hrows, Hout.
    unfold concat_row; cbn [rows]. by rewrite <- !app_assoc.
Qed.

(** The points that the loop returns are exactly the rows it has appended to
    its working series: the same values, in the same order, dated with the
    days after [last_date] given by the step numbers. *)
Theorem rollout_appends_its_points (reg : registry) (model : regressor) (last_date : Z)
    (steps : list Z) (work work' : loc) (out out' : list point) (s s' : state) :
  (work < length (heap s))%nat ->
  for_ steps (rollout_step reg model last_date) (work, out) s = (Ok (work', out'), s') ->
  exists ps,
    length ps = length steps /\
    rows (heap s' !!! work')
    = rows (heap s !!! work) ++ zip_with (fun k p => mkObs (last_date + k) p) steps ps /\
    out' = out ++ zip_with (fun k p => mkPoint (isoformat (last_date + k)) p) steps ps.
Proof.
  intros Hwork Hrun.
  destruct (rollout_run reg model last_date steps work out s Hwork) as (ext & Hs & Hr).
  rewrite Hrun in Hs, Hr; cbn [fst snd] in Hs, Hr. destruct Hr as [_ Hv].
  rewrite Hs; cbn [heap]. by apply rollout_value_series in Hv.
Qed.

Lemma rollout_appends_its_points_witness :
  let run := for_ [1; 2] (rollout_step stub_registry lag1_plus_roll7 19802) (0%nat, [])
                  (store_of ramp) in
  exists ps,
    length ps = 2%nat /\
    rows (heap (snd run) !!! 8%nat)
    = rows ramp ++ zip_with (fun k p => mkObs (19802 + k) p) [1; 2] ps /\
    zip_with (fun k p => mkPoint (isoformat (19802 + k)) p) [1; 2] ps
    = [] ++ zip_with (fun k p => mkPoint (isoformat (19802 + k)) p) [1; 2] ps.
Proof.
  intros run.
  destruct (rollout_appends_its_points stub_registry lag1_plus_roll7 19802 [1; 2] 0 8 []
              (match fst run with Ok acc => snd acc | Raise _ => [] end)
              (store_of ramp) (snd run)) as (ps & Hlen & Hrows & Hout).
  - simpl. lia.
  - vm_compute. reflexivity.
  - exists ps. split; [exact Hlen|]. split; [exact Hrows|reflexivity].
Defined.

(** ** When the model is consulted *)

Lemma fallback_value (reg : registry) (model : regressor) (w : DataFrame) :
  FEATURES reg = Some feature_cols -> rows w <> [] -> (length (rows w) <= 14)%nat ->
  prediction reg model w = Ok (mean (tail 7 (map AQI (rows w)))).
Proof.
  intros Hschema Hw Hlen.
  destruct (short_series_falls_back reg w Hschema Hw Hlen) as (x & Hx & Hna).
  unfold prediction. by rewrite Hx, Hna.
Qed.

Lemma rollout_value_short (reg : registry) (model model' : regressor) (last_date : Z)
    (steps : list Z) (w : DataFrame) (out : list point) :
  FEATURES reg = Some feature_cols -> rows w <> [] ->
  (length (rows w) + length steps <= 15)%nat ->
  rollout_value reg model last_date steps w out
  = rollout_value reg model' last_date steps w out.
Proof.
  intros Hschema. revert w out.
  induction steps as [|step steps IH]; intros w out Hw Hlen; [done|].
  cbn [rollout_value length] in *.
  rewrite !fallback_value by (try done; lia).
  apply IH.
  - unfold concat_row; cbn [rows]. by destruct (rows w).
  - unfold concat_row; cbn [rows]. rewrite length_app; simpl. lia.
Qed.

(** Under the schema of the training script, a history of at most 8
    observations never reaches the model: all 7 predictions are fallback
    means, so the answer is the same whatever regressor is registered. *)
Theorem short_history_ignores_model (reg : registry) (model model' : regressor)
    (division : string) (hist : loc) (s : state) :
  FEATURES reg = Some feature_cols ->
  (length (rows (heap s !!! hist)) <= 8)%nat ->
  fst (forecast reg model division hist s) = fst (forecast reg model' division hist s).
Proof.
  intros Hschema Hlen.
  destruct (forecast_run reg model division hist s) as [ext ->].
  destruct (forecast_run reg model' division hist s) as [ext' ->].
  cbn [fst]. unfold forecast_value, empty.
  destruct (rows (heap s !!! hist)) eqn:Hr; [done|]. rewrite <- Hr in *.
  rewrite (rollout_value_short reg model model');
    [done|done|by rewrite Hr|rewrite length_map, length_seq; lia].
Qed.

Lemma short_history_ignores_model_witness :
  fst (forecast stub_registry lag1_plus_roll7 "Dhaka" 0 (store_of five))
  = fst (forecast stub_registry (fun _ => fin 0) "Dhaka" 0 (store_of five)).
Proof.
  apply (short_history_ignores_model stub_registry lag1_plus_roll7 (fun _ => fin 0)
           "Dhaka" 0 (store_of five)).
  - reflexivity.
  - simpl. lia.
Defined.

Section ServedRow.
Implicit Types (w : DataFrame) (rs : list obs) (vs : list float).

Lemma rolling_last_nonempty (n : nat) vs :
  vs <> [] -> tail 1 (rolling_mean n vs) = [window_mean n (tail n vs)].
Proof.
  destruct vs as [|v vs _] using rev_ind; [done|]. intros _. apply rolling_last.
Qed.

(** The cells of the last row of the feature table, read off the series in
    date order: [rs] before the last entry [r]. *)
Lemma served_lag w rs r (L : nat) :
  rows (sort_by_Date w) = rs ++ [r] -> (1 <= L <= 14)%nat ->
  get_col (iloc_last (build_feats_value w)) (lag_name L)
  = Some [Float (if decide (L <= length rs)%nat
                 then map AQI rs !!! (length rs - L)%nat else NaN)].
Proof.
  intros Hrows HL. rewrite get_col_iloc_last, lag_col, Hrows, map_app by done.
  cbn [map fmap option_fmap option_map].
  by rewrite tail_map, shift_last, length_map by lia.
Qed.

Lemma served_roll w rs r (n : nat) name :
  rows (sort_by_Date w) = rs ++ [r] ->
  (n = 7%nat /\ name = "roll7"%string) \/ (n = 14%nat /\ name = "roll14"%string) ->
  get_col (iloc_last (build_feats_value w)) name
  = Some [Float (window_mean n (tail n (NaN :: map AQI rs)))].
Proof.
  intros Hrows Hn. rewrite get_col_iloc_last, (roll_col _ n name Hn), Hrows, map_app.
  cbn [map fmap option_fmap option_map].
  by rewrite tail_map, shift_1, rolling_last_nonempty.
Qed.

Lemma served_calendar w rs r name (g : Z -> Z) :
  rows (sort_by_Date w) = rs ++ [r] ->
  (name = "dow"%string /\ g = dayofweek) \/ (name = "mon"%string /\ g = month)
  \/ (name = "doy"%string /\ g = dayofyear) ->
  get_col (iloc_last (build_feats_value w)) name = Some [Int (g (Date r))].
Proof.
  intros Hrows Hg. rewrite get_col_iloc_last, (calendar_col _ name g Hg), Hrows.
  cbn [fmap option_fmap option_map].
  rewrite !map_app. cbn [map]. by rewrite tail_last.
Qed.

Lemma feature_cols_cases (P : string -> Prop) :
  (forall L, (1 <= L <= 14)%nat -> P (lag_name L)) ->
  P "roll7"%string -> P "roll14"%string ->
  P "dow"%string -> P "mon"%string -> P "doy"%string ->
  forall n, n ∈ feature_cols -> P n.
Proof.
  intros Hlag H7 H14 Hdow Hmon Hdoy n. unfold feature_cols. rewrite elem_of_app.
  intros [H|H].
  - apply list_elem_of_In, in_map_iff in H as (L & <- & HL%list_elem_of_In%elem_of_seq).
    apply Hlag. lia.
  - repeat (apply elem_of_cons in H as [->|H]; [done|]). by apply elem_of_nil in H.
Qed.

Lemma filter_ext_in {A} (P Q : A -> Prop) `{!forall x, Decision (P x)}
    `{!forall x, Decision (Q x)} (l : list A) :
  (forall x, x ∈ l -> P x <-> Q x) -> filter P l = filter Q l.
Proof.
  induction l as [|a l IH]; intros Hiff; [done|].
  rewrite !filter_cons, IH by (intros x Hx; apply Hiff; by right).
  destruct (decide (P a)) as [HP|HP], (decide (Q a)) as [HQ|HQ]; try done.
  - by apply Hiff in HP; [|left].
  - by apply Hiff in HQ; [|left].
Qed.

Lemma select_ext (names : list string) (df df' : DataFrame) :
  length (rows df) = length (rows df') ->
  (forall n, n ∈ names -> get_col df n = get_col df' n) ->
  select (Some names) df = select (Some names) df'.
Proof.
  intros Hlen Hcols. rewrite !select_Some, Hlen.
  assert (filter (fun n => get_col df n = None) names
          = filter (fun n => get_col df' n = None) names) as ->.
  { apply filter_ext_in. intros n Hn. by rewrite Hcols. }
  assert (picked df names = picked df' names) as ->; [|done].
  unfold picked. apply list_omap_ext, Forall2_same_length_lookup.
  split; [done|]. intros i n n' Hn Hn'. assert (n' = n) as -> by congruence.
  rewrite Hcols; [done|]. by eapply list_elem_of_lookup_2.
Qed.
End ServedRow.

(** A schema of derived features never shows the value of the newest entry
    of the working series to the model: two series in date order that differ
    only in the value of their last entry give the same frame [x]. *)
Theorem newest_value_is_not_a_feature (reg : registry) (names : list string)
    (work1 work2 : loc) (s1 s2 : state) (rs : list obs) (r1 r2 : obs) :
  FEATURES reg = Some names ->
  Forall (fun n => n ∈ feature_cols) names ->
  rows (sort_by_Date (heap s1 !!! work1)) = rs ++ [r1] ->
  rows (sort_by_Date (heap s2 !!! work2)) = rs ++ [r2] ->
  Date r1 = Date r2 ->
  fst (features_of reg work1 s1) = fst (features_of reg work2 s2).
Proof.
  intros Hschema Hnames H1 H2 Hdate. rewrite !features_of_run; cbn [fst].
  unfold features_value. rewrite Hschema. apply select_ext.
  - unfold iloc_last; cbn [rows]. by rewrite !rows_build_feats_value, H1, H2, !tail_last.
  - intros n Hn. eapply Forall_forall in Hnames; [|exact Hn]. clear Hn.
    revert n Hnames. apply feature_cols_cases.
    + intros L HL. by rewrite (served_lag _ rs r1), (served_lag _ rs r2).
    + by rewrite (served_roll _ rs r1 7), (served_roll _ rs r2 7) by auto.
    + by rewrite (served_roll _ rs r1 14), (served_roll _ rs r2 14) by auto.
    + rewrite (served_calendar _ rs r1 _ dayofweek), (served_calendar _ rs r2 _ dayofweek)
        by auto. by rewrite Hdate.
    + rewrite (served_calendar _ rs r1 _ month), (served_calendar _ rs r2 _ month)
        by auto. by rewrite Hdate.
    + rewrite (served_calendar _ rs r1 _ dayofyear), (served_calendar _ rs r2 _ dayofyear)
        by auto. by rewrite Hdate.
Qed.

Lemma newest_value_is_not_a_feature_witness :
  fst (features_of stub_registry 0 (store_of gap_series))
  = fst (features_of stub_registry 0
           (store_of (mkDF [mkObs 19783 (fin 10); mkObs 19784 (fin 20); mkObs 19786 (fin 99)] []))).
Proof.
  apply (newest_value_is_not_a_feature stub_registry feature_cols 0 0 _ _
           [mkObs 19783 (fin 10); mkObs 19784 (fin 20)]
           (mkObs 19786 (fin 30)) (mkObs 19786 (fin 99))).
  - reflexivity.
  - apply Forall_forall. auto.
  - reflexivity.
  - reflexivity.
  - reflexivity.
Defined.

Lemma existsb_isna_Fin (vs : list float) (i : nat) :
  (i < length vs)%nat -> Forall (fun v => exists q, v = Fin q) vs ->
  cell_isna (Float (vs !!! i)) = false.
Proof.
  intros Hi Hall. apply list_lookup_lookup_total_lt in Hi.
  eapply Forall_lookup_1 in Hall as [q ->]; [|exact Hi]. done.
Qed.

Lemma Forall_Fin (qs : list Qc) : Forall (fun v => exists q, v = Fin q) (map Fin qs).
Proof. induction qs; constructor; eauto. Qed.

Lemma window_full (n : nat) (qs : list Qc) :
  (1 <= n <= length qs)%nat ->
  window_mean n (tail n (NaN :: map Fin qs)) = Fin (Qc_sum (tail n qs) / Qc_of_nat n)%Qc.
Proof.
  intros Hn. pose proof (roll_last_full n qs NaN Hn) as H.
  rewrite shift_1, rolling_last_nonempty in H by done. by injection H.
Qed.

Lemma snoc_cases {A} (l : list A) : l = [] \/ exists l' x, l = l' ++ [x].
Proof. destruct l as [|x l' _] using rev_ind; [by left|right; eauto]. Qed.

Lemma served_cell_present (w : DataFrame) (rs : list obs) (r : obs) (qs : list Qc) :
  rows (sort_by_Date w) = rs ++ [r] -> map AQI rs = map Fin qs -> (14 <= length qs)%nat ->
  forall n, n ∈ feature_cols ->
    exists c, get_col (iloc_last (build_feats_value w)) n = Some [c] /\ cell_isna c = false.
Proof.
  intros Hrows Hrs Hlen.
  assert (Hlrs : length rs = length qs)
    by (by rewrite <- (length_map AQI), Hrs, length_map).
  apply feature_cols_cases.
  - intros L HL. eexists. split; [by apply (served_lag _ rs r)|].
    rewrite Hrs, Hlrs, decide_True by lia.
    apply existsb_isna_Fin; [rewrite length_map; lia|apply Forall_Fin].
  - eexists. split; [apply (served_roll _ rs r 7); auto|].
    by rewrite Hrs, window_full by lia.
  - eexists. split; [apply (served_roll _ rs r 14); auto|].
    by rewrite Hrs, window_full by lia.
  - eexists. split; [apply (served_calendar _ rs r _ dayofweek); auto|done].
  - eexists. split; [apply (served_calendar _ rs r _ month); auto|done].
  - eexists. split; [apply (served_calendar _ rs r _ dayofyear); auto|done].
Qed.

Lemma picked_no_na (df : DataFrame) (names : list string) (k : nat) :
  (forall n, n ∈ names -> exists c, get_col df n = Some [c] /\ cell_isna c = false) ->
  x_isna_any (mkX k (picked df names)) = false.
Proof.
  intros Hcells. unfold x_isna_any; cbn [x_cols].
  apply not_true_is_false. intros ((n & c) & Hin & Hc)%existsb_exists.
  apply list_elem_of_In, list_elem_of_omap in Hin as (n' & Hn & Hget). cbn [snd] in Hc.
  destruct (Hcells n' Hn) as (c' & Hcol & Hfin). rewrite Hcol in Hget.
  injection Hget as <- <-. cbn [existsb] in Hc. by rewrite Hfin in Hc.
Qed.

Lemma served_row_complete (reg : registry) (w : DataFrame) (qs : list Qc) (v : float) :
  FEATURES reg = Some feature_cols ->
  map AQI (rows (sort_by_Date w)) = map Fin qs ++ [v] -> (14 <= length qs)%nat ->
  exists x, features_value reg w = Ok x /\ x_isna_any x = false /\ x_len x = 1%nat.
Proof.
  intros Hschema Hvs Hlen.
  assert (Hnames : Forall (fun n => n ∈ feats_columns) feature_cols).
  { apply Forall_forall. intros n Hn. unfold feats_columns. rewrite !elem_of_cons. auto. }
  destruct (snoc_cases (rows (sort_by_Date w))) as [Hrows|(rs & r & Hrows)].
  { rewrite Hrows in Hvs. by destruct (map Fin qs). }
  assert (Hone : length (tail 1 (rows (sort_by_Date w))) = 1%nat)
    by (by rewrite Hrows, tail_last).
  rewrite Hrows, map_app in Hvs. apply app_inj_tail in Hvs as [Hrs _].
  pose proof (served_cell_present w rs r qs Hrows Hrs Hlen) as Hcells.
  rewrite (features_value_ok reg feature_cols Hschema Hnames w).
  eexists. split; [reflexivity|]. split; [by apply picked_no_na|exact Hone].
Qed.

(** Under the schema of the training script, a working series of at least
    15 entries whose values before the last are all present has a complete
    feature row: the turn emits what the model answers on that row and never
    takes the fallback. *)
Theorem full_history_calls_model (reg : registry) (model : regressor) (last_date step : Z)
    (work : loc) (out : list point) (s : state) (qs : list Qc) (v : float) :
  (work < length (heap s))%nat ->
  FEATURES reg = Some feature_cols ->
  map AQI (rows (sort_by_Date (heap s !!! work))) = map Fin qs ++ [v] ->
  (14 <= length qs)%nat ->
  exists x work' s',
    fst (features_of reg work s) = Ok x /\
    x_isna_any x = false /\
    rollout_step reg model last_date step (work, out) s
    = (Ok (work', out ++ [mkPoint (isoformat (last_date + step)) (model (x_row x 0))]), s').
Proof.
  intros Hwork Hschema Hvs Hlen.
  destruct (served_row_complete reg _ qs v Hschema Hvs Hlen) as (x & Hx & Hna & Hone).
  pose proof (rollout_step_run reg model last_date step work out s Hwork) as Hrun.
  cbv zeta in Hrun. unfold prediction, model_predict in Hrun.
  rewrite Hx, Hna, Hone in Hrun. cbn [seq map] in Hrun.
  exists x. eexists _, _. rewrite features_of_run; cbn [fst].
  split; [exact Hx|]. split; [exact Hna|exact Hrun].
Qed.

Lemma full_history_calls_model_witness :
  exists x work' s',
    fst (features_of stub_registry 0 (store_of ramp)) = Ok x /\
    x_isna_any x = false /\
    rollout_step stub_registry lag1_plus_roll7 19802 1 (0%nat, []) (store_of ramp)
    = (Ok (work', [] ++ [mkPoint (isoformat (19802 + 1)) (lag1_plus_roll7 (x_row x 0))]), s').
Proof.
  apply (full_history_calls_model stub_registry lag1_plus_roll7 19802 1 0 [] (store_of ramp)
           (map (fun i => Qc_of_Z (Z.of_nat i)) (seq 1 19)) (fin 20)).
  - simpl. lia.
  - reflexivity.
  - reflexivity.
  - simpl. lia.
Defined.

(** ** The shape of the feature table *)

Section Shape.
Implicit Types (df w : DataFrame) (l : list (string * list cell)).

Lemma keys_set_assoc {A} (k : string) (v : A) (l : list (string * A)) :
  map fst (set_assoc k v l) = add_key k (map fst l).
Proof.
  unfold add_key. induction l as [|[k' v'] l IH]; [done|].
  cbn [set_assoc map fst existsb].
  destruct (String.eqb k k') eqn:E; cbn [orb map fst].
  - apply String.eqb_eq in E as ->. done.
  - rewrite IH. by destruct (existsb _ _).
Qed.

Lemma keys_with_col k f df :
  map fst (cols (with_col k f df)) = add_key k (map fst (cols df)).
Proof. apply keys_set_assoc. Qed.

Lemma keys_add_lags df Ls :
  map fst (cols (foldl add_lag df Ls))
  = foldl (fun keys L => add_key (lag_name L) keys) (map fst (cols df)) Ls.
Proof.
  revert df. induction Ls as [|L Ls IH]; intros df; [done|]. cbn [foldl].
  rewrite IH. unfold add_lag at 1. by rewrite keys_with_col.
Qed.

Lemma keys_build_feats_value w :
  cols w = [] -> map fst (cols (build_feats_value w)) = feature_cols.
Proof.
  intros Hcols. unfold build_feats_value.
  rewrite !keys_with_col, keys_add_lags.
  assert (cols (sort_by_Date w) = []) as ->
    by (unfold sort_by_Date, take_rows; cbn [cols]; by rewrite Hcols).
  vm_compute. reflexivity.
Qed.

Lemma Forall_set_assoc {A} (P : string * A -> Prop) k v (l : list (string * A)) :
  Forall P l -> P (k, v) -> Forall P (set_assoc k v l).
Proof.
  intros Hl Hkv. induction Hl as [|[k' v'] l Hx Hl IH]; cbn [set_assoc].
  - by repeat constructor.
  - destruct (String.eqb k k'); by constructor.
Qed.

Lemma length_rolling_mean (n : nat) (xs : list float) :
  length (rolling_mean n xs) = length xs.
Proof. unfold rolling_mean. by rewrite length_map, length_seq. Qed.

Lemma rectangular_with_col k f df :
  rectangular df -> length (f df) = length (rows df) -> rectangular (with_col k f df).
Proof. intros Hdf Hf. by apply Forall_set_assoc. Qed.

Lemma rectangular_add_lags df Ls : rectangular df -> rectangular (foldl add_lag df Ls).
Proof.
  revert df. induction Ls as [|L Ls IH]; intros df Hdf; [done|]. cbn [foldl].
  apply IH, rectangular_with_col; [done|].
  unfold lag_values. by rewrite length_map, length_shift, length_map.
Qed.

Lemma rectangular_build_feats_value w : cols w = [] -> rectangular (build_feats_value w).
Proof.
  intros Hcols. unfold build_feats_value.
  repeat (apply rectangular_with_col;
          [|unfold roll_values, calendar_values;
            by rewrite ?length_map, ?length_rolling_mean, ?length_shift, ?length_map]).
  apply rectangular_add_lags. unfold rectangular, sort_by_Date, take_rows; cbn [cols].
  rewrite Hcols. constructor.
Qed.
End Shape.

(** [build_feats] never raises and never writes to a frame it was given: it
    returns a new frame that holds the rows of its argument in
    non-decreasing date order, and leaves every existing frame, its argument
    included, and the cache entry as they were. *)
Theorem build_feats_is_pure (work : loc) (s : state) :
  exists tmp s',
    build_feats work s = (Ok tmp, s') /\
    untouched s s' /\
    (length (heap s) <= tmp)%nat /\
    DATA_df s' = DATA_df s /\ DATA_ts s' = DATA_ts s /\
    rows (heap s' !!! tmp) ≡ₚ rows (heap s !!! work) /\
    Sorted Z.le (map Date (rows (heap s' !!! tmp))).
Proof.
  eexists _, _. split; [apply build_feats_run|]. cbn [heap DATA_df DATA_ts].
  split; [by eapply untouched_app|]. split; [lia|]. split; [done|]. split; [done|].
  replace (S (length (heap s))) with (length (heap s) + 1)%nat by lia.
  rewrite lookup_total_at. cbn [lookup_total list_lookup_total].
  rewrite rows_build_feats_value.
  split; [apply rows_sort_by_Date_Permutation|apply Sorted_rows_sort_by_Date].
Qed.

(** For a series without derived columns, as every working series of a
    request is, the table has exactly the columns of the training schema
    after [Date] and [AQI], in the order of that schema, each as long as the
    series. *)
Theorem feature_table_shape (work : loc) (s : state) :
  cols (heap s !!! work) = [] ->
  exists tmp s',
    build_feats work s = (Ok tmp, s') /\
    map fst (cols (heap s' !!! tmp)) = feature_cols /\
    rectangular (heap s' !!! tmp) /\
    length (rows (heap s' !!! tmp)) = length (rows (heap s !!! work)).
Proof.
  intros Hcols. eexists _, _. split; [apply build_feats_run|]. cbn [heap].
  replace (S (length (heap s))) with (length (heap s) + 1)%nat by lia.
  rewrite lookup_total_at. cbn [lookup_total list_lookup_total].
  split; [by apply keys_build_feats_value|].
  split; [by apply rectangular_build_feats_value|].
  by rewrite rows_build_feats_value, length_rows_sort_by_Date.
Qed.

Lemma feature_table_shape_witness :
  exists tmp s',
    build_feats 0 (store_of five) = (Ok tmp, s') /\
    map fst (cols (heap s' !!! tmp)) = feature_cols /\
    rectangular (heap s' !!! tmp) /\
    length (rows (heap s' !!! tmp)) = length (rows five).
Proof.
  apply (feature_table_shape 0 (store_of five)). reflexivity.
Defined.

(** ** A schema that names an unknown column *)

Lemma assoc_None {A} (n : string) (l : list (string * A)) :
  assoc n l = None <-> n ∉ map fst l.
Proof.
  induction l as [|[k v] l IH]; cbn [assoc map fst].
  - split; [intros _ H; by apply elem_of_nil in H|done].
  - rewrite not_elem_of_cons. destruct (String.eqb n k) eqn:E.
    + apply String.eqb_eq in E as ->. split; [done|]. by intros [? _].
    + apply String.eqb_neq in E. rewrite IH. tauto.
Qed.

Lemma get_col_None (df : DataFrame) (n : string) :
  get_col df n = None <-> n ∉ "Date"%string :: "AQI"%string :: map fst (cols df).
Proof.
  unfold get_col. rewrite !not_elem_of_cons, <- assoc_None.
  destruct (String.eqb n "Date") eqn:E1.
  { apply String.eqb_eq in E1. split; [done|]. by intros [? _]. }
  destruct (String.eqb n "AQI") eqn:E2.
  { apply String.eqb_eq in E2. split; [done|]. by intros (_ & ? & _). }
  apply String.eqb_neq in E1, E2. tauto.
Qed.

Lemma keys_iloc_last (df : DataFrame) : map fst (cols (iloc_last df)) = map fst (cols df).
Proof.
  unfold iloc_last; cbn [cols]. induction (cols df) as [|[k v] l IH]; [done|].
  cbn [map fst]. by rewrite IH.
Qed.

Lemma features_value_missing (reg : registry) (names : list string) (w : DataFrame) :
  FEATURES reg = Some names -> cols w = [] ->
  filter (fun n => n ∉ feats_columns) names <> [] ->
  features_value reg w = Raise (KeyError (filter (fun n => n ∉ feats_columns) names)).
Proof.
  intros Hschema Hcols Hmiss. unfold features_value. rewrite Hschema, select_Some.
  assert (filter (fun n => get_col (iloc_last (build_feats_value w)) n = None) names
          = filter (fun n => n ∉ feats_columns) names) as ->.
  { apply filter_ext_in. intros n _.
    by rewrite get_col_None, keys_iloc_last, keys_build_feats_value. }
  by destruct (filter _ names).
Qed.

(** When the schema left in [FEATURES] names columns that the feature table
    does not have, the rollout for a non-empty history raises [KeyError] with
    exactly those names, in schema order, at its first turn: no point is
    produced and the model is not called. *)
Theorem unknown_column_raises (reg : registry) (model : regressor) (division : string)
    (hist : loc) (s : state) (names : list string) :
  FEATURES reg = Some names ->
  cols (heap s !!! hist) = [] -> rows (heap s !!! hist) <> [] ->
  filter (fun n => n ∉ feats_columns) names <> [] ->
  fst (forecast reg model division hist s)
  = Raise (KeyError (filter (fun n => n ∉ feats_columns) names)).
Proof.
  intros Hschema Hcols Hrows Hmiss.
  destruct (forecast_run reg model division hist s) as [ext ->]. cbn [fst].
  unfold forecast_value, empty. destruct (rows (heap s !!! hist)); [done|].
  cbn [seq map rollout_value]. unfold prediction.
  by rewrite (features_value_missing reg names).
Qed.

Lemma unknown_column_raises_witness :
  fst (forecast (mkRegistry ∅ (Some ["lag_1"; "lag_15"; "roll7"; "temp"]%string))
         lag1_plus_roll7 "Dhaka" 0 (store_of ramp))
  = Raise (KeyError ["lag_15"; "temp"]%string).
Proof.
  apply (unknown_column_raises _ lag1_plus_roll7 "Dhaka" 0 (store_of ramp)
           ["lag_1"; "lag_15"; "roll7"; "temp"]%string).
  - reflexivity.
  - reflexivity.
  - discriminate.
  - vm_compute. discriminate.
Defined.

(** ** The dates of the working series *)

Section Dates.
Implicit Types (df w : DataFrame) (l : list Z).

Lemma foldr_max_ge (t : Z) l : t <= foldr Z.max t l /\ forall d, d ∈ l -> d <= foldr Z.max t l.
Proof.
  induction l as [|d l [IHt IHl]]; cbn [foldr].
  - split; [lia|]. intros d Hd. by apply elem_of_nil in Hd.
  - split; [lia|]. intros d' [->|Hd']%elem_of_cons; [lia|]. specialize (IHl d' Hd'). lia.
Qed.

Lemma foldr_max_in (t : Z) l : foldr Z.max t l ∈ t :: l.
Proof.
  induction l as [|d l IH]; cbn [foldr]; [left|].
  destruct (Z.max_spec d (foldr Z.max t l)) as [[_ ->]|[_ ->]].
  - apply elem_of_cons in IH as [->|IH]; [left|by do 2 right].
  - right. left.
Qed.

Lemma Date_max_ge df t : t ∈ map Date (rows df) -> t <= Date_max df.
Proof.
  unfold Date_max. destruct (map Date (rows df)) as [|t0 l]; [by intros ?%elem_of_nil|].
  destruct (foldr_max_ge t0 l) as [H0 Hl].
  intros [->|Hin]%elem_of_cons; [done|by apply Hl].
Qed.

Lemma Date_max_in df : rows df <> [] -> Date_max df ∈ map Date (rows df).
Proof.
  unfold Date_max. destruct (rows df) as [|r rs]; [done|]. intros _. cbn [map].
  apply foldr_max_in.
Qed.

Lemma Date_max_unique df m :
  m ∈ map Date (rows df) -> (forall t, t ∈ map Date (rows df) -> t <= m) -> Date_max df = m.
Proof.
  intros Hin Hle. pose proof (Date_max_ge df m Hin).
  assert (rows df <> []) as Hne by (intros E; rewrite E in Hin; by apply elem_of_nil in Hin).
  pose proof (Hle _ (Date_max_in df Hne)). lia.
Qed.

Lemma Sorted_le_last l t : Sorted Z.le (l ++ [t]) -> forall d, d ∈ l -> d <= t.
Proof.
  intros Hs%Sorted_StronglySorted; [|intros ???; lia].
  induction l as [|d0 l IH]; intros d Hd; [by apply elem_of_nil in Hd|].
  cbn [app] in Hs. apply StronglySorted_inv in Hs as [Hs Hall].
  apply elem_of_cons in Hd as [->|Hd]; [|by apply IH].
  eapply Forall_forall in Hall; [exact Hall|]. apply elem_of_app. right. left.
Qed.

(** The last row of the table belongs to the latest date of the series. *)
Lemma last_sorted_row_is_latest w rs r :
  rows (sort_by_Date w) = rs ++ [r] -> Date r = Date_max w.
Proof.
  intros Hrows. symmetry.
  pose proof (Sorted_rows_sort_by_Date w) as Hs. rewrite Hrows, map_app in Hs.
  assert (Hperm : map Date (rows w) ≡ₚ map Date rs ++ [Date r]).
  { change (map Date ?x) with (Date <$> x).
    rewrite <- (rows_sort_by_Date_Permutation w), Hrows. by rewrite fmap_app. }
  apply Date_max_unique.
  - rewrite Hperm. apply elem_of_app. right. left.
  - intros t. rewrite Hperm. intros [Ht|Ht%list_elem_of_singleton]%elem_of_app; [|lia].
    by apply (Sorted_le_last _ _ Hs).
Qed.
End Dates.

(** The calendar fields of the row handed to the model are those of the
    latest date already in the series, not of the date being predicted. *)
Theorem calendar_fields_of_latest_date (work : loc) (s : state) :
  rows (heap s !!! work) <> [] ->
  exists tmp s',
    build_feats work s = (Ok tmp, s') /\
    get_col (iloc_last (heap s' !!! tmp)) "dow"
    = Some [Int (dayofweek (Date_max (heap s !!! work)))] /\
    get_col (iloc_last (heap s' !!! tmp)) "mon"
    = Some [Int (month (Date_max (heap s !!! work)))] /\
    get_col (iloc_last (heap s' !!! tmp)) "doy"
    = Some [Int (dayofyear (Date_max (heap s !!! work)))].
Proof.
  intros Hne. eexists _, _. split; [apply build_feats_run|]. cbn [heap].
  replace (S (length (heap s))) with (length (heap s) + 1)%nat by lia.
  rewrite lookup_total_at. cbn [lookup_total list_lookup_total].
  destruct (snoc_cases (rows (sort_by_Date (heap s !!! work)))) as [E|(rs & r & Hrows)].
  { apply (f_equal length) in E. rewrite length_rows_sort_by_Date in E.
    by destruct (rows (heap s !!! work)). }
  rewrite <- (last_sorted_row_is_latest _ rs r Hrows).
  rewrite (served_calendar _ rs r _ dayofweek), (served_calendar _ rs r _ month),
    (served_calendar _ rs r _ dayofyear) by auto.
  done.
Qed.

Lemma calendar_fields_of_latest_date_witness :
  exists tmp s',
    build_feats 0 (store_of gap_series) = (Ok tmp, s') /\
    get_col (iloc_last (heap s' !!! tmp)) "dow" = Some [Int (dayofweek (Date_max gap_series))] /\
    get_col (iloc_last (heap s' !!! tmp)) "mon" = Some [Int (month (Date_max gap_series))] /\
    get_col (iloc_last (heap s' !!! tmp)) "doy" = Some [Int (dayofyear (Date_max gap_series))].
Proof.
  apply (calendar_fields_of_latest_date 0 (store_of gap_series)). discriminate.
Defined.

Lemma Date_max_rows (df df' : DataFrame) : rows df = rows df' -> Date_max df = Date_max df'.
Proof. unfold Date_max. by intros ->. Qed.

Lemma Date_max_after_turns (w w' : DataFrame) (k : nat) (ps : list float) :
  rows w <> [] -> length ps = k ->
  rows w' = rows w ++ zip_with (fun i p => mkObs (Date_max w + i) p)
                               (map Z.of_nat (seq 1 k)) ps ->
  Date_max w' = Date_max w + Z.of_nat k.
Proof.
  intros Hne Hlen Hrows. destruct k as [|k].
  { destruct ps; [|done]. cbn in Hrows. rewrite app_nil_r in Hrows.
    rewrite (Date_max_rows _ _ Hrows). lia. }
  apply Date_max_unique; rewrite Hrows, map_app.
  - apply elem_of_app. right. apply list_elem_of_In, in_map_iff.
    destruct (lookup_lt_is_Some_2 ps k) as [p Hp]; [lia|].
    exists (mkObs (Date_max w + Z.of_nat (S k)) p). split; [done|].
    apply list_elem_of_In, list_elem_of_lookup. exists k.
    apply lookup_zip_with_Some. exists (Z.of_nat (S k)), p. split; [done|]. split; [|done].
    change (map Z.of_nat ?l) with (Z.of_nat <$> l).
    rewrite list_lookup_fmap, lookup_seq_lt by lia. done.
  - intros t [Ht|Ht]%elem_of_app.
    + apply Date_max_ge in Ht. lia.
    + apply list_elem_of_In, in_map_iff in Ht as (r & <- & Hr).
      apply list_elem_of_In, list_elem_of_lookup in Hr as [j Hj].
      apply lookup_zip_with_Some in Hj as (i & p & -> & Hi & _).
      change (map Z.of_nat ?l) with (Z.of_nat <$> l) in Hi.
      rewrite list_lookup_fmap in Hi.
      destruct (seq 1 (S k) !! j) as [n|] eqn:Hn; [|done]. injection Hi as <-.
      apply lookup_seq in Hn as [-> Hj]. cbn [Date]. lia.
Qed.

(** When the rollout starts from the latest date of a non-empty series, its
    working series ends, after [k] turns, on day [last_date + k]: the turn
    that predicts day [last_date + k + 1] builds its features for the row of
    the day before. *)
Theorem working_series_ends_before_target (reg : registry) (model : regressor) (k : nat)
    (work work' : loc) (out out' : list point) (s s' : state) :
  (work < length (heap s))%nat ->
  rows (heap s !!! work) <> [] ->
  for_ (map Z.of_nat (seq 1 k)) (rollout_step reg model (Date_max (heap s !!! work)))
       (work, out) s = (Ok (work', out'), s') ->
  Date_max (heap s' !!! work') = Date_max (heap s !!! work) + Z.of_nat k.
Proof.
  intros Hwork Hne Hrun.
  destruct (rollout_run reg model (Date_max (heap s !!! work)) (map Z.of_nat (seq 1 k))
              work out s Hwork) as (ext & Hs & Hr).
  rewrite Hrun in Hs, Hr; cbn [fst snd] in Hs, Hr. destruct Hr as [_ Hv].
  apply rollout_value_series in Hv as (ps & Hlen & Hrows & _).
  rewrite Hs; cbn [heap]. rewrite length_map, length_seq in Hlen.
  by apply (Date_max_after_turns _ _ k ps).
Qed.

Lemma working_series_ends_before_target_witness :
  Date_max (heap (snd (for_ (map Z.of_nat (seq 1 2))
                            (rollout_step stub_registry lag1_plus_roll7 (Date_max ramp))
                            (0%nat, []) (store_of ramp))) !!! 8%nat)
  = Date_max ramp + Z.of_nat 2.
Proof.
  apply (working_series_ends_before_target stub_registry lag1_plus_roll7 2 0 8 []
           (match fst (for_ (map Z.of_nat (seq 1 2))
                            (rollout_step stub_registry lag1_plus_roll7 (Date_max ramp))
                            (0%nat, []) (store_of ramp))
            with Ok acc => snd acc | Raise _ => [] end)
           (store_of ramp)).
  - simpl. lia.
  - discriminate.
  - vm_compute. reflexivity.
Defined.

Lemma Sorted_snoc_le (l : list Z) (t : Z) :
  Sorted Z.le l -> (forall d, d ∈ l -> d <= t) -> Sorted Z.le (l ++ [t]).
Proof.
  induction 1 as [|d l Hs IH Hhd]; intros Hle; cbn [app]; [by repeat constructor|].
  constructor.
  - apply IH. intros d' Hd'. apply Hle. by right.
  - destruct Hhd as [|d' l' Hdd']; cbn [app]; constructor; [|done].
    apply Hle. left.
Qed.

Lemma rows_sorted_after_turn (w : DataFrame) (step : Z) (p : float) :
  Sorted Z.le (map Date (rows w)) -> 0 <= step ->
  rows (sort_by_Date (concat_row w (Date_max w + step) p))
  = rows w ++ [mkObs (Date_max w + step) p] /\
  Sorted Z.le (map Date (rows (concat_row w (Date_max w + step) p))).
Proof.
  intros Hs Hstep.
  assert (Hs' : Sorted Z.le (map Date (rows (concat_row w (Date_max w + step) p)))).
  { unfold concat_row; cbn [rows]. rewrite map_app. cbn [map Date].
    apply Sorted_snoc_le; [done|]. intros d Hd%Date_max_ge. lia. }
  split; [|done]. by rewrite rows_sort_by_Date_sorted.
Qed.

(** A prediction is fed back one turn late: after a turn on a series in date
    order, the [lag_1] field of the next turn is the value that was last in
    the series before the turn, not the value the turn has just predicted
    and appended. *)
Theorem feedback_is_one_turn_late (reg : registry) (model : regressor) (step : Z)
    (work work' : loc) (out out' : list point) (s s' : state) (rs : list obs) (r : obs) :
  (work < length (heap s))%nat ->
  rows (heap s !!! work) = rs ++ [r] ->
  Sorted Z.le (map Date (rs ++ [r])) ->
  0 <= step ->
  rollout_step reg model (Date_max (heap s !!! work)) step (work, out) s
  = (Ok (work', out'), s') ->
  exists p tmp s'',
    out' = out ++ [mkPoint (isoformat (Date_max (heap s !!! work) + step)) p] /\
    rows (heap s' !!! work') = rs ++ [r; mkObs (Date_max (heap s !!! work) + step) p] /\
    build_feats work' s' = (Ok tmp, s'') /\
    get_col (iloc_last (heap s'' !!! tmp)) "lag_1" = Some [Float (AQI r)].
Proof.
  intros Hwork Hrows Hsorted Hstep Hrun.
  rewrite (rollout_step_run reg model _ step work out s Hwork) in Hrun. cbv zeta in Hrun.
  destruct (prediction reg model (heap s !!! work)) as [p|e]; [|done].
  injection Hrun as <- <- <-. exists p. eexists _, _.
  split; [done|]. cbn [heap]. rewrite (lookup_total_at (heap s) _ 3).
  cbn [lookup_total list_lookup_total].
  split; [unfold concat_row; cbn [rows]; by rewrite Hrows, <- app_assoc|].
  split; [apply build_feats_run|]. cbn [heap].
  rewrite length_app. cbn [length].
  replace (S (length (heap s) + 4)) with (length (heap s ++ [heap s !!! work;
    build_feats_value (heap s !!! work); iloc_last (build_feats_value (heap s !!! work));
    concat_row (heap s !!! work) (Date_max (heap s !!! work) + step) p]) + 1)%nat
    by (rewrite length_app; cbn [length]; lia).
  rewrite lookup_total_at. cbn [lookup_total list_lookup_total].
  rewrite (lookup_total_at (heap s) _ 3). cbn [lookup_total list_lookup_total].
  destruct (rows_sorted_after_turn (heap s !!! work) step p) as [Hsort _];
    [by rewrite Hrows|done|].
  rewrite Hrows in Hsort.
  change "lag_1" with (lag_name 1).
  rewrite (served_lag _ (rs ++ [r]) _ 1 Hsort) by lia.
  rewrite decide_True by (rewrite length_app; simpl; lia).
  rewrite length_app, map_app. cbn [length map].
  replace (length rs + 1 - 1)%nat with (length (map AQI rs) + 0)%nat
    by (rewrite length_map; lia).
  by rewrite lookup_total_app_r, Nat.add_0_r, Nat.sub_diag by lia.
Qed.

Lemma feedback_is_one_turn_late_witness :
  let run := rollout_step stub_registry lag1_plus_roll7 (Date_max ramp) 1 (0%nat, [])
               (store_of ramp) in
  exists p tmp s'',
    match fst run with Ok acc => snd acc | Raise _ => [] end
    = [] ++ [mkPoint (isoformat (Date_max ramp + 1)) p] /\
    rows (heap (snd run) !!! 4%nat)
    = map (fun i => mkObs (19783 + Z.of_nat i) (fin (Z.of_nat (S i)))) (seq 0 19)
      ++ [mkObs 19802 (fin 20); mkObs (Date_max ramp + 1) p] /\
    build_feats 4 (snd run) = (Ok tmp, s'') /\
    get_col (iloc_last (heap s'' !!! tmp)) "lag_1" = Some [Float (fin 20)].
Proof.
  intros run.
  apply (feedback_is_one_turn_late stub_registry lag1_plus_roll7 1 0 4 []
           (match fst run with Ok acc => snd acc | Raise _ => [] end)
           (store_of ramp) (snd run)
           (map (fun i => mkObs (19783 + Z.of_nat i) (fin (Z.of_nat (S i)))) (seq 0 19))
           (mkObs 19802 (fin 20))).
  - simpl. lia.
  - reflexivity.
  - apply (bool_decide_unpack _). vm_compute. reflexivity.
  - lia.
  - vm_compute. reflexivity.
Defined.

(** ** A request answered from the cache *)

Lemma Date_max_Permutation (df df' : DataFrame) :
  rows df ≡ₚ rows df' -> Date_max df = Date_max df'.
Proof.
  intros Hp. destruct (rows df') as [|r' rs'] eqn:Hr'.
  { apply Permutation_nil_r in Hp. unfold Date_max. by rewrite Hp, Hr'. }
  assert (Hne' : rows df' <> []) by by rewrite Hr'.
  rewrite <- Hr' in Hp. apply Date_max_unique.
  - rewrite Hp. by apply Date_max_in.
  - intros t Ht. rewrite Hp in Ht. by apply Date_max_ge.
Qed.

(** A request for a division that has a model and rows in a cached sheet
    that is still fresh is answered without reading the sheet again: the
    answer names the stripped division and holds 7 points dated with the 7
    days after the latest date among the rows of that city, whatever order
    the sheet has them in; the cache entry and every frame of the store stay
    as they were. *)
Theorem fresh_cache_request_answered (reg : registry) (CACHE_SECS now : Z)
    (sheet : result DataFrame) (request : string) (s : state) (df_all : loc)
    (model : regressor) (names : list string) (city : list cell) :
  strip request ∈ DIVS ->
  MODELS reg !! strip request = Some model ->
  FEATURES reg = Some names ->
  Forall (fun n => n ∈ feats_columns) names ->
  DATA_df s = Some df_all ->
  now - DATA_ts s <= CACHE_SECS ->
  get_col (heap s !!! df_all) "City" = Some city ->
  length city = length (rows (heap s !!! df_all)) ->
  rows_of_city (strip request) city (rows (heap s !!! df_all)) <> [] ->
  exists resp s',
    predict reg CACHE_SECS now sheet request s = (Ok resp, s') /\
    division resp = strip request /\
    forecast_days resp = 7 /\
    map date (predictions resp)
    = map (fun k => isoformat
             (Date_max (mkDF (rows_of_city (strip request) city (rows (heap s !!! df_all))) [])
              + k)) [1; 2; 3; 4; 5; 6; 7] /\
    DATA_df s' = Some df_all /\ DATA_ts s' = DATA_ts s /\ untouched s s'.
Proof.
  intros Hdiv Hmodel Hschema Hnames Hdf Hfresh Hcity Hlen Hsome.
  rewrite (predict_reaches _ _ _ _ _ _ _ Hdiv Hmodel).
  assert (Hc : get_data_cached CACHE_SECS now sheet s = (Ok df_all, s)).
  { unfold get_data_cached. rewrite Hdf.
    by replace (CACHE_SECS <? now - DATA_ts s) with false by (symmetry; apply Z.ltb_ge; lia). }
  erewrite bind_ok by exact Hc.
  destruct (extract_hist_run df_all (strip request) s) as (ext & Hrun & Hext).
  unfold hist_value in Hrun, Hext. rewrite Hcity in Hrun, Hext.
  destruct (Hext _ eq_refl) as [Hh _].
  erewrite bind_ok by exact Hrun.
  set (s1 := mkState (heap s ++ ext) (DATA_df s) (DATA_ts s)).
  destruct (forecast_run reg model (strip request) (length (heap s) + 3) s1) as [ext' ->].
  subst s1; cbn [heap DATA_df DATA_ts]. rewrite Hh.
  set (hist := Date_AQI _).
  assert (Hp : rows hist ≡ₚ rows_of_city (strip request) city (rows (heap s !!! df_all))).
  { subst hist. cbn [Date_AQI rows]. rewrite rows_sort_by_Date_Permutation.
    by rewrite rows_take_rows_mask. }
  assert (Hne : rows hist <> []).
  { intros E. rewrite E in Hp. by apply Permutation_nil_l in Hp. }
  unfold forecast_value, empty.
  destruct (rows hist) eqn:Hr; [done|]. rewrite <- Hr in *.
  destruct (rollout_value_ok reg model names Hschema Hnames
              (Date_max hist) (map Z.of_nat (seq 1 7)) hist [] Hne)
    as (w' & out' & -> & Hd).
  eexists _, _. split; [reflexivity|].
  cbn [division forecast_days predictions snd DATA_df DATA_ts heap].
  split; [done|]. split; [done|]. split.
  { cbn [map app] in Hd. rewrite Hd.
    by rewrite (Date_max_Permutation hist (mkDF _ []) Hp). }
  split; [done|]. split; [done|].
  apply (untouched_app s _ (ext ++ ext')). cbn [heap]. by rewrite app_assoc.
Qed.

Lemma fresh_cache_request_answered_witness :
  let sheet_frame :=
    mkDF [mkObs 19803 (fin 5); mkObs 19801 (fin 3); mkObs 19802 (fin 4)]
         [("City"%string, [Str "Dhaka"; Str "Sylhet"; Str "Dhaka"])] in
  let s := mkState [sheet_frame] (Some 0%nat) 1000 in
  exists resp s',
    predict stub_registry 1800 2000 (Raise (RuntimeError "SHEET_CSV_URL not set"))
            " Dhaka " s = (Ok resp, s') /\
    division resp = "Dhaka"%string /\
    forecast_days resp = 7 /\
    map date (predictions resp)
    = map (fun k => isoformat (19803 + k)) [1; 2; 3; 4; 5; 6; 7] /\
    DATA_df s' = Some 0%nat /\ DATA_ts s' = 1000 /\ untouched s s'.
Proof.
  intros sheet_frame s.
  apply (fresh_cache_request_answered stub_registry 1800 2000
           (Raise (RuntimeError "SHEET_CSV_URL not set")) " Dhaka " s 0 lag1_plus_roll7
           feature_cols [Str "Dhaka"; Str "Sylhet"; Str "Dhaka"]).
  - apply (bool_decide_unpack _). vm_compute. reflexivity.
  - vm_compute. reflexivity.
  - reflexivity.
  - apply (bool_decide_unpack _). vm_compute. reflexivity.
  - reflexivity.
  - simpl. lia.
  - reflexivity.
  - reflexivity.
  - vm_compute. discriminate.
Defined.

(** ** The served row and the training table *)


Lemma tail_1_lookup (c : list cell) (k : nat) :
  length c = S k -> tail 1 c !!! 0%nat = c !!! k.
Proof.
  intros Hc. unfold tail. rewrite Hc.
  replace (S k - 1)%nat with k by lia.
  rewrite !list_lookup_total_alt, lookup_drop. by rewrite Nat.add_0_r.
Qed.


(** ** Masks and concatenation *)

Section Keep.
Context {A : Type}.
Implicit Types (m : list bool) (xs : list A).

Lemma keep_nil_r m : keep m ([] : list A) = [].
Proof. unfold keep. by destruct m. Qed.

Lemma keep_cons b m (x : A) xs :
  keep (b :: m) (x :: xs) = if b then x :: keep m xs else keep m xs.
Proof.
  unfold keep. cbn [zip zip_with]. rewrite filter_cons. cbn [fst].
  destruct b; case_decide; done.
Qed.

Lemma keep_app m1 m2 xs1 xs2 :
  length m1 = length xs1 ->
  keep (m1 ++ m2) (xs1 ++ xs2) = keep m1 xs1 ++ keep m2 xs2.
Proof.
  intros Hlen. unfold keep.
  by rewrite zip_with_app, filter_app, map_app by done.
Qed.

Lemma keep_replicate_true n xs : (length xs <= n)%nat -> keep (replicate n true) xs = xs.
Proof.
  revert n. induction xs as [|x xs IH]; intros n Hn; [apply keep_nil_r|].
  destruct n as [|n]; [simpl in Hn; lia|]. cbn [replicate]. rewrite keep_cons.
  f_equal. apply IH. simpl in Hn. lia.
Qed.

Lemma keep_replicate_false n xs : keep (replicate n false) xs = [].
Proof.
  revert n. induction xs as [|x xs IH]; intros n; [apply keep_nil_r|].
  destruct n as [|n]; [done|]. cbn [replicate]. by rewrite keep_cons.
Qed.

Lemma keep_drop a b xs :
  length xs = (a + b)%nat -> keep (replicate a false ++ replicate b true) xs = drop a xs.
Proof.
  intros Hlen. rewrite <- (take_drop a xs) at 1.
  rewrite keep_app by (rewrite length_replicate, length_take; lia).
  rewrite keep_replicate_false, keep_replicate_true; [done|].
  rewrite length_drop. lia.
Qed.

Lemma Forall_keep (P : A -> Prop) m xs : Forall P xs -> Forall P (keep m xs).
Proof.
  intros H. revert m. induction H as [|x xs Hx _ IH]; intros m; [by rewrite keep_nil_r|].
  destruct m as [|b m']; [done|]. rewrite keep_cons. destruct b; [constructor|]; auto.
Qed.

Lemma pick_mask_keep m xs :
  length m = length xs -> pick (mask_index m) xs = keep m xs.
Proof.
  intros Hlen. unfold pick, mask_index, keep.
  assert (G : forall (pre : list A) m' xs', length m' = length xs' ->
    omap (fun i => (pre ++ xs') !! i)
         (map snd (filter (fun bi => fst bi = true) (zip m' (seq (length pre) (length m')))))
    = map snd (filter (fun bx => fst bx = true) (zip m' xs'))).
  { clear m xs Hlen. intros pre m. revert pre. induction m as [|b m IH]; intros pre [|x xs] Hlen;
      try done.
    cbn [length seq zip zip_with]. rewrite !filter_cons. cbn [fst].
    specialize (IH (pre ++ [x]) xs). rewrite length_app, <- app_assoc in IH.
    cbn [length app] in IH. rewrite Nat.add_1_r in IH.
    destruct b; case_decide; try done.
    - cbn [map omap list_omap snd]. rewrite lookup_app_r, Nat.sub_diag by lia.
      cbn. f_equal. apply IH. simpl in Hlen. lia.
    - apply IH. simpl in Hlen. lia. }
  exact (G [] m xs Hlen).
Qed.
End Keep.

Lemma length_keep {A B} (m : list bool) (xs : list A) (ys : list B) :
  length xs = length ys -> length (keep m xs) = length (keep m ys).
Proof.
  revert xs ys. induction m as [|b m IH]; intros [|x xs] [|y ys] Hlen; try done.
  rewrite !keep_cons. destruct b; cbn [length]; rewrite (IH xs ys); try done;
    simpl in Hlen; lia.
Qed.


Lemma keep_map {A B} (f : A -> B) m (xs : list A) : keep m (map f xs) = map f (keep m xs).
Proof.
  revert m. induction xs as [|x xs IH]; intros m; [cbn [map]; by rewrite !keep_nil_r|].
  destruct m as [|b m]; [by unfold keep|]. cbn [map]. rewrite !keep_cons.
  destruct b; cbn [map]; by rewrite IH.
Qed.

Lemma keep_concat {A} (ds : list string) (m : string -> list bool) (c : string -> list A) :
  (forall d, d ∈ ds -> length (m d) = length (c d)) ->
  keep (concat (map m ds)) (concat (map c ds)) = concat (map (fun d => keep (m d) (c d)) ds).
Proof.
  induction ds as [|d ds IH]; intros Hlen; [done|]. cbn [map concat].
  rewrite keep_app by (apply Hlen; left). f_equal.
  apply IH. intros d' Hd'. apply Hlen. by right.
Qed.

Lemma concat_select {A} (ds : list string) (d : string) (x : string -> list A) :
  NoDup ds -> d ∈ ds ->
  concat (map (fun d' => if decide (d' = d) then x d' else []) ds) = x d.
Proof.
  induction 1 as [|d0 ds Hnin Hnd IH]; [by intros ?%elem_of_nil|].
  cbn [map concat]. intros [->|Hin]%elem_of_cons.
  - rewrite decide_True by done.
    assert (concat (map (fun d' => if decide (d' = d0) then x d' else []) ds) = []) as ->;
      [|by rewrite app_nil_r].
    clear IH Hnd. induction ds as [|d1 ds IH]; [done|]. cbn [map concat].
    rewrite decide_False by (intros ->; apply Hnin; left).
    apply IH. intros Hd. apply Hnin. by right.
  - rewrite decide_False by (intros ->; done). by apply IH.
Qed.

(** Selecting the rows of one division from a concatenation of per-division
    blocks that was filtered block by block gives back the filtered block
    of that division. *)
Lemma keep_division {A} (ds : list string) (d : string) (c : string -> list A)
    (m : string -> list bool) (cty : string -> list cell) :
  NoDup ds -> d ∈ ds ->
  (forall d', d' ∈ ds -> length (m d') = length (c d') /\ length (cty d') = length (c d') /\
                         Forall (fun x => x = Str d') (cty d')) ->
  keep (map (cell_eqb (Str d)) (keep (concat (map m ds)) (concat (map cty ds))))
       (keep (concat (map m ds)) (concat (map c ds)))
  = keep (m d) (c d).
Proof.
  intros Hnd Hd Hall.
  rewrite !keep_concat by (intros d' Hd'; destruct (Hall d' Hd') as (? & ? & ?); congruence).
  assert (Hm : map (cell_eqb (Str d)) (concat (map (fun d' => keep (m d') (cty d')) ds))
               = concat (map (fun d' => replicate (length (keep (m d') (c d')))
                                                  (bool_decide (d' = d))) ds)).
  { clear Hnd Hd. induction ds as [|d0 ds IH]; [done|]. cbn [map concat].
    rewrite map_app. f_equal; [|apply IH; intros d' Hd'; apply Hall; by right].
    destruct (Hall d0) as (Hm0 & Hc0 & Hf0); [left|].
    rewrite (length_keep (m d0) (c d0) (cty d0)) by done.
    pose proof (Forall_keep _ (m d0) _ Hf0) as Hk. clear -Hk.
    induction Hk as [|x xs -> _ IH]; [done|]. cbn [map length replicate]. f_equal; [|done].
    cbn [cell_eqb]. case_bool_decide as E.
    - subst. apply String.eqb_refl.
    - apply String.eqb_neq. congruence. }
  rewrite Hm.
  rewrite (keep_concat ds (fun d' => replicate (length (keep (m d') (c d'))) (bool_decide (d' = d)))
             (fun d' => keep (m d') (c d'))) by (intros; by rewrite length_replicate).
  rewrite <- (concat_select ds d (fun d' => keep (m d') (c d')) Hnd Hd).
  f_equal. apply map_ext. intros d'. case_bool_decide; rewrite ?decide_True, ?decide_False by done.
  - by apply keep_replicate_true.
  - apply keep_replicate_false.
Qed.

(** ** Frames under selection and concatenation *)

Lemma pick_nil {A} (idx : list nat) : pick idx ([] : list A) = [].
Proof. unfold pick. induction idx as [|i idx IH]; [done|]. cbn. by rewrite IH. Qed.

Lemma pick_map {A B} (f : A -> B) (idx : list nat) (xs : list A) :
  pick idx (map f xs) = map f (pick idx xs).
Proof.
  unfold pick. induction idx as [|i idx IH]; [done|]. cbn [omap list_omap].
  rewrite list_lookup_fmap, IH. by destruct (xs !! i).
Qed.

Lemma get_col_take_rows (idx : list nat) (df : DataFrame) (name : string) :
  get_col (take_rows idx df) name = pick idx <$> get_col df name.
Proof.
  unfold get_col, take_rows; cbn [rows cols].
  destruct (String.eqb name "Date");
    [cbn [fmap option_fmap option_map]; by rewrite pick_map|].
  destruct (String.eqb name "AQI");
    [cbn [fmap option_fmap option_map]; by rewrite pick_map|].
  apply assoc_map_snd.
Qed.

Lemma column_take_rows (idx : list nat) (df : DataFrame) (name : string) :
  column (take_rows idx df) name = pick idx (column df name).
Proof.
  unfold column. rewrite get_col_take_rows.
  destruct (get_col df name); [done|]. cbn [fmap option_fmap option_map default].
  by rewrite pick_nil.
Qed.

Lemma forallb_ext_in {A} (f g : A -> bool) (l : list A) :
  (forall x, x ∈ l -> f x = g x) -> forallb f l = forallb g l.
Proof.
  induction l as [|x l IH]; intros H; [done|]. cbn [forallb].
  rewrite (H x) by left. f_equal. apply IH. intros y Hy. apply H. by right.
Qed.

Lemma map_concat {A B} (f : A -> B) (ls : list (list A)) :
  map f (concat ls) = concat (map (map f) ls).
Proof. induction ls as [|l ls IH]; [done|]. cbn [concat map]. by rewrite map_app, IH. Qed.

(** The mask of complete rows of a concatenation is made of the masks of
    its blocks. *)
Lemma notna_blocks (S : list string) (ds : list string)
    (cl : string -> string -> list cell) (nr : string -> nat) :
  (forall n d, n ∈ S -> d ∈ ds -> length (cl n d) = nr d) ->
  map (fun i => forallb (fun n => negb (cell_isna (concat (map (cl n) ds) !!! i))) S)
      (seq 0 (sum_list (map nr ds)))
  = concat (map (fun d => map (fun i => forallb (fun n => negb (cell_isna (cl n d !!! i))) S)
                              (seq 0 (nr d))) ds).
Proof.
  induction ds as [|d ds IH]; intros Hlen; [done|].
  cbn [map concat sum_list sum_list_with]. rewrite seq_app, map_app. f_equal.
  - apply map_ext_in. intros i Hi%in_seq. apply forallb_ext_in. intros n Hn.
    rewrite lookup_total_app_l; [done|]. rewrite (Hlen n d Hn) by left. lia.
  - rewrite <- IH by (intros n d' Hn Hd'; apply Hlen; [done|by right]).
    replace (0 + id (nr d))%nat with (nr d + 0)%nat by (unfold id; lia).
    rewrite <- (fmap_add_seq (nr d) 0).
    change (fmap (M:=list)) with (@map nat nat). rewrite map_map. apply map_ext. intros i.
    apply forallb_ext_in. intros n Hn.
    rewrite lookup_total_app_r by (rewrite (Hlen n d Hn) by left; lia).
    rewrite (Hlen n d Hn) by left. do 3 f_equal. lia.
Qed.

(** Frames whose derived columns are [K], each as long as the frame. *)
Lemma assoc_of_keys {A} (name : string) (l : list (string * A)) :
  name ∈ map fst l -> exists c, assoc name l = Some c /\ (name, c) ∈ l.
Proof.
  induction l as [|[k v] l IH]; [by intros ?%elem_of_nil|]. cbn [map fst assoc].
  destruct (String.eqb name k) eqn:E.
  - apply String.eqb_eq in E as ->. intros _. exists v. split; [done|left].
  - intros [->|Hin]%elem_of_cons; [by rewrite String.eqb_refl in E|].
    destruct (IH Hin) as (c & Hc & Hel). exists c. split; [done|by right].
Qed.

Lemma column_of_keys (df : DataFrame) (name : string) :
  rectangular df -> derived name = true -> name ∈ map fst (cols df) ->
  exists c, assoc name (cols df) = Some c /\ get_col df name = Some c /\
            column df name = c /\ col_or_nan df name = c /\
            length c = length (rows df).
Proof.
  intros Hrect Hder Hin. destruct (assoc_of_keys name (cols df) Hin) as (c & Hc & Hel).
  exists c. unfold column, col_or_nan, get_col.
  apply andb_prop in Hder as [H1%negb_true_iff H2%negb_true_iff].
  rewrite H1, H2, Hc. repeat split; try done.
  unfold rectangular in Hrect. eapply Forall_forall in Hrect; [|exact Hel]. done.
Qed.

Lemma filter_all {A} (P : A -> Prop) `{!forall x, Decision (P x)} (l : list A) :
  Forall P l -> filter P l = l.
Proof.
  induction 1 as [|x l Hx _ IH]; [done|]. by rewrite filter_cons_True, IH.
Qed.

Lemma filter_none {A} (P : A -> Prop) `{!forall x, Decision (P x)} (l : list A) :
  Forall (fun x => ~ P x) l -> filter P l = [].
Proof.
  induction 1 as [|x l Hx _ IH]; [done|]. by rewrite filter_cons_False.
Qed.

Lemma union_keys_same (K : list string) (dfs : list DataFrame) :
  dfs <> [] -> Forall (fun df => map fst (cols df) = K) dfs -> union_keys dfs = K.
Proof.
  intros Hne Hall. unfold union_keys.
  assert (Hin : filter (fun k => k ∉ K) K = []).
  { apply filter_none, Forall_forall. intros k Hk Hnk. done. }
  assert (G : forall dfs', Forall (fun df => map fst (cols df) = K) dfs' ->
            foldl (fun acc df => acc ++ filter (fun k => k ∉ acc) (map fst (cols df))) K dfs'
            = K).
  { clear Hne Hall. induction 1 as [|df dfs' Hdf _ IH]; [done|].
    cbn [foldl]. by rewrite Hdf, Hin, app_nil_r. }
  destruct Hall as [|df dfs Hdf Hall]; [done|]. cbn [foldl app].
  rewrite Hdf, filter_all by (apply Forall_forall; by intros k _ ?%elem_of_nil).
  by apply G.
Qed.

Lemma assoc_tabulate {A} (g : string -> A) (ks : list string) (name : string) :
  name ∈ ks -> assoc name (map (fun k => (k, g k)) ks) = Some (g name).
Proof.
  induction ks as [|k ks IH]; [by intros ?%elem_of_nil|]. cbn [map assoc].
  destruct (String.eqb name k) eqn:E.
  - apply String.eqb_eq in E as ->. done.
  - intros [->|Hin]%elem_of_cons; [by rewrite String.eqb_refl in E|]. by apply IH.
Qed.

Lemma column_concat_frames (K : list string) (dfs : list DataFrame) (name : string) :
  dfs <> [] ->
  Forall (fun df => map fst (cols df) = K /\ rectangular df) dfs ->
  derived name = true -> name ∈ K ->
  get_col (concat_frames dfs) name = Some (concat (map (fun df => column df name) dfs)).
Proof.
  intros Hne Hall Hder Hin.
  unfold get_col. apply andb_prop in Hder as Hd. destruct Hd as [H1%negb_true_iff H2%negb_true_iff].
  rewrite H1, H2. unfold concat_frames; cbn [cols].
  assert (Hkeys : Forall (fun df => map fst (cols df) = K) dfs)
    by (eapply Forall_impl; [exact Hall|]; by intros ? [? ?]).
  rewrite (union_keys_same K) by done.
  rewrite assoc_tabulate by done. do 2 f_equal.
  apply map_ext_in. intros df Hdf%list_elem_of_In.
  eapply Forall_forall in Hall as [Hk Hrect]; [|exact Hdf].
  destruct (column_of_keys df name Hrect Hder) as (c & _ & _ & -> & -> & _); [by rewrite Hk|done].
Qed.

Lemma column_concat_frames_AQI (dfs : list DataFrame) :
  column (concat_frames dfs) "AQI" = concat (map (fun df => column df "AQI") dfs).
Proof.
  unfold column, get_col, concat_frames; cbn [rows String.eqb Ascii.eqb Bool.eqb default].
  rewrite map_concat, map_map. done.
Qed.

(** ** The rows of the feature table *)

Lemma shift_lookup_lt (L : nat) (vs : list float) (i : nat) :
  (i < L)%nat -> (i < length vs)%nat -> shift L vs !!! i = NaN.
Proof.
  intros HL Hi. apply list_lookup_total_correct. unfold shift.
  rewrite lookup_take_lt, lookup_app_l by (rewrite ?length_replicate; lia).
  by apply lookup_replicate_2.
Qed.

Lemma shift_lookup_ge (L : nat) (qs : list Qc) (i : nat) :
  (L <= i)%nat -> (i < length qs)%nat ->
  exists q, shift L (map Fin qs) !!! i = Fin q.
Proof.
  intros HL Hi. destruct (lookup_lt_is_Some_2 qs (i - L)) as [q Hq]; [lia|].
  exists q. apply list_lookup_total_correct. unfold shift.
  rewrite length_map, lookup_take_lt, lookup_app_r by (rewrite ?length_replicate; lia).
  by rewrite length_replicate, list_lookup_fmap, Hq.
Qed.

Lemma rolling_lookup (w : nat) (xs : list float) (i : nat) :
  (i < length xs)%nat ->
  rolling_mean w xs !!! i = window_mean w (tail w (take (S i) xs)).
Proof.
  intros Hi. apply list_lookup_total_correct. unfold rolling_mean.
  rewrite list_lookup_fmap.
  assert (seq 0 (length xs) !! i = Some i) as -> by (by apply lookup_seq).
  done.
Qed.

Lemma rolling_lookup_full (w : nat) (qs : list Qc) (i : nat) :
  (1 <= w <= i)%nat -> (i < length qs)%nat ->
  exists q, rolling_mean w (shift 1 (map Fin qs)) !!! i = Fin q.
Proof.
  intros Hw Hi. rewrite rolling_lookup by (rewrite length_shift, length_map; lia).
  unfold shift. rewrite length_map, take_take.
  replace (S i `min` length qs)%nat with (S i) by lia.
  cbn [replicate app take]. rewrite <- fmap_take.
  change (fmap (M:=list) Fin) with (map Fin).
  rewrite window_full by (rewrite length_take; lia). by eexists.
Qed.

Lemma get_col_add_lags_ne (name : string) (df : DataFrame) (Ls : list nat) :
  forallb (fun L => negb (String.eqb name (lag_name L))) Ls = true ->
  get_col (foldl add_lag df Ls) name = get_col df name.
Proof.
  revert df. induction Ls as [|L Ls IH]; intros df; [done|]. cbn [forallb foldl].
  intros [HL%negb_true_iff Hall]%andb_prop. rewrite IH by done.
  unfold add_lag. by apply get_col_with_col_ne.
Qed.

Lemma Forall_pick {A} (P : A -> Prop) (idx : list nat) (xs : list A) :
  Forall P xs -> Forall P (pick idx xs).
Proof.
  intros Hxs. apply Forall_forall. intros x (i & _ & Hi)%list_elem_of_omap.
  eapply Forall_forall; [exact Hxs|]. by eapply list_elem_of_lookup_2.
Qed.

Lemma rectangular_sort_by_Date (w : DataFrame) : rectangular w -> rectangular (sort_by_Date w).
Proof.
  unfold rectangular, sort_by_Date, take_rows; cbn [rows cols]. intros Hw.
  apply Forall_map. eapply Forall_impl; [exact Hw|]. intros [k c] Hc; cbn [fst snd] in *.
  assert (Hidx : forall (A : Type) (xs : list A), length xs = length (rows w) ->
            length (pick (argsort (map Date (rows w))) xs) = length (rows w)).
  { intros A xs Hxs. rewrite length_pick.
    - by rewrite argsort_Permutation, length_seq, length_map.
    - rewrite argsort_Permutation, length_map. apply Forall_forall.
      intros i Hi%elem_of_seq. lia. }
  by rewrite !Hidx.
Qed.

Lemma rectangular_build_feats_value_of (w : DataFrame) :
  rectangular w -> rectangular (build_feats_value w).
Proof.
  intros Hw. unfold build_feats_value.
  repeat (apply rectangular_with_col;
          [|unfold roll_values, calendar_values;
            by rewrite ?length_map, ?length_rolling_mean, ?length_shift, ?length_map]).
  by apply rectangular_add_lags, rectangular_sort_by_Date.
Qed.

(** A table built from a frame that carries the [City] column. *)
Section CityTable.
Variables (w : DataFrame) (c : list cell).
Hypothesis Hcols : cols w = [("City"%string, c)].
Hypothesis Hlen : length c = length (rows w).

Lemma city_rectangular : rectangular w.
Proof. unfold rectangular. rewrite Hcols. by repeat constructor. Qed.

Lemma city_table_keys :
  map fst (cols (build_feats_value w)) = "City"%string :: feature_cols.
Proof.
  unfold build_feats_value. rewrite !keys_with_col, keys_add_lags.
  assert (map fst (cols (sort_by_Date w)) = ["City"%string]) as ->
    by (unfold sort_by_Date, take_rows; cbn [cols]; by rewrite Hcols).
  vm_compute. reflexivity.
Qed.

Lemma city_table_rectangular : rectangular (build_feats_value w).
Proof. apply rectangular_build_feats_value_of, city_rectangular. Qed.

Lemma city_table_City (P : cell -> Prop) :
  Forall P c ->
  exists c', get_col (build_feats_value w) "City" = Some c' /\
             length c' = length (rows (build_feats_value w)) /\ Forall P c'.
Proof.
  intros HP. unfold build_feats_value at 1.
  rewrite !get_col_with_col_ne by reflexivity.
  rewrite get_col_add_lags_ne by (vm_compute; reflexivity).
  unfold sort_by_Date. rewrite get_col_take_rows.
  unfold get_col; cbn [String.eqb Ascii.eqb Bool.eqb]. rewrite Hcols. cbn [assoc String.eqb].
  rewrite ?String.eqb_refl. cbn [fmap option_fmap option_map]. eexists. split; [reflexivity|].
  split; [|by apply Forall_pick].
  rewrite rows_build_feats_value.
  pose proof (rectangular_sort_by_Date w city_rectangular) as Hr.
  unfold rectangular, sort_by_Date, take_rows in Hr; cbn [rows cols] in Hr.
  rewrite Hcols in Hr. cbn [map] in Hr. apply Forall_cons in Hr as [Hr _].
  exact Hr.
Qed.
End CityTable.

(** ** Complete rows *)

Lemma map_const_replicate {A B} (f : A -> B) (b : B) (l : list A) :
  (forall x, x ∈ l -> f x = b) -> map f l = replicate (length l) b.
Proof.
  induction l as [|x l IH]; intros H; [done|]. cbn [map length replicate].
  rewrite (H x) by left. f_equal. apply IH. intros y Hy. apply H. by right.
Qed.

Lemma column_Some (df : DataFrame) (name : string) (c : list cell) :
  get_col df name = Some c -> column df name = c.
Proof. unfold column. by intros ->. Qed.

Lemma map_lookup_total {A B} `{!Inhabited A, !Inhabited B} (f : A -> B) (l : list A) (i : nat) :
  (i < length l)%nat -> map f l !!! i = f (l !!! i).
Proof. apply list_lookup_total_fmap. Qed.

Section Complete.
Variables (w : DataFrame) (qs : list Qc).
Hypothesis Hvals : map AQI (rows (sort_by_Date w)) = map Fin qs.

Lemma complete_length : length (rows (sort_by_Date w)) = length qs.
Proof. by rewrite <- (length_map AQI), Hvals, length_map. Qed.

Lemma complete_cell (i : nat) :
  (14 <= i < length qs)%nat ->
  forall n, n ∈ feature_cols ++ ["AQI"%string] ->
    cell_isna (column (build_feats_value w) n !!! i) = false.
Proof.
  intros Hi n [Hn|Hn%list_elem_of_singleton]%elem_of_app.
  - revert n Hn. apply feature_cols_cases.
    + intros L HL. rewrite (column_Some _ _ _ (lag_col w L HL)), Hvals.
      rewrite map_lookup_total by (rewrite length_shift, length_map; lia).
      destruct (shift_lookup_ge L qs i) as [q ->]; [lia|lia|done].
    + rewrite (column_Some _ _ _ (roll_col w 7 "roll7" (or_introl (conj eq_refl eq_refl)))), Hvals.
      rewrite map_lookup_total
        by (rewrite length_rolling_mean, length_shift, length_map; lia).
      destruct (rolling_lookup_full 7 qs i) as [q ->]; [lia|lia|done].
    + rewrite (column_Some _ _ _ (roll_col w 14 "roll14" (or_intror (conj eq_refl eq_refl)))), Hvals.
      rewrite map_lookup_total
        by (rewrite length_rolling_mean, length_shift, length_map; lia).
      destruct (rolling_lookup_full 14 qs i) as [q ->]; [lia|lia|done].
    + rewrite (column_Some _ _ _ (calendar_col w "dow" dayofweek (or_introl (conj eq_refl eq_refl)))).
      by rewrite map_lookup_total by (rewrite length_map, complete_length; lia).
    + rewrite (column_Some _ _ _ (calendar_col w "mon" month
                 (or_intror (or_introl (conj eq_refl eq_refl))))).
      by rewrite map_lookup_total by (rewrite length_map, complete_length; lia).
    + rewrite (column_Some _ _ _ (calendar_col w "doy" dayofyear
                 (or_intror (or_intror (conj eq_refl eq_refl))))).
      by rewrite map_lookup_total by (rewrite length_map, complete_length; lia).
  - subst n.
    rewrite (column_Some _ "AQI" (map (fun r => Float (AQI r)) (rows (build_feats_value w))))
      by reflexivity.
    rewrite rows_build_feats_value.
    rewrite <- (map_map AQI Float), Hvals.
    rewrite map_lookup_total by (rewrite length_map; lia).
    apply existsb_isna_Fin; [rewrite length_map; lia|apply Forall_Fin].
Qed.

Lemma row_notna_spec (i : nat) :
  (i < length qs)%nat ->
  row_notna (feature_cols ++ ["AQI"%string]) (build_feats_value w) i = (14 <=? i)%nat.
Proof.
  intros Hi. unfold row_notna. destruct (14 <=? i)%nat eqn:E.
  - apply Nat.leb_le in E. apply forallb_forall. intros n Hn%list_elem_of_In.
    rewrite complete_cell; [done|lia|done].
  - apply Nat.leb_gt in E. apply not_true_is_false. intros Hall.
    rewrite forallb_forall in Hall.
    specialize (Hall (lag_name 14)).
    rewrite (column_Some _ _ _ (lag_col w 14 ltac:(lia))) in Hall.
    rewrite map_lookup_total in Hall by (rewrite length_shift, length_map, complete_length; lia).
    rewrite shift_lookup_lt in Hall by (rewrite ?length_map, ?complete_length; lia).
    discriminate Hall. apply list_elem_of_In. unfold feature_cols.
    apply elem_of_app. left. apply elem_of_app. left.
    apply list_elem_of_In, in_map, in_seq. lia.
Qed.

(** The complete rows of a table whose values are all present are those
    from the 15th on. *)
Lemma complete_mask :
  map (row_notna (feature_cols ++ ["AQI"%string]) (build_feats_value w))
      (seq 0 (length (rows (build_feats_value w))))
  = replicate (14 `min` length qs) false ++ replicate (length qs - 14) true.
Proof.
  rewrite rows_build_feats_value, complete_length.
  replace (length qs) with ((14 `min` length qs) + (length qs - 14))%nat at 1 by lia.
  rewrite seq_app, map_app. f_equal.
  - rewrite (map_const_replicate _ false), length_seq; [done|].
    intros i Hi%elem_of_seq. rewrite row_notna_spec by lia. apply Nat.leb_gt. lia.
  - rewrite (map_const_replicate _ true), length_seq; [done|].
    intros i Hi%elem_of_seq. rewrite row_notna_spec by lia. apply Nat.leb_le. lia.
Qed.
End Complete.

(** ** The training set of a division *)

Lemma all_finite (rs : list obs) :
  Forall (fun r => AQI r <> NaN) rs -> map AQI rs = map Fin (finite (map AQI rs)).
Proof.
  induction 1 as [|r rs Hr _ IH]; [done|]. cbn [map].
  destruct (AQI r) as [q|] eqn:E; [|done]. cbn [finite map]. by f_equal.
Qed.

Lemma Sorted_drop (k : nat) (l : list Z) : Sorted Z.le l -> Sorted Z.le (drop k l).
Proof.
  intros Hs. revert k. induction Hs as [|x l Hs IH Hhd]; intros [|k]; cbn [drop];
    [constructor|constructor|by constructor|apply IH].
Qed.

Lemma feature_col_rows (w1 w2 : DataFrame) :
  rows (sort_by_Date w1) = rows (sort_by_Date w2) ->
  forall n, n ∈ feature_cols ->
    get_col (build_feats_value w1) n = get_col (build_feats_value w2) n.
Proof.
  intros E. apply feature_cols_cases.
  - intros L HL. by rewrite !lag_col, E.
  - rewrite !(roll_col _ 7 "roll7") by (by left). by rewrite E.
  - rewrite !(roll_col _ 14 "roll14") by (by right). by rewrite E.
  - rewrite !(calendar_col _ "dow" dayofweek) by (by left). by rewrite E.
  - rewrite !(calendar_col _ "mon" month) by (right; by left). by rewrite E.
  - rewrite !(calendar_col _ "doy" dayofyear) by (right; by right). by rewrite E.
Qed.

Lemma x_row_picked_ext (df1 df2 : DataFrame) (names : list string) (i j a b : nat) :
  (forall n, n ∈ names ->
     exists c1 c2, get_col df1 n = Some c1 /\ get_col df2 n = Some c2 /\ c1 !!! i = c2 !!! j) ->
  x_row (mkX a (picked df1 names)) i = x_row (mkX b (picked df2 names)) j.
Proof.
  unfold x_row, picked; cbn [x_cols].
  induction names as [|n names IH]; intros Hall; [done|].
  destruct (Hall n) as (c1 & c2 & H1 & H2 & E); [left|].
  cbn [omap list_omap]. rewrite H1, H2.
  cbn [fmap option_fmap option_map map fst snd]. rewrite E. f_equal.
  apply IH. intros n' Hn'. apply Hall. by right.
Qed.

Lemma keep_map_Forall {A} (f : A -> bool) (xs : list A) :
  Forall (fun x => f x = true) (keep (map f xs) xs).
Proof.
  induction xs as [|x xs IH]; [by rewrite keep_nil_r|]. cbn [map]. rewrite keep_cons.
  destruct (f x) eqn:E; [by constructor|done].
Qed.

Lemma length_concat_map {A B} (ds : list string) (f : string -> list A) (g : string -> list B) :
  (forall d, d ∈ ds -> length (f d) = length (g d)) ->
  length (concat (map f ds)) = length (concat (map g ds)).
Proof.
  induction ds as [|d ds IH]; intros H; [done|]. cbn [map concat].
  rewrite !length_app, (H d) by left. f_equal. apply IH. intros d' Hd'. apply H. by right.
Qed.

Lemma feature_cols_derived : Forall (fun n => derived n = true) ("City"%string :: feature_cols).
Proof. apply Forall_forall. intros n Hn%list_elem_of_In. revert n Hn. apply forallb_forall. by vm_compute. Qed.

Lemma NoDup_DIVS : NoDup DIVS.
Proof. apply (bool_decide_unpack _). by vm_compute. Qed.

Section TrainingSet.
Variables (df : DataFrame) (city : list cell).
Hypothesis Hcols : cols df = [("City"%string, city)].
Hypothesis Hlen : length city = length (rows df).

Local Abbreviation table d := (build_feats_value (city_part city d df)).
Local Abbreviation subset := (feature_cols ++ ["AQI"%string]).
Local Abbreviation feat :=
  (concat_frames (map (fun d => add_features (city_part city d df) 14) DIVS)).
Local Abbreviation mask d :=
  (map (row_notna subset (table d)) (seq 0 (length (rows (table d))))).

Lemma part_cols d :
  cols (city_part city d df)
  = [("City"%string, pick (mask_index (map (cell_eqb (Str d)) city)) city)].
Proof. unfold city_part, take_rows; cbn [cols]. by rewrite Hcols. Qed.

Lemma part_length d :
  length (pick (mask_index (map (cell_eqb (Str d)) city)) city)
  = length (rows (city_part city d df)).
Proof.
  unfold city_part, take_rows; cbn [rows].
  rewrite !pick_mask_keep by (by rewrite length_map). by apply length_keep.
Qed.

Lemma part_city d :
  Forall (fun x => x = Str d) (pick (mask_index (map (cell_eqb (Str d)) city)) city).
Proof.
  rewrite pick_mask_keep by (by rewrite length_map).
  eapply Forall_impl; [apply keep_map_Forall|]. intros [| | |s]; cbn [cell_eqb]; try done.
  by intros ->%String.eqb_eq.
Qed.

Lemma table_keys d : map fst (cols (table d)) = "City"%string :: feature_cols.
Proof. exact (city_table_keys _ _ (part_cols d)). Qed.

Lemma table_rectangular d : rectangular (table d).
Proof. exact (city_table_rectangular _ _ (part_cols d) (part_length d)). Qed.

Lemma table_City d :
  exists c, get_col (table d) "City" = Some c /\
            length c = length (rows (table d)) /\ Forall (fun x => x = Str d) c.
Proof. exact (city_table_City _ _ (part_cols d) (part_length d) _ (part_city d)). Qed.

Lemma table_column d n :
  n ∈ "AQI"%string :: "City"%string :: feature_cols ->
  get_col (table d) n = Some (column (table d) n) /\
  length (column (table d) n) = length (rows (table d)).
Proof.
  intros [->|Hn]%elem_of_cons.
  - split; [done|]. unfold column, get_col; cbn [String.eqb Ascii.eqb Bool.eqb].
    cbv [default from_option id]. by rewrite length_map.
  - pose proof feature_cols_derived as Hd. eapply Forall_forall in Hd; [|exact Hn].
    destruct (column_of_keys (table d) n (table_rectangular d) Hd)
      as (c & _ & Hg & Hc & _ & Hl); [by rewrite table_keys|].
    by rewrite Hc.
Qed.

Lemma feat_rows : rows feat = concat (map (fun d => rows (table d)) DIVS).
Proof. unfold concat_frames; cbn [rows]. by rewrite map_map. Qed.

Lemma parts_full :
  Forall (fun F => map fst (cols F) = "City"%string :: feature_cols /\ rectangular F)
         (map (fun d => add_features (city_part city d df) 14) DIVS).
Proof.
  apply Forall_map, Forall_forall. intros d _. cbn beta. split.
  - apply table_keys.
  - apply table_rectangular.
Qed.

Lemma feat_column n :
  n ∈ "AQI"%string :: "City"%string :: feature_cols ->
  get_col feat n = Some (concat (map (fun d => column (table d) n) DIVS)).
Proof.
  intros [->|Hn]%elem_of_cons.
  - transitivity (Some (column feat "AQI")); [done|].
    by rewrite column_concat_frames_AQI, map_map.
  - pose proof feature_cols_derived as Hd. eapply Forall_forall in Hd; [|exact Hn].
    rewrite (column_concat_frames ("City"%string :: feature_cols)); [|done|apply parts_full|done|done].
    by rewrite map_map.
Qed.

Lemma feat_feature_cols : train_feature_cols feat = feature_cols.
Proof.
  unfold train_feature_cols, columns.
  assert (map fst (cols feat) = "City"%string :: feature_cols) as ->.
  { unfold concat_frames; cbn [cols]. rewrite map_map; cbn [fst]. rewrite map_id.
    apply union_keys_same; [done|].
    eapply Forall_impl; [apply parts_full|]. by intros ? [? ?]. }
  by vm_compute.
Qed.

Lemma feat_mask :
  map (row_notna subset feat) (seq 0 (length (rows feat)))
  = concat (map (fun d => mask d) DIVS).
Proof.
  rewrite feat_rows, length_concat.
  change (fmap (M:=list) length) with (@map (list obs) nat length). rewrite map_map.
  assert (H : forall n d, n ∈ subset -> d ∈ DIVS ->
                length (column (table d) n) = length (rows (table d))).
  { intros n d Hn _. apply table_column.
    apply elem_of_app in Hn as [Hn|Hn%list_elem_of_singleton]; [by do 2 right|subst; left]. }
  etransitivity;
    [|exact (notna_blocks subset DIVS (fun n d => column (table d) n)
               (fun d => length (rows (table d))) H)].
  apply map_ext. intros i. unfold row_notna. apply forallb_ext_in. intros n Hn.
  assert (Hn' : n ∈ "AQI"%string :: "City"%string :: feature_cols).
  { apply elem_of_app in Hn as [Hn|Hn%list_elem_of_singleton];
      [by do 2 right|subst; left]. }
  by rewrite (column_Some _ _ _ (feat_column n Hn')).
Qed.

Lemma feat_dropna :
  dropna subset feat = Ok (take_rows (mask_index (concat (map (fun d => mask d) DIVS))) feat).
Proof.
  unfold dropna. rewrite filter_none, feat_mask; [done|].
  apply Forall_forall. intros n Hn. rewrite feat_column; [done|].
  apply elem_of_app in Hn as [Hn|Hn%list_elem_of_singleton]; [by do 2 right|subst; left].
Qed.

Lemma training_table_run :
  training_table df
  = Ok (feature_cols, take_rows (mask_index (concat (map (fun d => mask d) DIVS))) feat).
Proof.
  unfold training_table.
  assert (get_col df "City" = Some city) as ->.
  { unfold get_col; cbn [String.eqb Ascii.eqb Bool.eqb]. rewrite Hcols. done. }
  cbv zeta. by rewrite feat_feature_cols, feat_dropna.
Qed.
Local Abbreviation kept := (concat (map (fun d => mask d) DIVS)).
Local Abbreviation feat' := (take_rows (mask_index kept) feat).
Local Abbreviation city' :=
  (pick (mask_index kept) (concat (map (fun d => column (table d) "City") DIVS))).

Lemma dropped_City : get_col feat' "City" = Some city'.
Proof. by rewrite get_col_take_rows, feat_column by (right; left). Qed.

Variable d : string.
Hypothesis Hd : d ∈ DIVS.

(** The rows of [d] in the table after [dropna] are the complete rows of
    the table of [d]. *)
Lemma pick_division {A} (c : string -> list A) :
  (forall d', length (c d') = length (rows (table d'))) ->
  pick (mask_index (map (cell_eqb (Str d)) city'))
       (pick (mask_index kept) (concat (map c DIVS)))
  = keep (mask d) (c d).
Proof.
  intros Hc.
  assert (Hcity : forall d', length (column (table d') "City") = length (rows (table d')))
    by (intros d'; apply table_column; right; left).
  assert (Hk : forall (B : Type) (g : string -> list B),
            (forall d', length (g d') = length (rows (table d'))) ->
            length kept = length (concat (map g DIVS))).
  { intros B g Hg. apply length_concat_map. intros d' _.
    by rewrite length_map, length_seq, Hg. }
  rewrite !(pick_mask_keep kept) by by apply Hk.
  rewrite pick_mask_keep
    by (rewrite length_map; apply length_keep;
        by rewrite <- (Hk _ _ Hcity), <- (Hk _ _ Hc)).
  apply keep_division; [apply NoDup_DIVS|done|].
  intros d' _. split; [by rewrite length_map, length_seq, Hc|].
  split; [by rewrite Hc, Hcity|].
  destruct (table_City d') as (c0 & Hg & _ & Hall).
  by rewrite (column_Some _ _ _ Hg).
Qed.

Lemma division_rows :
  rows (city_part city' d feat') = keep (mask d) (rows (table d)).
Proof.
  unfold city_part, take_rows, concat_frames; cbn [rows]. rewrite map_map.
  by apply (pick_division (fun d' => rows (table d'))).
Qed.

Lemma division_column n :
  n ∈ "AQI"%string :: "City"%string :: feature_cols ->
  get_col (city_part city' d feat') n = Some (keep (mask d) (column (table d) n)).
Proof.
  intros Hn. unfold city_part. rewrite !get_col_take_rows, feat_column by done.
  cbn [fmap option_fmap option_map]. f_equal.
  apply (pick_division (fun d' => column (table d') n)).
  intros d'. by apply table_column.
Qed.

Variable qs : list Qc.
Hypothesis Hvals : map AQI (rows (sort_by_Date (city_part city d df))) = map Fin qs.

Local Abbreviation short := (14 `min` length qs)%nat.
Local Abbreviation cdf := (sort_by_Date (city_part city' d feat')).

Lemma table_length : length (rows (table d)) = length qs.
Proof. rewrite rows_build_feats_value. by apply complete_length. Qed.

Lemma complete_rows_of_division :
  rows (city_part city' d feat') = drop short (rows (sort_by_Date (city_part city d df))).
Proof.
  rewrite division_rows, (complete_mask _ qs Hvals), rows_build_feats_value.
  apply keep_drop. rewrite (complete_length _ qs Hvals). lia.
Qed.

Lemma complete_column_of_division n :
  n ∈ "AQI"%string :: "City"%string :: feature_cols ->
  get_col (city_part city' d feat') n = Some (drop short (column (table d) n)).
Proof.
  intros Hn. rewrite division_column, (complete_mask _ qs Hvals) by done. f_equal.
  apply keep_drop. destruct (table_column d n Hn) as [_ ->]. rewrite table_length. lia.
Qed.

Lemma cdf_rows : rows cdf = drop short (rows (sort_by_Date (city_part city d df))).
Proof.
  rewrite rows_sort_by_Date_sorted; [apply complete_rows_of_division|].
  rewrite complete_rows_of_division, <- skipn_map.
  apply Sorted_drop, Sorted_rows_sort_by_Date.
Qed.

Lemma cdf_length : length (rows cdf) = (length qs - 14)%nat.
Proof. rewrite cdf_rows, length_drop, (complete_length _ qs Hvals). lia. Qed.

Lemma cdf_column n :
  n ∈ "AQI"%string :: "City"%string :: feature_cols ->
  get_col cdf n = Some (drop short (column (table d) n)).
Proof.
  intros Hn. unfold sort_by_Date at 1.
  rewrite get_col_take_rows, complete_column_of_division by done.
  cbn [fmap option_fmap option_map]. f_equal.
  rewrite argsort_sorted.
  2:{ rewrite complete_rows_of_division, <- skipn_map.
      apply Sorted_drop, Sorted_rows_sort_by_Date. }
  rewrite length_map, complete_rows_of_division.
  replace (length (drop short (rows (sort_by_Date (city_part city d df)))))
    with (length (drop short (column (table d) n))); [apply pick_seq|].
  rewrite !length_drop. destruct (table_column d n Hn) as [_ ->].
  by rewrite rows_build_feats_value.
Qed.

(** What the script does for the division [d]: it skips it when fewer than
    120 rows are complete, and else fits on the complete rows. *)
Lemma training_set_run :
  training_set df d
  = if (length qs - 14 <? 120)%nat then Ok None
    else Ok (Some (mkX (length qs - 14) (picked cdf feature_cols), map AQI (rows cdf))).
Proof.
  unfold training_set. rewrite training_table_run, dropped_City. cbv zeta.
  rewrite cdf_length. destruct (length qs - 14 <? 120)%nat; [done|].
  rewrite select_ok, cdf_length; [done|].
  apply Forall_forall. intros n Hn. rewrite cdf_column; [done|by do 2 right].
Qed.

Lemma last_training_pair (reg : registry) (rs : list obs) (r : obs) :
  FEATURES reg = Some feature_cols ->
  rows (sort_by_Date (city_part city d df)) = rs ++ [r] ->
  (134 <= length qs)%nat ->
  exists set row,
    training_set df d = Ok (Some set) /\
    x_len (fst set) = (length qs - 14)%nat /\
    length (snd set) = (length qs - 14)%nat /\
    first_turn_row reg (Date_AQI (sort_by_Date (city_part city d df))) = Some row /\
    training_pair set (length qs - 15) = Some (row, AQI r).
Proof.
  intros Hschema Hrows Hn.
  set (hist := Date_AQI (sort_by_Date (city_part city d df))).
  assert (Hnames : Forall (fun n => n ∈ feats_columns) feature_cols).
  { apply Forall_forall. intros n Hn'. unfold feats_columns. by do 2 right. }
  assert (Hhist : rows (sort_by_Date hist) = rs ++ [r]).
  { rewrite rows_sort_by_Date_sorted; [exact Hrows|]. apply Sorted_rows_sort_by_Date. }
  assert (Hlenqs : length qs = S (length rs)).
  { rewrite <- (complete_length _ qs Hvals), Hrows, length_app. simpl. lia. }
  assert (Hrs : map AQI rs = map Fin (take (length rs) qs)).
  { rewrite Hrows, map_app in Hvals. apply (f_equal (take (length rs))) in Hvals.
    rewrite take_app_length' in Hvals by (by rewrite length_map).
    by rewrite Hvals, <- fmap_take. }
  exists (mkX (length qs - 14) (picked cdf feature_cols), map AQI (rows cdf)).
  exists (x_row (mkX (length (tail 1 (rows (sort_by_Date hist))))
                     (picked (iloc_last (build_feats_value hist)) feature_cols)) 0).
  split; [|split; [|split; [|split]]].
  - rewrite training_set_run.
    by replace (length qs - 14 <? 120)%nat with false by (symmetry; apply Nat.ltb_ge; lia).
  - done.
  - cbn [snd]. by rewrite length_map, cdf_length.
  - unfold first_turn_row. rewrite features_of_run. cbn [fst store_of heap].
    change ([hist] !!! 0%nat) with hist.
    rewrite (features_value_ok reg feature_cols Hschema Hnames).
    rewrite (picked_no_na _ feature_cols); [done|].
    apply (served_cell_present hist rs r (take (length rs) qs) Hhist Hrs).
    rewrite length_take. lia.
  - unfold training_pair; cbn [fst snd].
    assert (Hy : map AQI (rows cdf) !! (length qs - 15)%nat = Some (AQI r)).
    { rewrite cdf_rows, list_lookup_fmap, lookup_drop, Hrows.
      replace (short + (length qs - 15))%nat with (length rs + 0)%nat by lia.
      by rewrite lookup_app_r, Nat.add_comm, Nat.add_sub by lia. }
    rewrite Hy. cbn [fmap option_fmap option_map]. do 2 f_equal.
    apply x_row_picked_ext. intros n Hn'.
    destruct (table_column d n) as [Hg Hl]; [by do 2 right|].
    exists (drop short (column (table d) n)), (tail 1 (column (table d) n)).
    split; [apply cdf_column; by do 2 right|]. split.
    + rewrite get_col_iloc_last.
      rewrite (feature_col_rows hist (city_part city d df)
                 (eq_trans Hhist (eq_sym Hrows)) n Hn').
      by rewrite Hg.
    + rewrite lookup_total_drop, (tail_1_lookup _ (length rs)).
      * f_equal. lia.
      * rewrite Hl, table_length. lia.
Qed.

Lemma training_set_cases :
  ((length qs < 134)%nat /\ training_set df d = Ok None) \/
  ((134 <= length qs)%nat /\
   exists x y, training_set df d = Ok (Some (x, y)) /\
               x_len x = (length qs - 14)%nat /\ length y = (length qs - 14)%nat /\
               map fst (x_cols x) = feature_cols).
Proof.
  rewrite training_set_run. destruct (length qs - 14 <? 120)%nat eqn:E.
  - left. apply Nat.ltb_lt in E. split; [lia|done].
  - right. apply Nat.ltb_ge in E. split; [lia|]. eexists _, _. split; [done|].
    cbn [x_len x_cols]. split; [done|]. split; [by rewrite length_map, cdf_length|].
    apply picked_names, Forall_forall. intros n Hn.
    rewrite cdf_column; [done|by do 2 right].
Qed.
End TrainingSet.

Lemma division_values (df : DataFrame) (city : list cell) (d : string) :
  length city = length (rows df) ->
  Forall (fun r => AQI r <> NaN) (rows df) ->
  exists qs,
    map AQI (rows (sort_by_Date (city_part city d df))) = map Fin qs /\
    length qs = length (rows_of_city d city (rows df)).
Proof.
  intros Hlen Hfin.
  set (R := rows (sort_by_Date (city_part city d df))).
  assert (Hperm : R ≡ₚ rows (city_part city d df)) by apply rows_sort_by_Date_Permutation.
  assert (HR : Forall (fun r => AQI r <> NaN) R).
  { rewrite Hperm. unfold city_part, take_rows; cbn [rows]. by apply Forall_pick. }
  exists (finite (map AQI R)). split; [by apply all_finite|].
  rewrite <- (length_map Fin), <- all_finite, length_map by done.
  rewrite Hperm. unfold city_part. by rewrite rows_take_rows_mask.
Qed.

(** For a division that the training script trains, the row handed to the
    model on the first turn of a forecast is, field by field, the last row
    of the division's training set, and the script has labelled that row
    with the value of the last observation itself: the model is asked for
    the day it was trained to answer with a value already observed.  The
    sheet is the cleaned one, without missing values, the same for the script
    and the service; the division has the 134 observations that leave 120
    complete rows. *)
Theorem served_row_is_a_training_row (reg : registry) (df : DataFrame)
    (city : list cell) (d : string) :
  FEATURES reg = Some feature_cols ->
  cols df = [("City"%string, city)] ->
  length city = length (rows df) ->
  d ∈ DIVS ->
  Forall (fun r => AQI r <> NaN) (rows df) ->
  (134 <= length (rows_of_city d city (rows df)))%nat ->
  exists hist set row r,
    hist_value d df = Ok hist /\
    last (rows hist) = Some r /\
    training_set df d = Ok (Some set) /\
    length (snd set) = (length (rows_of_city d city (rows df)) - 14)%nat /\
    first_turn_row reg hist = Some row /\
    training_pair set (length (rows_of_city d city (rows df)) - 15) = Some (row, AQI r).
Proof.
  intros Hschema Hcols Hlen Hd Hfin Hn.
  destruct (division_values df city d Hlen Hfin) as (qs & Hvals & Hqs).
  rewrite <- Hqs in *.
  destruct (snoc_cases (rows (sort_by_Date (city_part city d df)))) as [E|(rs & r & Hrows)].
  { apply (f_equal (map AQI)) in E. rewrite Hvals in E.
    apply (f_equal length) in E. rewrite length_map in E. simpl in E. lia. }
  destruct (last_training_pair df city Hcols Hlen d Hd qs Hvals reg rs r Hschema Hrows Hn)
    as (set & row & Hset & _ & Hy & Hrow & Hpair).
  exists (Date_AQI (sort_by_Date (city_part city d df))), set, row, r.
  split.
  { unfold hist_value.
    assert (get_col df "City" = Some city) as ->; [|done].
    unfold get_col; cbn [String.eqb Ascii.eqb Bool.eqb]. by rewrite Hcols. }
  split; [cbn [Date_AQI rows]; by rewrite Hrows, last_snoc|].
  exact (conj Hset (conj Hy (conj Hrow Hpair))).
Qed.

Lemma served_row_is_a_training_row_witness :
  exists hist set row r,
    hist_value "Dhaka" long_ramp = Ok hist /\
    last (rows hist) = Some r /\
    training_set long_ramp "Dhaka" = Ok (Some set) /\
    length (snd set)
    = (length (rows_of_city "Dhaka" (replicate 140 (Str "Dhaka")) (rows long_ramp)) - 14)%nat /\
    first_turn_row stub_registry hist = Some row /\
    training_pair set
      (length (rows_of_city "Dhaka" (replicate 140 (Str "Dhaka")) (rows long_ramp)) - 15)
    = Some (row, AQI r).
Proof.
  apply (served_row_is_a_training_row stub_registry long_ramp
           (replicate 140 (Str "Dhaka")) "Dhaka").
  - reflexivity.
  - reflexivity.
  - vm_compute. reflexivity.
  - apply (bool_decide_unpack _). vm_compute. reflexivity.
  - apply Forall_map, Forall_forall. intros i _. discriminate.
  - apply Nat.leb_le. vm_compute. reflexivity.
Defined.

(** The training script trains a division exactly when the cleaned sheet
    has at least 134 observations of it: the first 14 rows of its feature
    table lack a lag and are dropped, and fewer than 120 remaining rows make
    the script skip the division, which then has no model file.  A trained
    division is fitted on all its rows but the first 14, with the 19 feature
    columns in schema order. *)
Theorem trained_from_134_observations (df : DataFrame) (city : list cell) (d : string) :
  cols df = [("City"%string, city)] ->
  length city = length (rows df) ->
  d ∈ DIVS ->
  Forall (fun r => AQI r <> NaN) (rows df) ->
  ((length (rows_of_city d city (rows df)) < 134)%nat /\ training_set df d = Ok None) \/
  ((134 <= length (rows_of_city d city (rows df)))%nat /\
   exists x y,
     training_set df d = Ok (Some (x, y)) /\
     x_len x = (length (rows_of_city d city (rows df)) - 14)%nat /\
     length y = (length (rows_of_city d city (rows df)) - 14)%nat /\
     map fst (x_cols x) = feature_cols).
Proof.
  intros Hcols Hlen Hd Hfin.
  destruct (division_values df city d Hlen Hfin) as (qs & Hvals & Hqs).
  rewrite <- Hqs. exact (training_set_cases df city Hcols Hlen d Hd qs Hvals).
Qed.

Lemma trained_from_134_observations_witness :
  training_set (sheet_of "Dhaka" (rows ramp)) "Dhaka" = Ok None /\
  training_set long_ramp "Sylhet" = Ok None /\
  exists x y,
    training_set long_ramp "Dhaka" = Ok (Some (x, y)) /\
    x_len x
    = (length (rows_of_city "Dhaka" (replicate 140 (Str "Dhaka")) (rows long_ramp)) - 14)%nat /\
    length y
    = (length (rows_of_city "Dhaka" (replicate 140 (Str "Dhaka")) (rows long_ramp)) - 14)%nat /\
    map fst (x_cols x) = feature_cols.
Proof.
  split; [|split].
  - destruct (trained_from_134_observations (sheet_of "Dhaka" (rows ramp))
                (replicate 20 (Str "Dhaka")) "Dhaka") as [[_ H]|[H _]].
    + reflexivity.
    + vm_compute. reflexivity.
    + apply (bool_decide_unpack _). vm_compute. reflexivity.
    + apply Forall_map, Forall_forall. intros i _. discriminate.
    + exact H.
    + apply Nat.leb_le in H. vm_compute in H. discriminate H.
  - destruct (trained_from_134_observations long_ramp
                (replicate 140 (Str "Dhaka")) "Sylhet") as [[_ H]|[H _]].
    + reflexivity.
    + vm_compute. reflexivity.
    + apply (bool_decide_unpack _). vm_compute. reflexivity.
    + apply Forall_map, Forall_forall. intros i _. discriminate.
    + exact H.
    + apply Nat.leb_le in H. vm_compute in H. discriminate H.
  - destruct (trained_from_134_observations long_ramp
                (replicate 140 (Str "Dhaka")) "Dhaka") as [[H _]|[_ H]].
    + reflexivity.
    + vm_compute. reflexivity.
    + apply (bool_decide_unpack _). vm_compute. reflexivity.
    + apply Forall_map, Forall_forall. intros i _. discriminate.
    + apply Nat.ltb_lt in H. vm_compute in H. discriminate H.
    + exact H.
Defined.

(** ** The order of the working series *)

Lemma rollout_value_sorted (reg : registry) (model : regressor) (last_date : Z) (k : nat) :
  forall (a : nat) (w w' : DataFrame) (out out' : list point),
    Sorted Z.le (map Date (rows w)) ->
    (forall d, d ∈ map Date (rows w) -> d < last_date + Z.of_nat a) ->
    rollout_value reg model last_date (map Z.of_nat (seq a k)) w out = Ok (w', out') ->
    Sorted Z.le (map Date (rows w')).
Proof.
  induction k as [|k IH]; intros a w w' out out' Hs Hlt; cbn [seq map rollout_value].
  - by intros [= <- _].
  - destruct (prediction reg model w) as [p|e]; [|done].
    apply IH.
    + unfold concat_row; cbn [rows]. rewrite map_app. cbn [map Date].
      apply Sorted_snoc_le; [done|]. intros d Hd. specialize (Hlt d Hd). lia.
    + unfold concat_row; cbn [rows]. rewrite map_app. cbn [map Date].
      intros d [Hd|Hd]%elem_of_app.
      * specialize (Hlt d Hd). lia.
      * apply list_elem_of_singleton in Hd as ->. lia.
Qed.

(** The rollout keeps its working series in date order: started on a series
    in date order, as the extracted history is, from that series' latest
    date, every row it appends comes after all rows present, so that the
    sort inside [build_feats] never moves a row and the last 7 rows that the
    fallback averages are the 7 latest days. *)
Theorem working_series_stays_sorted (reg : registry) (model : regressor) (k : nat)
    (work work' : loc) (out out' : list point) (s s' : state) :
  (work < length (heap s))%nat ->
  Sorted Z.le (map Date (rows (heap s !!! work))) ->
  for_ (map Z.of_nat (seq 1 k)) (rollout_step reg model (Date_max (heap s !!! work)))
       (work, out) s = (Ok (work', out'), s') ->
  Sorted Z.le (map Date (rows (heap s' !!! work'))) /\
  rows (sort_by_Date (heap s' !!! work')) = rows (heap s' !!! work').
Proof.
  intros Hwork Hsorted Hrun.
  destruct (rollout_run reg model (Date_max (heap s !!! work)) (map Z.of_nat (seq 1 k))
              work out s Hwork) as (ext & Hs & Hr).
  rewrite Hrun in Hs, Hr; cbn [fst snd] in Hs, Hr. destruct Hr as [_ Hv].
  rewrite Hs; cbn [heap].
  assert (Sorted Z.le (map Date (rows ((heap s ++ ext) !!! work')))) as Hs'.
  { eapply (rollout_value_sorted reg model _ k 1); [exact Hsorted| |exact Hv].
    intros d Hd%Date_max_ge. lia. }
  split; [done|]. by apply rows_sort_by_Date_sorted.
Qed.

Lemma working_series_stays_sorted_witness :
  let run := for_ (map Z.of_nat (seq 1 2))
                  (rollout_step stub_registry lag1_plus_roll7 (Date_max ramp))
                  (0%nat, []) (store_of ramp) in
  Sorted Z.le (map Date (rows (heap (snd run) !!! 8%nat))) /\
  rows (sort_by_Date (heap (snd run) !!! 8%nat)) = rows (heap (snd run) !!! 8%nat).
Proof.
  intros run.
  apply (working_series_stays_sorted stub_registry lag1_plus_roll7 2 0 8 []
           (match fst run with Ok acc => snd acc | Raise _ => [] end)
           (store_of ramp)).
  - simpl. lia.
  - apply (bool_decide_unpack _). vm_compute. reflexivity.
  - vm_compute. reflexivity.
Defined.
